(** * The comparison engine of json-sync-diff

    A shallow embedding of the comparison slice of the store
    (the final revision of [comparisonSlice.ts]): the path collector
    [collectPaths], the path resolver [getValueAtPath], the four comparison
    functions [compareFeatureToggles], [compareGenericData],
    [compareCustomArrayData], [compareCustomObjectData] and the reducer
    [createComparisonSession], followed by the properties of the engine.

    JavaScript values are modelled by the inductive type [value]; a plain
    object is its list of own enumerable properties, in the order in which
    [Object.keys] enumerates them.  Numbers are restricted to integers;
    [String] and [JSON.stringify] print them in decimal digits, as
    JavaScript does for the safe integers ([safeInteger]).  A member read
    by name is an own property: the members that an object or an array
    inherits from its prototype are not read, and the statements that
    depend on what a name finds are stated for the names that are not
    inherited ([inherited], [ownPath]). *)

From Stdlib Require Import List String Ascii ZArith NArith Bool Arith Lia.
From Stdlib Require Import DecimalString Permutation.
Import ListNotations.

Local Open Scope list_scope.
Local Open Scope string_scope.

(** ** JavaScript values *)

Module JS.

#[local] Unset Elimination Schemes.

Inductive value : Type :=
| VUndef : value
| VNull : value
| VBool : bool -> value
| VNum : Z -> value
| VStr : string -> value
| VArr : list value -> value
| VObj : list (string * value) -> value.

#[local] Set Elimination Schemes.

(** Own properties of an ordinary object, in enumeration order. *)
Definition object := list (string * value).

(** *** Strings *)

Definition string_of_Z (z : Z) : string := NilZero.string_of_int (Z.to_int z).
Definition string_of_nat (n : nat) : string := string_of_Z (Z.of_nat n).

Fixpoint join (sep : string) (l : list string) : string :=
  match l with
  | [] => ""
  | [s] => s
  | s :: rest => s ++ sep ++ join sep rest
  end.

(** [s.split('.')]: the pieces between the dots; the empty string has the
    single piece [""]. *)
Fixpoint split_dot_aux (s : string) (cur : string) : list string :=
  match s with
  | EmptyString => [cur]
  | String c s' =>
      if Ascii.eqb c "."%char then cur :: split_dot_aux s' ""
      else split_dot_aux s' (cur ++ String c EmptyString)
  end.

Definition split_dot (s : string) : list string := split_dot_aux s "".

(** A string is truthy when it is not empty. *)
Definition truthy_string (s : string) : bool := negb (s =? "").

(** *** Array indices

    A property key is an array index when it is the canonical decimal text
    of an integer between 0 and 2^32 - 2. *)

Definition digit_of_ascii (c : ascii) : option N :=
  let n := N_of_ascii c in
  if ((48 <=? n) && (n <=? 57))%N then Some (n - 48)%N else None.

Fixpoint digits_value (s : string) (acc : N) : option N :=
  match s with
  | EmptyString => Some acc
  | String c s' =>
      match digit_of_ascii c with
      | Some d => digits_value s' (10 * acc + d)%N
      | None => None
      end
  end.

Definition array_index (k : string) : option N :=
  match k with
  | EmptyString => None
  | _ =>
      match digits_value k 0 with
      | Some n =>
          if (string_of_Z (Z.of_N n) =? k) && (n <=? 4294967294)%N
          then Some n else None
      | None => None
      end
  end.

(** *** Property access on ordinary objects

    The operations are polymorphic in the type of the property values:
    the engine also uses objects as typed records of arrays
    ([Record<string, FeatureToggle[]>]). *)

Section Properties.
Context {A : Type}.

(** [o[k]] for an own property; [None] is [undefined]. *)
Fixpoint prop_lookup (o : list (string * A)) (k : string) : option A :=
  match o with
  | [] => None
  | (k', v) :: o' => if k' =? k then Some v else prop_lookup o' k
  end.

Fixpoint prop_update (o : list (string * A)) (k : string) (v : A)
  : list (string * A) :=
  match o with
  | [] => []
  | (k', v') :: o' =>
      if k' =? k then (k', v) :: o' else (k', v') :: prop_update o' k v
  end.

(** A new array-index key goes among the index keys, in ascending order;
    these precede every other key. *)
Fixpoint prop_insert_index (o : list (string * A)) (i : N) (k : string) (v : A)
  : list (string * A) :=
  match o with
  | [] => [(k, v)]
  | (k', v') :: o' =>
      match array_index k' with
      | Some j =>
          if (j <? i)%N then (k', v') :: prop_insert_index o' i k v
          else (k, v) :: o
      | None => (k, v) :: o
      end
  end.

(** [o[k] = v], for a key other than [__proto__] (whose assignment
    makes no own property): an existing property keeps its place; a new
    one is enumerated after the existing ones, unless it is an array
    index. *)
Definition prop_set (o : list (string * A)) (k : string) (v : A)
  : list (string * A) :=
  match prop_lookup o k with
  | Some _ => prop_update o k v
  | None =>
      match array_index k with
      | Some i => prop_insert_index o i k v
      | None => (o ++ [(k, v)])%list
      end
  end.

(** [Map.prototype.set] and [get] on a [Map] with string keys: a [Map]
    keeps insertion order whatever the keys are. *)
Definition map_get (m : list (string * A)) (k : string) : option A :=
  prop_lookup m k.

Definition map_set (m : list (string * A)) (k : string) (v : A)
  : list (string * A) :=
  match prop_lookup m k with
  | Some _ => prop_update m k v
  | None => (m ++ [(k, v)])%list
  end.
End Properties.

Definition obj_get (o : object) (k : string) : value :=
  match prop_lookup o k with
  | Some v => v
  | None => VUndef
  end.

Definition obj_set (o : object) (k : string) (v : value) : object :=
  prop_set o k v.

Definition obj_keys {A : Type} (o : list (string * A)) : list string := map fst o.
Definition obj_values {A : Type} (o : list (string * A)) : list A := map snd o.

(** A [Set]: the distinct elements in the order of their first insertion. *)
Section Sets.
Context {A : Type} (eqb : A -> A -> bool).

Definition set_has (s : list A) (x : A) : bool := existsb (eqb x) s.

Definition set_add (s : list A) (x : A) : list A :=
  if set_has s x then s else (s ++ [x])%list.

Definition set_of_list (l : list A) : list A := fold_left set_add l [].
End Sets.

(** *** Truthiness, strict equality with a string, [String(v)] *)

Definition truthy (v : value) : bool :=
  match v with
  | VUndef | VNull => false
  | VBool b => b
  | VNum n => negb (n =? 0)%Z
  | VStr s => truthy_string s
  | VArr _ | VObj _ => true
  end.

(** [v === s] for a string literal [s]. *)
Definition is_string (v : value) (s : string) : bool :=
  match v with
  | VStr s' => s' =? s
  | _ => false
  end.

(** Strict equality [a === b] of primitive values.  Two arrays or objects
    are equal only when they are the same reference, which a pure value
    does not record; distinct parsed values are never the same reference. *)
Definition strict_eq (a b : value) : bool :=
  match a, b with
  | VUndef, VUndef => true
  | VNull, VNull => true
  | VBool x, VBool y => Bool.eqb x y
  | VNum x, VNum y => (x =? y)%Z
  | VStr x, VStr y => x =? y
  | _, _ => false
  end.

(** [String(v)], for a value on which it does not throw
    ([String_throws]); a number is printed in decimal digits, as
    JavaScript prints a safe integer. *)
Fixpoint to_String (v : value) : string :=
  match v with
  | VUndef => "undefined"
  | VNull => "null"
  | VBool b => if b then "true" else "false"
  | VNum n => string_of_Z n
  | VStr s => s
  | VArr l =>
      join "," (map (fun x => match x with
                              | VUndef | VNull => ""
                              | _ => to_String x
                              end) l)
  | VObj _ => "[object Object]"
  end.

(** *** [JSON.stringify] *)

Definition hex_digit (n : N) : ascii :=
  if (n <? 10)%N then ascii_of_N (48 + n) else ascii_of_N (87 + n).

(** The double-quote character, as a one-character string. *)
Definition dquote : string := String (ascii_of_N 34) EmptyString.

Definition escape_char (c : ascii) : string :=
  let n := N_of_ascii c in
  if (n =? 34)%N then "\" ++ dquote
  else if (n =? 92)%N then "\\"
  else if (n =? 8)%N then "\b"
  else if (n =? 12)%N then "\f"
  else if (n =? 10)%N then "\n"
  else if (n =? 13)%N then "\r"
  else if (n =? 9)%N then "\t"
  else if (n <? 32)%N then
    "\u00" ++ String (hex_digit (n / 16)) (String (hex_digit (n mod 16)) "")
  else String c "".

Fixpoint escape (s : string) : string :=
  match s with
  | EmptyString => ""
  | String c s' => escape_char c ++ escape s'
  end.

Definition quote (s : string) : string := dquote ++ escape s ++ dquote.

(** [JSON.stringify(v)]; [None] is the result [undefined].  Inside an
    array [undefined] is written [null]; a property whose value is
    [undefined] is left out. *)
Fixpoint stringify (v : value) : option string :=
  match v with
  | VUndef => None
  | VNull => Some "null"
  | VBool b => Some (if b then "true" else "false")
  | VNum n => Some (string_of_Z n)
  | VStr s => Some (quote s)
  | VArr l =>
      Some ("[" ++ join "," (map (fun x => match stringify x with
                                           | Some s => s
                                           | None => "null"
                                           end) l) ++ "]")
  | VObj o =>
      Some ("{" ++ join "," (flat_map (fun kv => match stringify (snd kv) with
                                                 | Some s => [quote (fst kv) ++ ":" ++ s]
                                                 | None => []
                                                 end) o) ++ "}")
  end.

(** *** Names inherited from a prototype

    [current[key]] finds an own property first and then the members of
    the prototype: those of [Object.prototype] for an object, those of
    [Array.prototype] and of [Object.prototype] for an array.  The list
    has the names that these prototypes define, with the names of the
    grouping methods that some engines have shipped. *)
Definition inheritedNames : list string :=
  [ "__defineGetter__"; "__defineSetter__"; "__lookupGetter__";
    "__lookupSetter__"; "__proto__"; "constructor"; "hasOwnProperty";
    "isPrototypeOf"; "propertyIsEnumerable"; "toLocaleString"; "toString";
    "valueOf";
    "at"; "concat"; "copyWithin"; "entries"; "every"; "fill"; "filter";
    "find"; "findIndex"; "findLast"; "findLastIndex"; "flat"; "flatMap";
    "forEach"; "includes"; "indexOf"; "join"; "keys"; "lastIndexOf"; "map";
    "pop"; "push"; "reduce"; "reduceRight"; "reverse"; "shift"; "slice";
    "some"; "sort"; "splice"; "toReversed"; "toSorted"; "toSpliced";
    "unshift"; "values"; "with";
    "group"; "groupBy"; "groupToMap"; "groupByToMap" ].

Definition inherited (key : string) : bool :=
  existsb (String.eqb key) inheritedNames.

(** No key of the path is an inherited name: every step of the path
    reads an own property, an element or the length of an array. *)
Definition ownPath (path : string) : bool :=
  forallb (fun key => negb (inherited key)) (split_dot path).

(** [Number.isSafeInteger(n)]: the integers that a number holds exactly
    and that [String] prints in decimal digits. *)
Definition safeInteger (n : Z) : bool :=
  (Z.abs n <=? 9007199254740991)%Z.

(** [v === null || v === undefined] *)
Definition nullish (v : value) : bool :=
  match v with
  | VUndef | VNull => true
  | _ => false
  end.

(** [String(v)] throws a [TypeError] when it comes to an object that has
    a property [toString] of its own: a parsed value cannot be called,
    and [valueOf] gives back the object.  The elements of an array are
    converted one by one. *)
Fixpoint String_throws (v : value) : bool :=
  match v with
  | VObj o => existsb (fun kv => fst kv =? "toString") o
  | VArr l => existsb String_throws l
  | _ => false
  end.

(** The characters of the text are ASCII characters: its length is the
    number of its UTF-16 code units. *)
Fixpoint isAscii (s : string) : bool :=
  match s with
  | EmptyString => true
  | String c s' => (N_of_ascii c <? 128)%N && isAscii s'
  end.

End JS.

(** ** The comparison engine *)

Module Engine.
Import JS.

Inductive DiffType : Type := added | deleted | edited | unchanged.

Definition DiffType_eqb (a b : DiffType) : bool :=
  match a, b with
  | added, added | deleted, deleted | edited, edited
  | unchanged, unchanged => true
  | _, _ => false
  end.

Record ComparisonResult : Type := mkResult {
  path : string;
  type : DiffType;
  values : object;
  affectedInstances : list string;
  description : string
}.

(** The two fields of a feature toggle that the comparison reads. *)
Record FeatureToggle : Type := mkToggle {
  FeatureName : string;
  CurrentValue : bool
}.

Record CustomComparisonType : Type := mkCustomType {
  ct_id : string;
  ct_name : string;
  label : string;
  fetchEndpoint : string;
  saveEndpoint : string;
  ct_description : string;
  comparisonFields : list string;
  responseFields : list string;
  identifierField : option string;
  createdAt : string
}.

(** The sentinel written for an instance that lacks the unit. *)
Definition MISSING : value := VStr "MISSING".

(** [v === 'MISSING'] *)
Definition is_MISSING (v : value) : bool := is_string v "MISSING".

(** *** collectPaths *)

(** [traverse] adds the paths below [obj] to the set [paths].  The value
    read by [obj[key]] for a key of [Object.keys(obj)] is the value listed
    with that key. *)
Fixpoint traverse (obj : value) (currentPath : string) (paths : list string)
  : list string :=
  match obj with
  | VObj o =>
      (fix forEach (keys : list (string * value)) (paths : list string)
         : list string :=
         match keys with
         | [] => paths
         | (key, child) :: rest =>
             let newPath :=
               if truthy_string currentPath
               then currentPath ++ "." ++ key else key in
             forEach rest
               (traverse child newPath (set_add String.eqb paths newPath))
         end) o paths
  | _ => paths
  end.

Definition collectPaths (objects : list value) : list string :=
  fold_left (fun paths obj => traverse obj "" paths) objects [].

(** *** getValueAtPath *)

(** [current[key]] for a truthy [current] of type ['object']: an own
    property of an object; an element or the length of an array.  The
    members that the prototype supplies under the names of
    [inheritedNames] are not read. *)
Definition get_member (current : value) (key : string) : value :=
  match current with
  | VObj o => obj_get o key
  | VArr l =>
      match array_index key with
      | Some i => nth (N.to_nat i) l VUndef
      | None =>
          if key =? "length" then VNum (Z.of_nat (List.length l)) else VUndef
      end
  | _ => VUndef
  end.

(** [typeof v === 'object'] *)
Definition typeof_object (v : value) : bool :=
  match v with
  | VNull | VArr _ | VObj _ => true
  | _ => false
  end.

Definition getValueAtPath (obj : value) (path : string) : value :=
  fold_left
    (fun current key =>
       if truthy current && typeof_object current
       then get_member current key else VUndef)
    (split_dot path) obj.

(** *** The comparison of one unit

    The four comparison functions run the same three steps on each unit:
    collect the value of every instance, decide whether the unit differs,
    classify the difference.  They vary in how an instance's value is
    found ([lookup]), in what is compared ([key]: the value itself for
    feature toggles, its [JSON.stringify] text otherwise), in the rule
    that reports a unit ([reportPartial]) and in the sentences. *)

Record Sentences : Type := mkSentences {
  s_added_base : nat -> string;
  s_deleted_base : nat -> value -> string;
  s_added : nat -> nat -> string;
  s_deleted : nat -> nat -> string;
  s_edited_base : value -> nat -> string;
  s_edited : string
}.

Record Collected : Type := mkCollected {
  c_values : object;
  c_affected : list string;
  c_hasBaseValue : bool;
  c_baseValue : value
}.

Definition isSome {A : Type} (x : option A) : bool :=
  match x with
  | Some _ => true
  | None => false
  end.

(** The entry written in [values] for an instance whose value of the unit
    is [x]. *)
Definition entryOf (x : option value) : value :=
  match x with
  | Some v => v
  | None => MISSING
  end.

Section Unit.
Variable instanceIds : list string.
Variable baseInstanceId : option string.
(** The value of the unit in an instance; [None] on the branches that
    write ['MISSING']. *)
Variable lookup : string -> option value.
Context {K : Type}.
Variable key : value -> K.
Variable key_eqb : K -> K -> bool.
Variable reportPartial : bool.
Variable sentences : Sentences.

(** [baseInstanceId] is truthy. *)
Definition hasBase : bool :=
  match baseInstanceId with
  | Some b => truthy_string b
  | None => false
  end.

(** [instanceId === baseInstanceId] *)
Definition isBase (instanceId : string) : bool :=
  match baseInstanceId with
  | Some b => instanceId =? b
  | None => false
  end.

(** [values[baseInstanceId]] *)
Definition valueOfBase (vals : object) : value :=
  match baseInstanceId with
  | Some b => obj_get vals b
  | None => VUndef
  end.

Definition collectStep (c : Collected) (instanceId : string) : Collected :=
  match lookup instanceId with
  | Some v =>
      let isB := hasBase && isBase instanceId in
      mkCollected (obj_set (c_values c) instanceId v)
                  (c_affected c ++ [instanceId])%list
                  (if isB then true else c_hasBaseValue c)
                  (if isB then v else c_baseValue c)
  | None =>
      mkCollected (obj_set (c_values c) instanceId MISSING)
                  (c_affected c) (c_hasBaseValue c) (c_baseValue c)
  end.

Definition collect : Collected :=
  fold_left collectStep instanceIds (mkCollected [] [] false VUndef).

(** The value of the base instance, as the first loop finds it: the base
    is designated, is one of the instances and has a value. *)
Definition baseFound : option value :=
  match baseInstanceId with
  | Some b =>
      if truthy_string b && existsb (String.eqb b) instanceIds
      then lookup b else None
  | None => None
  end.

(** What is compared, for an instance. *)
Definition keyOf (instanceId : string) : K :=
  key (entryOf (lookup instanceId)).

(** [a !== b] on what is compared. *)
Definition differs (a b : value) : bool := negb (key_eqb (key a) (key b)).

Definition hasDifference (c : Collected) : bool :=
  if hasBase && c_hasBaseValue c then
    fold_left
      (fun hd instanceId =>
         if negb (isBase instanceId) then
           let otherValue := obj_get (c_values c) instanceId in
           if differs otherValue (c_baseValue c) && negb (is_MISSING otherValue)
           then true
           else if is_MISSING otherValue then true else hd
         else hd)
      instanceIds false
  else
    (1 <? List.length
            (set_of_list key_eqb (map key (obj_values (c_values c)))))%nat.

Definition missingInstances (vals : object) : list string :=
  filter (fun id => is_MISSING (obj_get vals id)) instanceIds.

Definition presentInstances (vals : object) : list string :=
  filter (fun id => negb (is_MISSING (obj_get vals id))) instanceIds.

Definition classify (c : Collected) : DiffType * string :=
  let missing := missingInstances (c_values c) in
  let present := presentInstances (c_values c) in
  if ((0 <? List.length missing) && (0 <? List.length present))%nat then
    if hasBase then
      if is_MISSING (valueOfBase (c_values c))
      then (added, s_added_base sentences (List.length present))
      else (deleted,
            s_deleted_base sentences (List.length missing) (c_baseValue c))
    else
      if (List.length missing <? List.length present)%nat
      then (added,
            s_added sentences (List.length present) (List.length missing))
      else (deleted,
            s_deleted sentences (List.length missing) (List.length present))
  else if (List.length present =? List.length instanceIds)%nat then
    if hasBase && c_hasBaseValue c then
      let differentInstances :=
        filter (fun id => negb (isBase id)
                          && differs (obj_get (c_values c) id) (c_baseValue c))
               instanceIds in
      (edited,
       s_edited_base sentences (c_baseValue c) (List.length differentInstances))
    else (edited, s_edited sentences)
  else (edited, "").

(** The rows pushed for one unit: one row or none. *)
Definition compareUnit (unit : string) : list ComparisonResult :=
  let c := collect in
  if hasDifference c
     || (reportPartial
         && negb (List.length (c_affected c) =? List.length instanceIds)%nat)
  then
    let (ty, desc) := classify c in
    [mkResult unit ty (c_values c) (c_affected c) desc]
  else [].
End Unit.

Definition key_stringify (v : value) : option string := stringify v.

Definition option_string_eqb (a b : option string) : bool :=
  match a, b with
  | Some x, Some y => x =? y
  | None, None => true
  | _, _ => false
  end.

Definition or_empty {A : Type} (l : option (list A)) : list A :=
  match l with
  | Some x => x
  | None => []
  end.

(** *** compareFeatureToggles *)

Definition toggleSentences (featureName : string) : Sentences :=
  let head := "Feature " ++ dquote ++ featureName ++ dquote in
  mkSentences
    (fun present =>
       head ++ " added in " ++ string_of_nat present
            ++ " instance(s) (not present in base)")
    (fun missing baseValue =>
       head ++ " deleted in " ++ string_of_nat missing
            ++ " instance(s) (present in base with value "
            ++ to_String baseValue ++ ")")
    (fun present missing =>
       head ++ " added in " ++ string_of_nat present
            ++ " instance(s), missing in " ++ string_of_nat missing)
    (fun missing present =>
       head ++ " deleted in " ++ string_of_nat missing
            ++ " instance(s), present in " ++ string_of_nat present)
    (fun baseValue different =>
       head ++ " differs from base value " ++ to_String baseValue
            ++ " in " ++ string_of_nat different ++ " instance(s)")
    (head ++ " has inconsistent values across instances").

(** [new Map(features.map(f => [f.FeatureName, f]))] *)
Definition featureMapOf (features : list FeatureToggle)
  : list (string * FeatureToggle) :=
  fold_left (fun m f => map_set m (FeatureName f) f) features [].

(** The first loop: the set of feature names and the map of each
    instance. *)
Definition buildFeatureMaps
    (instanceData : list (string * list FeatureToggle))
    (instanceIds : list string)
  : list string * list (string * list (string * FeatureToggle)) :=
  fold_left
    (fun st instanceId =>
       let features := or_empty (prop_lookup instanceData instanceId) in
       (fold_left (fun names f => set_add String.eqb names (FeatureName f))
                  features (fst st),
        map_set (snd st) instanceId (featureMapOf features)))
    instanceIds ([], []).

Definition toggleLookup
    (instanceFeatureMaps : list (string * list (string * FeatureToggle)))
    (featureName instanceId : string) : option value :=
  match map_get instanceFeatureMaps instanceId with
  | Some featureMap =>
      match map_get featureMap featureName with
      | Some feature => Some (VBool (CurrentValue feature))
      | None => None
      end
  | None => None
  end.

Definition compareFeatureToggles
    (instanceData : list (string * list FeatureToggle))
    (instanceIds : list string) (baseInstanceId : option string)
  : list ComparisonResult :=
  let (allFeatureNames, instanceFeatureMaps) :=
    buildFeatureMaps instanceData instanceIds in
  flat_map
    (fun featureName =>
       compareUnit instanceIds baseInstanceId
         (toggleLookup instanceFeatureMaps featureName)
         (fun v => v) strict_eq true (toggleSentences featureName) featureName)
    allFeatureNames.

(** *** compareGenericData *)

Definition genericSentences (what unit diff : string) : Sentences :=
  let head := what ++ dquote ++ unit ++ dquote in
  mkSentences
    (fun present =>
       head ++ " added in " ++ string_of_nat present
            ++ " instance(s) (not present in base)")
    (fun missing _ =>
       head ++ " deleted in " ++ string_of_nat missing
            ++ " instance(s) (present in base)")
    (fun present missing =>
       head ++ " added in " ++ string_of_nat present
            ++ " instance(s), missing in " ++ string_of_nat missing)
    (fun missing present =>
       head ++ " deleted in " ++ string_of_nat missing
            ++ " instance(s), present in " ++ string_of_nat present)
    (fun _ different =>
       head ++ diff ++ string_of_nat different ++ " instance(s)")
    (head ++ " has inconsistent values across instances").

(** The value of [path] in the data of an instance. *)
Definition pathLookup (instanceData : object) (path instanceId : string)
  : option value :=
  let data := obj_get instanceData instanceId in
  if truthy data then
    match getValueAtPath data path with
    | VUndef => None
    | value => Some value
    end
  else None.

Definition compareGenericData
    (instanceData : object) (instanceIds : list string)
    (baseInstanceId : option string) : list ComparisonResult :=
  let allPaths := collectPaths (obj_values instanceData) in
  flat_map
    (fun path =>
       compareUnit instanceIds baseInstanceId
         (pathLookup instanceData path)
         key_stringify option_string_eqb false
         (genericSentences "Setting at " path " differs from base value in ")
         path)
    allPaths.

(** *** compareCustomArrayData *)

(** [items.forEach] of the first loop: records whose identifier text is
    empty are passed over. *)
Definition addItem (identifierField : string)
    (st : list string * list (string * object)) (item : object)
  : list string * list (string * object) :=
  let identifier := to_String (obj_get item identifierField) in
  if truthy_string identifier
  then (set_add String.eqb (fst st) identifier, map_set (snd st) identifier item)
  else st.

Definition buildItemMaps
    (instanceData : list (string * list object))
    (instanceIds : list string) (identifierField : string)
  : list string * list (string * list (string * object)) :=
  fold_left
    (fun st instanceId =>
       let items := or_empty (prop_lookup instanceData instanceId) in
       let (allItemIds, itemMap) :=
         fold_left (addItem identifierField) items (fst st, []) in
       (allItemIds, map_set (snd st) instanceId itemMap))
    instanceIds ([], []).

(** The object of the comparison fields of a record. *)
Definition itemValuesOf (fields : list string) (item : object) : object :=
  fold_left
    (fun itemValues field =>
       obj_set itemValues field (getValueAtPath (VObj item) field))
    fields [].

Definition itemLookup
    (instanceItemMaps : list (string * list (string * object)))
    (fields : list string) (itemId instanceId : string) : option value :=
  match map_get instanceItemMaps instanceId with
  | Some itemMap =>
      match map_get itemMap itemId with
      | Some item => Some (VObj (itemValuesOf fields item))
      | None => None
      end
  | None => None
  end.

Definition compareCustomArrayData
    (instanceData : list (string * list object))
    (instanceIds : list string) (customType : CustomComparisonType)
    (baseInstanceId : option string) : list ComparisonResult :=
  match identifierField customType with
  | None => []
  | Some field =>
      if negb (truthy_string field) then []
      else
        let (allItemIds, instanceItemMaps) :=
          buildItemMaps instanceData instanceIds field in
        flat_map
          (fun itemId =>
             compareUnit instanceIds baseInstanceId
               (itemLookup instanceItemMaps (comparisonFields customType) itemId)
               key_stringify option_string_eqb false
               (genericSentences (label customType ++ " item ") itemId
                                 " differs from base in ")
               itemId)
          allItemIds
  end.

(** *** compareCustomObjectData *)

Definition compareCustomObjectData
    (instanceData : object) (instanceIds : list string)
    (customType : CustomComparisonType) (baseInstanceId : option string)
  : list ComparisonResult :=
  flat_map
    (fun fieldPath =>
       compareUnit instanceIds baseInstanceId
         (pathLookup instanceData fieldPath)
         key_stringify option_string_eqb false
         (genericSentences (label customType ++ " field ") fieldPath
                           " differs from base value in ")
         fieldPath)
    (comparisonFields customType).

(** ** The store: sessions and the reducer *)

Record Summary : Type := mkSummary {
  totalDifferences : nat;
  sum_added : nat;
  sum_deleted : nat;
  sum_edited : nat
}.

Record ComparisonSession : Type := mkSession {
  id : string;
  name : string;
  instanceIds : list string;
  endpoint : string;
  timestamp : string;
  results : list ComparisonResult;
  summary : Summary
}.

Record EndpointConfig : Type := mkEndpointConfig {
  ec_fetchEndpoint : string;
  ec_saveEndpoint : string;
  ec_requestBody : option object
}.

Record ComparisonState : Type := mkState {
  sessions : list ComparisonSession;
  activeSessionId : option string;
  selectedInstances : list string;
  baseInstanceId : option string;
  currentFetchEndpoint : string;
  currentSaveEndpoint : string;
  comparisonType : string;
  customTypes : list CustomComparisonType;
  builtInEndpoints : list (string * EndpointConfig);
  loading : bool;
  error : option string
}.

(** The payload of the [createComparisonSession] action. *)
Record SessionRequest : Type := mkRequest {
  rq_name : string;
  rq_instanceIds : list string;
  rq_endpoint : string;
  rq_instanceData : object
}.

(** What a reducer does besides returning the next state: it writes the
    session list to local storage. *)
Inductive Effect : Type :=
| SaveSessions (saved : list ComparisonSession).

(** [state.baseInstanceId || undefined] *)
Definition baseOrUndefined (b : option string) : option string :=
  match b with
  | Some s => if truthy_string s then Some s else None
  | None => None
  end.

(** What a run comes to: it returns, it throws a [TypeError] (the store
    then keeps its state and nothing is saved), or it is a run on a
    payload that the embedding does not read. *)
Inductive Run (A : Type) : Type :=
| Returns (a : A)
| Throws
| Unread.

Arguments Returns {A} a.
Arguments Throws {A}.
Arguments Unread {A}.

(** The casts [as FeatureToggle[]] and [as Record<string, unknown>[]] are
    not checked when the program runs.  The embedding reads a payload at
    the asserted type; a payload that is not of that type has no reading
    ([None]). *)
Definition asFeatureToggle (v : value) : option FeatureToggle :=
  match v with
  | VObj o =>
      match obj_get o "FeatureName", obj_get o "CurrentValue" with
      | VStr n, VBool b => Some (mkToggle n b)
      | _, _ => None
      end
  | _ => None
  end.

Definition asRecord (v : value) : option object :=
  match v with
  | VObj o => Some o
  | _ => None
  end.

Fixpoint traverseOption {A B : Type} (f : A -> option B) (l : list A)
  : option (list B) :=
  match l with
  | [] => Some []
  | x :: rest =>
      match f x, traverseOption f rest with
      | Some y, Some ys => Some (y :: ys)
      | _, _ => None
      end
  end.

Definition asArrayOf {B : Type} (f : value -> option B) (v : value)
  : option (list B) :=
  match v with
  | VArr l => traverseOption f l
  | _ => None
  end.

(** The loop that copies the truthy payloads of the compared instances
    into a fresh object, read at the type [B]. *)
Definition selectData {B : Type} (cast : value -> option B)
    (instanceData : object) (instanceIds : list string)
  : option (list (string * B)) :=
  fold_left
    (fun acc instId =>
       match acc with
       | Some data =>
           let payload := obj_get instanceData instId in
           if truthy payload then
             match cast payload with
             | Some d => Some (prop_set data instId d)
             | None => None
             end
           else Some data
       | None => None
       end)
    instanceIds (Some []).

(** A truthy payload on which [compareFeatureToggles] throws:
    [features.map] is not a function unless the payload is an array, and
    [f.FeatureName] throws for an element that is [null] or
    [undefined]. *)
Definition featuresThrow (payload : value) : bool :=
  match payload with
  | VArr features => existsb nullish features
  | _ => true
  end.

(** A truthy payload on which [compareCustomArrayData] throws:
    [items.forEach] is not a function unless the payload is an array,
    [item[field]] throws for an element that is [null] or [undefined],
    and [String] throws for some identifiers. *)
Definition itemsThrow (identifierField : string) (payload : value) : bool :=
  match payload with
  | VArr items =>
      existsb (fun item =>
                 match item with
                 | VUndef | VNull => true
                 | VObj o => String_throws (obj_get o identifierField)
                 | _ => false
                 end) items
  | _ => true
  end.

(** One of the truthy payloads of the compared instances makes the
    comparison throw. *)
Definition anyThrows (throws : value -> bool) (instanceData : object)
    (instanceIds : list string) : bool :=
  existsb (fun instId =>
             truthy (obj_get instanceData instId)
             && throws (obj_get instanceData instId))
          instanceIds.

Definition countType (ty : DiffType) (rs : list ComparisonResult) : nat :=
  List.length (filter (fun r => DiffType_eqb (type r) ty) rs).

Definition summarize (rs : list ComparisonResult) : Summary :=
  mkSummary (List.length rs) (countType added rs) (countType deleted rs)
            (countType edited rs).

(** The custom type that the comparison type of the store names:
    [state.customTypes.find(t => t.id === state.comparisonType)]. *)
Definition customTypeOf (state : ComparisonState)
  : option CustomComparisonType :=
  find (fun t => ct_id t =? comparisonType state) (customTypes state).

(** The payloads on which the comparison of the store throws; the
    comparisons of objects throw on none. *)
Definition throwsOn (state : ComparisonState) (payload : value) : bool :=
  if comparisonType state =? "featureToggle" then featuresThrow payload
  else
    match customTypeOf state with
    | Some t =>
        match identifierField t with
        | Some f => if truthy_string f then itemsThrow f payload else false
        | None => false
        end
    | None => false
    end.

(** The comparison selected by the comparison type of the store. *)
Definition runComparison (state : ComparisonState) (rq : SessionRequest)
  : Run (list ComparisonResult) :=
  let ids := rq_instanceIds rq in
  let base := baseOrUndefined (baseInstanceId state) in
  let customType := customTypeOf state in
  let isArrayType :=
    match customType with
    | Some t => match identifierField t with
                | Some f => truthy_string f
                | None => false
                end
    | None => false
    end in
  let hasFields :=
    match customType with
    | Some t => (0 <? List.length (comparisonFields t))%nat
    | None => false
    end in
  if anyThrows (throwsOn state) (rq_instanceData rq) ids then Throws
  else if comparisonType state =? "featureToggle" then
    match selectData (asArrayOf asFeatureToggle) (rq_instanceData rq) ids with
    | Some featureToggleData =>
        Returns (compareFeatureToggles featureToggleData ids base)
    | None => Unread
    end
  else if isArrayType then
    match customType,
          selectData (asArrayOf asRecord) (rq_instanceData rq) ids with
    | Some t, Some customArrayData =>
        Returns (compareCustomArrayData customArrayData ids t base)
    | _, _ => Unread
    end
  else if hasFields then
    match customType, selectData Some (rq_instanceData rq) ids with
    | Some t, Some genericData =>
        Returns (compareCustomObjectData genericData ids t base)
    | _, _ => Unread
    end
  else
    match selectData Some (rq_instanceData rq) ids with
    | Some genericData => Returns (compareGenericData genericData ids base)
    | None => Unread
    end.

Definition setError (state : ComparisonState) (e : option string)
  : ComparisonState :=
  mkState (sessions state) (activeSessionId state) (selectedInstances state)
          (baseInstanceId state) (currentFetchEndpoint state)
          (currentSaveEndpoint state) (comparisonType state)
          (customTypes state) (builtInEndpoints state) (loading state) e.

Definition pushSession (state : ComparisonState) (session : ComparisonSession)
  : ComparisonState :=
  mkState (sessions state ++ [session])%list (Some (id session))
          (selectedInstances state) (baseInstanceId state)
          (currentFetchEndpoint state) (currentSaveEndpoint state)
          (comparisonType state) (customTypes state) (builtInEndpoints state)
          (loading state) (error state).

(** The reducer.  [now] is the text of [Date.now()] and [isoNow] that of
    [new Date().toISOString()] when the action is reduced. *)
Definition createComparisonSession (now isoNow : string)
    (state : ComparisonState) (rq : SessionRequest)
  : Run (ComparisonState * list Effect) :=
  if (List.length (rq_instanceIds rq) <? 2)%nat then
    Returns (setError state
               (Some "At least 2 instances are required for comparison"), [])
  else
    match runComparison state rq with
    | Returns rs =>
        let session :=
          mkSession now (rq_name rq) (rq_instanceIds rq) (rq_endpoint rq)
                    isoNow rs (summarize rs) in
        let state' := pushSession state session in
        Returns (state', [SaveSessions (sessions state')])
    | Throws => Throws
    | Unread => Unread
    end.

(** ** The four comparisons, side by side

    The statements below speak of a comparison whatever its kind.
    [compare] runs the comparison function of the kind, [units] lists the
    units it goes through and [valueAt] reads the value of a unit in the
    data of an instance. *)

Inductive Comparison : Type :=
| ToggleComparison (data : list (string * list FeatureToggle))
| GenericComparison (data : object)
| ArrayComparison (data : list (string * list object))
                  (customType : CustomComparisonType)
| ObjectComparison (data : object) (customType : CustomComparisonType).

Definition compare (c : Comparison) (ids : list string) (base : option string)
  : list ComparisonResult :=
  match c with
  | ToggleComparison data => compareFeatureToggles data ids base
  | GenericComparison data => compareGenericData data ids base
  | ArrayComparison data t => compareCustomArrayData data ids t base
  | ObjectComparison data t => compareCustomObjectData data ids t base
  end.

(** The identifier field of an array type, when it is set and not empty. *)
Definition identifierOf (t : CustomComparisonType) : option string :=
  match identifierField t with
  | Some f => if truthy_string f then Some f else None
  | None => None
  end.

Definition units (c : Comparison) (ids : list string) : list string :=
  match c with
  | ToggleComparison data => fst (buildFeatureMaps data ids)
  | GenericComparison data => collectPaths (obj_values data)
  | ArrayComparison data t =>
      match identifierOf t with
      | Some f => fst (buildItemMaps data ids f)
      | None => []
      end
  | ObjectComparison _ t => comparisonFields t
  end.

(** The identity map of one array of records. *)
Definition itemMapOf (identifierField : string) (items : list object)
  : list (string * object) :=
  snd (fold_left (addItem identifierField) items ([], [])).

Definition valueAt (c : Comparison) (unit instanceId : string) : option value :=
  match c with
  | ToggleComparison data =>
      match map_get (featureMapOf (or_empty (prop_lookup data instanceId))) unit with
      | Some feature => Some (VBool (CurrentValue feature))
      | None => None
      end
  | GenericComparison data => pathLookup data unit instanceId
  | ArrayComparison data t =>
      match identifierOf t with
      | Some f =>
          match map_get (itemMapOf f (or_empty (prop_lookup data instanceId))) unit with
          | Some item => Some (VObj (itemValuesOf (comparisonFields t) item))
          | None => None
          end
      | None => None
      end
  | ObjectComparison data _ => pathLookup data unit instanceId
  end.

(** The rows that a comparison pushes for one unit. *)
Definition unitRows (c : Comparison) (ids : list string) (base : option string)
    (unit : string) : list ComparisonResult :=
  match c with
  | ToggleComparison _ =>
      compareUnit ids base (valueAt c unit)
        (fun v => v) strict_eq true (toggleSentences unit) unit
  | GenericComparison _ =>
      compareUnit ids base (valueAt c unit)
        key_stringify option_string_eqb false
        (genericSentences "Setting at " unit " differs from base value in ")
        unit
  | ArrayComparison _ t =>
      compareUnit ids base (valueAt c unit)
        key_stringify option_string_eqb false
        (genericSentences (label t ++ " item ") unit " differs from base in ")
        unit
  | ObjectComparison _ t =>
      compareUnit ids base (valueAt c unit)
        key_stringify option_string_eqb false
        (genericSentences (label t ++ " field ") unit
                          " differs from base value in ")
        unit
  end.

(** The comparisons of arrays, whose units are the identifiers of the
    items: feature toggles and array-based custom types. *)
Definition byIdentity (c : Comparison) : bool :=
  match c with
  | ToggleComparison _ | ArrayComparison _ _ => true
  | GenericComparison _ | ObjectComparison _ _ => false
  end.

(** The payloads of a request have the shape that the comparison type of
    the store asserts: arrays of feature toggles, arrays of records whose
    identifier has a text, or any value for the comparisons of objects. *)
Definition wellShaped (state : ComparisonState) (rq : SessionRequest) : Prop :=
  let truthyPayloads (P : value -> Prop) :=
    forall i, In i (rq_instanceIds rq) ->
              truthy (obj_get (rq_instanceData rq) i) = true ->
              P (obj_get (rq_instanceData rq) i) in
  if comparisonType state =? "featureToggle" then
    truthyPayloads (fun v => asArrayOf asFeatureToggle v <> None)
  else
    match customTypeOf state with
    | Some t =>
        match identifierOf t with
        | Some f =>
            truthyPayloads (fun v => asArrayOf asRecord v <> None
                                     /\ itemsThrow f v = false)
        | None => True
        end
    | None => True
    end.

(** What the comparison reads by name in a payload, for a unit, are own
    properties: the keys of the path in the comparisons of objects, the
    identifier field and the comparison fields in the comparison of
    arrays of records.  The feature toggles are read by the two names
    [FeatureName] and [CurrentValue]. *)
Definition readsOwn (c : Comparison) (unit : string) : bool :=
  match c with
  | ToggleComparison _ => true
  | GenericComparison _ => ownPath unit
  | ArrayComparison _ t =>
      match identifierOf t with
      | Some f => negb (inherited f)
      | None => true
      end
      && forallb ownPath (comparisonFields t)
  | ObjectComparison _ _ => ownPath unit
  end.

(** [String] gives a text for the identifier of every record of the
    compared instances: the first loop of [compareCustomArrayData] does
    not throw.  The other comparisons convert no value of a payload. *)
Definition identifiersConvert (c : Comparison) (ids : list string) : bool :=
  match c with
  | ArrayComparison data t =>
      match identifierOf t with
      | Some f =>
          forallb
            (fun instanceId =>
               forallb (fun item => negb (String_throws (obj_get item f)))
                       (or_empty (prop_lookup data instanceId)))
            ids
      | None => true
      end
  | _ => true
  end.

(** Two values that are the same up to the order of the keys of their
    objects. *)
#[local] Unset Elimination Schemes.

Inductive sameUpToKeyOrder : value -> value -> Prop :=
| same_refl : forall v, sameUpToKeyOrder v v
| same_keys : forall o1 o2,
    Permutation o1 o2 -> sameUpToKeyOrder (VObj o1) (VObj o2)
| same_array : forall l1 l2,
    Forall2 sameUpToKeyOrder l1 l2 -> sameUpToKeyOrder (VArr l1) (VArr l2)
| same_object : forall o1 o2,
    Forall2 (fun e1 e2 => fst e1 = fst e2 /\ sameUpToKeyOrder (snd e1) (snd e2))
            o1 o2 ->
    sameUpToKeyOrder (VObj o1) (VObj o2)
| same_trans : forall u v w,
    sameUpToKeyOrder u v -> sameUpToKeyOrder v w -> sameUpToKeyOrder u w.

#[local] Set Elimination Schemes.

(** The leaf paths at which two payloads differ: the collected paths whose
    value is, in one of them, neither an object nor absent, and whose
    texts differ. *)
Definition isLeaf (v : value) : bool :=
  match v with
  | VUndef | VObj _ => false
  | _ => true
  end.

Definition differingLeaves (d1 d2 : value) : list string :=
  filter
    (fun p =>
       let v1 := getValueAtPath d1 p in
       let v2 := getValueAtPath d2 p in
       (isLeaf v1 || isLeaf v2)
       && negb (option_string_eqb (stringify v1) (stringify v2)))
    (collectPaths [d1; d2]).

End Engine.

(** ** Sample runs, used to exercise the statements *)

Module Samples.
Import JS Engine.

Definition emptyState : ComparisonState :=
  mkState [] None [] None "/api/settings" "/api/settings" "settings"
          [] [] false None.

(** [{a: {x: 1}}] and [{a: {x: 2}}]: one nested leaf differs. *)
Definition nestedLeft : value := VObj [("a", VObj [("x", VNum 1)])].
Definition nestedRight : value := VObj [("a", VObj [("x", VNum 2)])].

Definition nestedRequest : SessionRequest :=
  mkRequest "nested" ["p"; "q"] "/api/settings"
            [("p", nestedLeft); ("q", nestedRight)].

Definition singleRequest : SessionRequest :=
  mkRequest "single" ["p"] "/api/settings" [("p", nestedLeft)].

(** A store whose comparison type is the comparison of feature toggles. *)
Definition toggleState : ComparisonState :=
  mkState [] None [] None "/api/settings" "/api/settings" "featureToggle"
          [] [] false None.

(** The outcome of a run that returns; for another run, the store as it
    was and nothing saved. *)
Definition outcomeOf (state : ComparisonState) (rq : SessionRequest)
  : ComparisonState * list Effect :=
  match createComparisonSession "1700000000000" "2023-11-14T22:13:20.000Z"
                                state rq with
  | Returns out => out
  | _ => (state, [])
  end.

(** [{x: 1}] and [{}]: the path is absent from the second instance. *)
Definition partialData : object :=
  [("p", VObj [("x", VNum 1)]); ("q", VObj [])].

(** [{x: "MISSING"}] and [{x: 1}]: a value that is the text of the
    sentinel. *)
Definition sentinelData : object :=
  [("p", VObj [("x", VStr "MISSING")]); ("q", VObj [("x", VNum 1)])].

(** [{x: "MISSING"}] and [{}]. *)
Definition sentinelBaseData : object :=
  [("p", VObj [("x", VStr "MISSING")]); ("q", VObj [])].

(** [{k: {a: 1, b: 2}}] and [{k: {b: 2, a: 1}}]: the same object with its
    keys in two orders. *)
Definition keysAB : value := VObj [("a", VNum 1); ("b", VNum 2)].
Definition keysBA : value := VObj [("b", VNum 2); ("a", VNum 1)].
Definition keyOrderData : object :=
  [("p", VObj [("k", keysAB)]); ("q", VObj [("k", keysBA)])].

(** Instances named by array indices. *)
Definition indexData : object :=
  [("1", VObj [("x", VNum 1)]); ("2", VObj [("x", VNum 2)])].

(** An array-based custom type identified by the field [id] and compared
    on the field [v]. *)
Definition arrayType : CustomComparisonType :=
  mkCustomType "custom-1" "flags" "Flag" "/flags" "/flags/save" ""
               ["v"] [] (Some "id") "2023-11-14T22:13:20.000Z".

(** [[{id: 0, v: true}]] and [[]]: a record whose identifier is the
    number zero. *)
Definition zeroIdData : list (string * list object) :=
  [("p", [[("id", VNum 0); ("v", VBool true)]]); ("q", [])].

(** [[{id: "f1", v: true}]] and [[{id: "f1", v: false}, {id: "f2", v: true}]]. *)
Definition flagsData : list (string * list object) :=
  [("p", [[("id", VStr "f1"); ("v", VBool true)]]);
   ("q", [[("id", VStr "f1"); ("v", VBool false)];
          [("id", VStr "f2"); ("v", VBool true)]])].

(** [{x: 1}] in both instances. *)
Definition sameData : object :=
  [("p", VObj [("x", VNum 1)]); ("q", VObj [("x", VNum 1)])].


(** [{x: 1, y: 2}] and [{x: 1, y: 3}]. *)
Definition editedData : object :=
  [("p", VObj [("x", VNum 1); ("y", VNum 2)]);
   ("q", VObj [("x", VNum 1); ("y", VNum 3)])].

(** What the statements read of a row. *)
Definition rowView (r : ComparisonResult)
  : string * DiffType * object * list string :=
  (path r, type r, values r, affectedInstances r).

Definition togglesData : list (string * list FeatureToggle) :=
  [("p", [mkToggle "dark" true]);
   ("q", [mkToggle "dark" true; mkToggle "beta" false])].

End Samples.

(** ** Shapes of payloads and of comparisons, for the statements *)

Module Shapes.
Import JS Engine.

Fixpoint hasDot (s : string) : bool :=
  match s with
  | EmptyString => false
  | String c s' => Ascii.eqb c "."%char || hasDot s'
  end.

(** A key that is one segment of a path: not empty and without a dot. *)
Definition plainKey (k : string) : bool := truthy_string k && negb (hasDot k).

Fixpoint distinct (l : list string) : bool :=
  match l with
  | [] => true
  | x :: rest => negb (existsb (String.eqb x) rest) && distinct rest
  end.

Definition isUndefined (v : value) : bool :=
  match v with
  | VUndef => true
  | _ => false
  end.

(** An object as [JSON.parse] gives it, with keys that are plain: at every
    depth the keys of an object are distinct and plain, and no property
    is [undefined].  What an array holds does not matter. *)
Fixpoint plainObject (v : value) : bool :=
  match v with
  | VObj o =>
      distinct (map fst o)
      && forallb (fun kv => plainKey (fst kv)
                            && negb (isUndefined (snd kv))
                            && plainObject (snd kv)) o
  | _ => true
  end.

(** The path of the key [k] below the path [currentPath], as
    [collectPaths] writes it. *)
Definition joinPath (currentPath k : string) : string :=
  if truthy_string currentPath then currentPath ++ "." ++ k else k.

(** [current] is truthy and of type ['object']: an object or an array. *)
Definition isContainer (current : value) : bool :=
  truthy current && typeof_object current.

(** The comparison pushes a row for the unit. *)
Definition emits (c : Comparison) (ids : list string) (base : option string)
    (unit : string) : bool :=
  match unitRows c ids base unit with
  | [] => false
  | _ :: _ => true
  end.

(** The comparisons that find their units in the data; the comparison of
    the fields of a custom type takes them from the configuration. *)
Definition discoversUnits (c : Comparison) : bool :=
  match c with
  | ObjectComparison _ _ => false
  | _ => true
  end.

(** The data of a comparison holds nothing for an instance: no payload
    or an empty array in the comparisons of arrays
    ([instanceData[instanceId] || []]), no payload or a falsy payload in
    the comparisons of objects ([if (data)]). *)
Definition noData (c : Comparison) (instanceId : string) : bool :=
  match c with
  | ToggleComparison data =>
      match or_empty (prop_lookup data instanceId) with
      | [] => true
      | _ :: _ => false
      end
  | ArrayComparison data _ =>
      match or_empty (prop_lookup data instanceId) with
      | [] => true
      | _ :: _ => false
      end
  | GenericComparison data => negb (truthy (obj_get data instanceId))
  | ObjectComparison data _ => negb (truthy (obj_get data instanceId))
  end.

(** The [JSON.stringify] text of the entry of an instance in [values]. *)
Definition textOf (c : Comparison) (unit instanceId : string) : option string :=
  stringify (entryOf (valueAt c unit instanceId)).

(** What a row shows besides its type and its sentence. *)
Definition rowContent (r : ComparisonResult)
  : string * object * list string :=
  (path r, values r, affectedInstances r).

End Shapes.

(** ** The other reducers of the comparison slice *)

Module Store.
Import JS Engine.

(** What a reducer writes to local storage besides the sessions. *)
Inductive Write : Type :=
| WriteCustomTypes (saved : list CustomComparisonType)
| WriteBuiltInEndpoints (saved : list (string * EndpointConfig)).

(** A reducer returns, or throws after the writes it has made; the store
    keeps its state when a reducer throws. *)
Inductive Reduced : Type :=
| Returned (state : ComparisonState) (writes : list Write)
| Threw (writes : list Write).

Definition setSelectedInstances (state : ComparisonState)
    (payload : list string) : ComparisonState :=
  let base :=
    match baseInstanceId state with
    | Some b =>
        if truthy_string b && negb (existsb (String.eqb b) payload)
        then None else Some b
    | None => None
    end in
  mkState (sessions state) (activeSessionId state) payload base
          (currentFetchEndpoint state) (currentSaveEndpoint state)
          (comparisonType state) (customTypes state) (builtInEndpoints state)
          (loading state) (error state).

Definition setBaseInstanceId (state : ComparisonState)
    (payload : option string) : ComparisonState :=
  mkState (sessions state) (activeSessionId state) (selectedInstances state)
          payload (currentFetchEndpoint state) (currentSaveEndpoint state)
          (comparisonType state) (customTypes state) (builtInEndpoints state)
          (loading state) (error state).

(** The assignment of the two current endpoints. *)
Definition withEndpoints (state : ComparisonState) (fetch save : string)
  : ComparisonState :=
  mkState (sessions state) (activeSessionId state) (selectedInstances state)
          (baseInstanceId state) fetch save
          (comparisonType state) (customTypes state) (builtInEndpoints state)
          (loading state) (error state).

Definition withComparisonType (state : ComparisonState) (ty : string)
  : ComparisonState :=
  mkState (sessions state) (activeSessionId state) (selectedInstances state)
          (baseInstanceId state) (currentFetchEndpoint state)
          (currentSaveEndpoint state) ty (customTypes state)
          (builtInEndpoints state) (loading state) (error state).

Definition withCustomTypes (state : ComparisonState)
    (types : list CustomComparisonType) : ComparisonState :=
  mkState (sessions state) (activeSessionId state) (selectedInstances state)
          (baseInstanceId state) (currentFetchEndpoint state)
          (currentSaveEndpoint state) (comparisonType state) types
          (builtInEndpoints state) (loading state) (error state).

Definition withBuiltInEndpoints (state : ComparisonState)
    (configs : list (string * EndpointConfig)) : ComparisonState :=
  mkState (sessions state) (activeSessionId state) (selectedInstances state)
          (baseInstanceId state) (currentFetchEndpoint state)
          (currentSaveEndpoint state) (comparisonType state)
          (customTypes state) configs (loading state) (error state).

(** [state.customTypes.find(t => t.id === id)] *)
Definition findCustomType (state : ComparisonState) (id : string)
  : option CustomComparisonType :=
  find (fun t => ct_id t =? id) (customTypes state).

Definition setComparisonType (state : ComparisonState) (payload : string)
  : ComparisonState :=
  let state1 := withComparisonType state payload in
  match findCustomType state1 payload with
  | Some customType =>
      withEndpoints state1 (fetchEndpoint customType) (saveEndpoint customType)
  | None =>
      match prop_lookup (builtInEndpoints state1) payload with
      | Some builtInConfig =>
          withEndpoints state1 (ec_fetchEndpoint builtInConfig)
                        (ec_saveEndpoint builtInConfig)
      | None => state1
      end
  end.

Definition updateBuiltInEndpoints (state : ComparisonState)
    (ty fetch save : string) (requestBody : option object)
  : ComparisonState * list Write :=
  let state1 :=
    withBuiltInEndpoints state
      (prop_set (builtInEndpoints state) ty
                (mkEndpointConfig fetch save requestBody)) in
  let state2 :=
    if comparisonType state1 =? ty then withEndpoints state1 fetch save
    else state1 in
  (state2, [WriteBuiltInEndpoints (builtInEndpoints state2)]).

(** [now] is the text of [Date.now()] and [isoNow] that of
    [new Date().toISOString()]. *)
Definition addCustomComparisonType (now isoNow : string)
    (state : ComparisonState) (payload : CustomComparisonType)
  : ComparisonState * list Write :=
  let newType :=
    mkCustomType ("custom-" ++ now) (ct_name payload) (label payload)
                 (fetchEndpoint payload) (saveEndpoint payload)
                 (ct_description payload) (comparisonFields payload)
                 (responseFields payload) (identifierField payload) isoNow in
  let state1 := withCustomTypes state (customTypes state ++ [newType])%list in
  (state1, [WriteCustomTypes (customTypes state1)]).

(** [types[index] = payload] at the index that [findIndex] gives: the
    first type with the id of the payload. *)
Fixpoint replaceFirst (types : list CustomComparisonType)
    (payload : CustomComparisonType) : option (list CustomComparisonType) :=
  match types with
  | [] => None
  | t :: rest =>
      if ct_id t =? ct_id payload then Some (payload :: rest)
      else match replaceFirst rest payload with
           | Some rest' => Some (t :: rest')
           | None => None
           end
  end.

Definition updateCustomComparisonType (state : ComparisonState)
    (payload : CustomComparisonType) : ComparisonState * list Write :=
  match replaceFirst (customTypes state) payload with
  | Some types =>
      let state1 := withCustomTypes state types in
      let state2 :=
        if comparisonType state1 =? ct_id payload
        then withEndpoints state1 (fetchEndpoint payload) (saveEndpoint payload)
        else state1 in
      (state2, [WriteCustomTypes types])
  | None => (state, [])
  end.

Definition deleteCustomComparisonType (state : ComparisonState)
    (payload : string) : Reduced :=
  let types := filter (fun t => negb (ct_id t =? payload)) (customTypes state) in
  let state1 := withCustomTypes state types in
  let writes := [WriteCustomTypes types] in
  if comparisonType state1 =? payload then
    match prop_lookup (builtInEndpoints state1) "settings" with
    | Some settingsConfig =>
        Returned (withEndpoints (withComparisonType state1 "settings")
                                (ec_fetchEndpoint settingsConfig)
                                (ec_saveEndpoint settingsConfig))
                 writes
    | None => Threw writes
    end
  else Returned state1 writes.

Definition setActiveSession (state : ComparisonState) (payload : string)
  : ComparisonState :=
  mkState (sessions state) (Some payload) (selectedInstances state)
          (baseInstanceId state) (currentFetchEndpoint state)
          (currentSaveEndpoint state) (comparisonType state)
          (customTypes state) (builtInEndpoints state) (loading state)
          (error state).

Definition deleteSession (state : ComparisonState) (payload : string)
  : ComparisonState :=
  let active :=
    match activeSessionId state with
    | Some a => if a =? payload then None else Some a
    | None => None
    end in
  mkState (filter (fun s => negb (id s =? payload)) (sessions state)) active
          (selectedInstances state) (baseInstanceId state)
          (currentFetchEndpoint state) (currentSaveEndpoint state)
          (comparisonType state) (customTypes state) (builtInEndpoints state)
          (loading state) (error state).

Definition setLoading (state : ComparisonState) (payload : bool)
  : ComparisonState :=
  mkState (sessions state) (activeSessionId state) (selectedInstances state)
          (baseInstanceId state) (currentFetchEndpoint state)
          (currentSaveEndpoint state) (comparisonType state)
          (customTypes state) (builtInEndpoints state) payload (error state).

Definition clearError (state : ComparisonState) : ComparisonState :=
  setError state None.

End Store.

(** ** The pages that start a comparison and show a session *)

Module Pages.
Import JS Engine.

(** The data fetched from an instance, as the instances slice caches it. *)
Record InstanceData : Type := mkInstanceData {
  instanceId : string;
  data : value;
  fetchedAt : string;
  fetchError : option string
}.

(** [handleStartComparison] of the compare page: the action it dispatches,
    or [None] when it only shows the message that two instances are
    required.  [defaultName] is the text made of the comparison type and
    of the local time. *)
Definition handleStartComparison
    (selectedInstances : list string)
    (instanceData : list (string * InstanceData))
    (sessionName defaultName currentFetchEndpoint : string)
  : option SessionRequest :=
  if (List.length selectedInstances <? 2)%nat then None
  else
    let selectedInstanceData :=
      fold_left
        (fun selected instId =>
           match prop_lookup instanceData instId with
           | Some d => obj_set selected instId (data d)
           | None => selected
           end)
        selectedInstances [] in
    Some (mkRequest (if truthy_string sessionName then sessionName
                     else defaultName)
                    selectedInstances currentFetchEndpoint
                    selectedInstanceData).

(** The filter of the summary page. *)
Inductive Filter : Type :=
| FilterAll | FilterAdded | FilterDeleted | FilterEdited.

(** [sessions.find(s => s.id === activeSessionId)] *)
Definition activeSession (state : ComparisonState) : option ComparisonSession :=
  match activeSessionId state with
  | Some a => find (fun s => id s =? a) (sessions state)
  | None => None
  end.

Definition getFilteredResults (session : option ComparisonSession)
    (activeFilter : Filter) : list ComparisonResult :=
  match session with
  | None => []
  | Some s =>
      match activeFilter with
      | FilterAll => results s
      | FilterAdded => filter (fun r => DiffType_eqb (type r) added) (results s)
      | FilterDeleted =>
          filter (fun r => DiffType_eqb (type r) deleted) (results s)
      | FilterEdited => filter (fun r => DiffType_eqb (type r) edited) (results s)
      end
  end.

(** [selectedForMigration.includes(p)] *)
Definition includes (selected : list string) (p : string) : bool :=
  existsb (String.eqb p) selected.

(** The next value of [selectedForMigration]. *)
Definition handleMigrationSelection (selected : list string)
    (p : string) (checked : bool) : list string :=
  if checked then (selected ++ [p])%list
  else filter (fun q => negb (q =? p)) selected.

Definition handleSelectAllMigration (session : option ComparisonSession)
    (activeFilter : Filter) (checked : bool) : list string :=
  if checked then map path (getFilteredResults session activeFilter) else [].

Definition isAllSelected (session : option ComparisonSession)
    (activeFilter : Filter) (selected : list string) : bool :=
  let filteredResults := getFilteredResults session activeFilter in
  (0 <? List.length filteredResults)%nat
  && forallb (fun r => includes selected (path r)) filteredResults.

Definition isIndeterminate (session : option ComparisonSession)
    (activeFilter : Filter) (selected : list string) : bool :=
  let filteredResults := getFilteredResults session activeFilter in
  let selectedCount :=
    List.length (filter (fun r => includes selected (path r)) filteredResults) in
  (0 <? selectedCount)%nat
  && (selectedCount <? List.length filteredResults)%nat.

End Pages.

(** ** The helpers of [jsonHelpers.ts] *)

Module JsonHelpers.
Import JS Engine.

(** The text that stands for a dot in a formatted path: a space, the
    characters between the quotes of the source, a space. *)
Definition arrow : string :=
  String (ascii_of_N 32)
    (String (ascii_of_N 195) (String (ascii_of_N 162)
    (String (ascii_of_N 226) (String (ascii_of_N 128) (String (ascii_of_N 160)
    (String (ascii_of_N 226) (String (ascii_of_N 128) (String (ascii_of_N 153)
    (String (ascii_of_N 32) EmptyString))))))))).

(** [path.replace(/\./g, arrow)] *)
Fixpoint formatJsonPath (path : string) : string :=
  match path with
  | EmptyString => EmptyString
  | String c rest =>
      if Ascii.eqb c "."%char then arrow ++ formatJsonPath rest
      else String c (formatJsonPath rest)
  end.

(** [typeof value === 'string' ? value : JSON.stringify(value)];
    [None] is the result [undefined]. *)
Definition stringValue (v : value) : option string :=
  match v with
  | VStr s => Some s
  | _ => stringify v
  end.

(** [truncateValue(value, maxLength)]; [None] when it throws, which it
    does when [JSON.stringify] gives [undefined].  The length of a text
    is the number of its characters, which is the number of its UTF-16
    code units when the characters are ASCII characters. *)
Definition truncateValue (v : value) (maxLength : nat) : option string :=
  match stringValue v with
  | Some s =>
      if (maxLength <? String.length s)%nat
      then Some (substring 0 maxLength s ++ "...")
      else Some s
  | None => None
  end.

End JsonHelpers.

(** ** More sample runs *)

Module MoreSamples.
Import JS Engine Store Pages.

(** The data of [p] alone, for a comparison of [p] with [q]. *)
Definition onlyP : object := [("p", VObj [("x", VNum 1)])].

(** The same data with the data of an instance that is not compared. *)
Definition onlyPAndOther : object :=
  [("p", VObj [("x", VNum 1)]); ("z", VObj [("y", VNum 7)])].

Definition firstRow (rs : list ComparisonResult) : ComparisonResult :=
  nth 0 rs (mkResult "" unchanged [] [] "").

Definition flagType (typeId : string) : CustomComparisonType :=
  mkCustomType typeId "flags" "Flag" "/flags" "/flags/save" ""
               ["v"] [] (Some "id") "2023-11-14T22:13:20.000Z".

Definition flagState : ComparisonState :=
  mkState [] None ["p"; "q"] (Some "p") "/api/settings" "/TurnOn"
          "settings" [flagType "custom-1"]
          [("settings", mkEndpointConfig "/api/settings" "/TurnOn" None)]
          false None.

Definition cache : list (string * InstanceData) :=
  [("p", mkInstanceData "p" (VObj [("x", VNum 1)]) "2023-11-14" None);
   ("q", mkInstanceData "q" (VObj [("x", VNum 2)]) "2023-11-14" None)].

End MoreSamples.

(** In the statements and proofs below [++] is the concatenation of
    lists. *)
Local Open Scope list_scope.

(** * Properties *)

(** ** Facts on property access and sets *)

Module JSFacts.
Import JS.

Section PropertyFacts.
Context {A : Type}.
Implicit Types (o : list (string * A)) (k : string) (v : A).

Lemma prop_lookup_None_keys o k :
  prop_lookup o k = None <-> ~ In k (obj_keys o).
Proof.
  induction o as [|[k' w] o IH]; simpl.
  - tauto.
  - destruct (String.eqb_spec k' k) as [->|Hne].
    + split; [discriminate | intros H; exfalso; apply H; now left].
    + rewrite IH. split.
      * intros H [Heq|Hin]; [now apply Hne | now apply H].
      * intros H Hin. apply H. now right.
Qed.

Lemma prop_lookup_update o k v k' :
  prop_lookup (prop_update o k v) k'
  = if k =? k' then
      match prop_lookup o k with Some _ => Some v | None => None end
    else prop_lookup o k'.
Proof.
  induction o as [|[k0 w] o IH]; simpl.
  - now destruct (k =? k').
  - destruct (String.eqb_spec k0 k) as [->|Hne]; simpl.
    + destruct (String.eqb_spec k k'); reflexivity.
    + rewrite IH. destruct (String.eqb_spec k k') as [Hkk'|Hkk']; [subst k'|].
      * destruct (String.eqb_spec k0 k); [contradiction | reflexivity].
      * reflexivity.
Qed.

Lemma prop_lookup_insert_index o i k v k' :
  prop_lookup o k = None ->
  prop_lookup (prop_insert_index o i k v) k'
  = if k =? k' then Some v else prop_lookup o k'.
Proof.
  induction o as [|[k0 w] o IH]; simpl; intros Hnone.
  - reflexivity.
  - destruct (String.eqb_spec k0 k) as [->|Hne]; [discriminate|].
    destruct (array_index k0) as [j|]; [destruct (j <? i)%N|]; simpl.
    + rewrite (IH Hnone).
      destruct (String.eqb_spec k k') as [Hkk'|Hkk']; [subst k'|].
      * destruct (String.eqb_spec k0 k); [contradiction | reflexivity].
      * reflexivity.
    + reflexivity.
    + reflexivity.
Qed.

Lemma prop_lookup_app o k v k' :
  prop_lookup (o ++ [(k, v)]) k'
  = match prop_lookup o k' with
    | Some w => Some w
    | None => if k =? k' then Some v else None
    end.
Proof.
  induction o as [|[k0 w] o IH]; simpl.
  - reflexivity.
  - destruct (k0 =? k'); [reflexivity | exact IH].
Qed.

Lemma prop_lookup_set o k v k' :
  prop_lookup (prop_set o k v) k'
  = if k =? k' then Some v else prop_lookup o k'.
Proof.
  unfold prop_set. destruct (prop_lookup o k) as [w|] eqn:Hk.
  - rewrite prop_lookup_update, Hk. reflexivity.
  - destruct (array_index k) as [i|].
    + now apply prop_lookup_insert_index.
    + rewrite prop_lookup_app.
      destruct (String.eqb_spec k k') as [Hkk'|Hne]; [subst k'|].
      * now rewrite Hk.
      * now destruct (prop_lookup o k').
Qed.

Lemma map_get_set (m : list (string * A)) k v k' :
  map_get (map_set m k v) k'
  = if k =? k' then Some v else map_get m k'.
Proof.
  unfold map_get, map_set. destruct (prop_lookup m k) as [w|] eqn:Hk.
  - rewrite prop_lookup_update, Hk. reflexivity.
  - rewrite prop_lookup_app.
    destruct (String.eqb_spec k k') as [Hkk'|Hne]; [subst k'|].
    + now rewrite Hk.
    + now destruct (prop_lookup m k').
Qed.

Lemma prop_lookup_In o k v :
  prop_lookup o k = Some v -> In (k, v) o.
Proof.
  induction o as [|[k0 w] o IH]; simpl; [discriminate|].
  destruct (String.eqb_spec k0 k) as [->|Hne].
  - intros [= ->]. now left.
  - intros H. right. now apply IH.
Qed.

Lemma obj_keys_update o k v : obj_keys (prop_update o k v) = obj_keys o.
Proof.
  unfold obj_keys.
  induction o as [|[k0 w] o IH]; simpl; [reflexivity|].
  destruct (String.eqb_spec k0 k); simpl; [reflexivity|].
  now rewrite IH.
Qed.

Lemma obj_keys_insert_index o i k v :
  Permutation (obj_keys (prop_insert_index o i k v)) (k :: obj_keys o).
Proof.
  unfold obj_keys.
  induction o as [|[k0 w] o IH]; simpl; [reflexivity|].
  destruct (array_index k0) as [j|]; [destruct (j <? i)%N|]; simpl;
    try reflexivity.
  rewrite IH. apply perm_swap.
Qed.

Lemma obj_keys_set_new o k v :
  prop_lookup o k = None ->
  Permutation (obj_keys (prop_set o k v)) (k :: obj_keys o).
Proof.
  intros Hk. unfold prop_set. rewrite Hk.
  destruct (array_index k) as [i|].
  - apply obj_keys_insert_index.
  - unfold obj_keys. rewrite map_app. simpl.
    symmetry. apply Permutation_cons_append.
Qed.

Lemma obj_keys_set_old o k v w :
  prop_lookup o k = Some w ->
  obj_keys (prop_set o k v) = obj_keys o.
Proof.
  intros Hk. unfold prop_set. rewrite Hk. apply obj_keys_update.
Qed.

Lemma prop_set_append o k v :
  prop_lookup o k = None -> array_index k = None ->
  prop_set o k v = (o ++ [(k, v)])%list.
Proof.
  intros Hk Hi. unfold prop_set. now rewrite Hk, Hi.
Qed.
End PropertyFacts.

Section SetFacts.
Context {A : Type} (eqb : A -> A -> bool).

Lemma set_has_In (s : list A) (x : A) :
  (forall y, In y s -> (eqb x y = true <-> x = y)) ->
  set_has eqb s x = true <-> In x s.
Proof.
  intros Hr. unfold set_has. rewrite existsb_exists. split.
  - intros (y & Hy & He). apply Hr in He; [now subst | exact Hy].
  - intros Hx. exists x. split; [exact Hx|]. now apply Hr.
Qed.

Lemma set_fold_In (l s : list A) (x : A) :
  (forall a b, In a (s ++ l) -> In b (s ++ l) -> (eqb a b = true <-> a = b)) ->
  In x (fold_left (set_add eqb) l s) <-> In x s \/ In x l.
Proof.
  revert s. induction l as [|a l IH]; intros s Hr; simpl.
  - tauto.
  - assert (Hhas : set_has eqb s a = true <-> In a s).
    { apply set_has_In. intros y Hy. apply Hr; apply in_or_app; simpl; auto. }
    unfold set_add at 2. destruct (set_has eqb s a) eqn:Hs.
    + rewrite IH.
      * assert (In a s) by now apply Hhas.
        split; [tauto|]. intros [?|[<-|?]]; auto.
      * intros u w Hu Hw. apply Hr; apply in_app_or in Hu, Hw;
          apply in_or_app; simpl; tauto.
    + rewrite IH.
      * rewrite in_app_iff. simpl. tauto.
      * intros u w Hu Hw.
        apply Hr; rewrite <- app_assoc in Hu, Hw; exact Hu || exact Hw.
Qed.

Lemma set_fold_NoDup (l s : list A) :
  (forall a b, In a (s ++ l) -> In b (s ++ l) -> (eqb a b = true <-> a = b)) ->
  NoDup s -> NoDup (fold_left (set_add eqb) l s).
Proof.
  revert s. induction l as [|a l IH]; intros s Hr Hnd; simpl.
  - exact Hnd.
  - assert (Hhas : set_has eqb s a = true <-> In a s).
    { apply set_has_In. intros y Hy. apply Hr; apply in_or_app; simpl; auto. }
    unfold set_add at 2. destruct (set_has eqb s a) eqn:Hs.
    + apply IH; [|exact Hnd].
      intros u w Hu Hw. apply Hr; apply in_app_or in Hu, Hw;
        apply in_or_app; simpl; tauto.
    + apply IH.
      * intros u w Hu Hw.
        apply Hr; rewrite <- app_assoc in Hu, Hw; exact Hu || exact Hw.
      * apply NoDup_app; [exact Hnd | repeat constructor; auto |].
        intros y Hy [<-|[]]. apply Hhas in Hy. congruence.
Qed.

(** A set has more than one element exactly when the list holds two
    different elements. *)
Lemma set_of_list_size (l : list A) :
  (forall a b, In a l -> In b l -> (eqb a b = true <-> a = b)) ->
  (1 <? List.length (set_of_list eqb l))%nat = true
  <-> exists x y, In x l /\ In y l /\ x <> y.
Proof.
  intros Hr. unfold set_of_list.
  assert (Hin : forall x, In x (fold_left (set_add eqb) l []) <-> In x l).
  { intros x. rewrite set_fold_In; [simpl; tauto | exact Hr]. }
  assert (Hnd : NoDup (fold_left (set_add eqb) l [])).
  { apply set_fold_NoDup; [exact Hr | constructor]. }
  rewrite Nat.ltb_lt. split.
  - destruct (fold_left (set_add eqb) l []) as [|x [|y t]]; simpl;
      try lia.
    intros _. exists x, y. repeat split.
    + apply Hin. now left.
    + apply Hin. right. now left.
    + inversion Hnd as [|? ? Hx _]. intros ->. apply Hx. now left.
  - intros (x & y & Hx & Hy & Hne).
    apply Hin in Hx, Hy.
    destruct (fold_left (set_add eqb) l []) as [|u [|w t]]; simpl in *.
    + contradiction.
    + destruct Hx as [<-|[]], Hy as [<-|[]]. congruence.
    + lia.
Qed.
End SetFacts.

End JSFacts.

(** ** Facts on the comparison of one unit *)

Module UnitFacts.
Import JS Engine JSFacts.

Lemma obj_get_set (o : object) (k : string) (v : value) (k' : string) :
  obj_get (obj_set o k v) k' = if k =? k' then v else obj_get o k'.
Proof.
  unfold obj_get, obj_set. rewrite prop_lookup_set.
  now destruct (k =? k').
Qed.

Lemma obj_keys_set_In {A : Type} (o : list (string * A)) k v k' :
  In k' (obj_keys (prop_set o k v)) <-> k' = k \/ In k' (obj_keys o).
Proof.
  destruct (prop_lookup o k) as [w|] eqn:Hk.
  - rewrite (obj_keys_set_old _ _ _ _ Hk). split; [tauto|].
    intros [->|H]; [|exact H].
    destruct (in_dec string_dec k (obj_keys o)) as [Hin|Hout]; [exact Hin|].
    apply prop_lookup_None_keys in Hout. congruence.
  - split; intros H.
    + apply (Permutation_in _ (obj_keys_set_new o k v Hk)) in H.
      destruct H as [<-|H]; auto.
    + apply (Permutation_in _ (Permutation_sym (obj_keys_set_new o k v Hk))).
      destruct H as [->|H]; [now left | now right].
Qed.

Lemma obj_keys_set_NoDup {A : Type} (o : list (string * A)) k v :
  NoDup (obj_keys o) -> NoDup (obj_keys (prop_set o k v)).
Proof.
  intros Hnd. destruct (prop_lookup o k) as [w|] eqn:Hk.
  - now rewrite (obj_keys_set_old _ _ _ _ Hk).
  - apply (Permutation_NoDup (Permutation_sym (obj_keys_set_new o k v Hk))).
    constructor; [|exact Hnd]. now apply prop_lookup_None_keys.
Qed.

Lemma In_prop_lookup {A : Type} (o : list (string * A)) k v :
  NoDup (obj_keys o) -> In (k, v) o -> prop_lookup o k = Some v.
Proof.
  induction o as [|[k0 w] o IH]; simpl; [tauto|].
  intros Hnd [Heq|Hin].
  - injection Heq as -> ->. now rewrite String.eqb_refl.
  - inversion Hnd as [|? ? Hout Hnd']; subst.
    destruct (String.eqb_spec k0 k) as [->|Hne].
    + exfalso. apply Hout. change (In (fst (k, v)) (map fst o)).
      now apply in_map.
    + now apply IH.
Qed.

Section Collecting.
Variable base : option string.
Variable lookup : string -> option value.

Lemma step_values c a :
  c_values (collectStep base lookup c a) = obj_set (c_values c) a (entryOf (lookup a)).
Proof. unfold collectStep. now destruct (lookup a). Qed.

Lemma step_affected c a :
  c_affected (collectStep base lookup c a)
  = c_affected c ++ (if isSome (lookup a) then [a] else []).
Proof.
  unfold collectStep. destruct (lookup a); simpl; [reflexivity|].
  now rewrite app_nil_r.
Qed.

Lemma fold_values_get ids c0 i :
  obj_get (c_values (fold_left (collectStep base lookup) ids c0)) i
  = if existsb (String.eqb i) ids then entryOf (lookup i)
    else obj_get (c_values c0) i.
Proof.
  revert c0. induction ids as [|a ids IH]; intros c0; simpl; [reflexivity|].
  rewrite IH, step_values, obj_get_set.
  destruct (existsb (String.eqb i) ids); [now rewrite orb_true_r|].
  rewrite orb_false_r, (String.eqb_sym a i).
  destruct (String.eqb_spec i a) as [->|]; reflexivity.
Qed.

Lemma fold_affected ids c0 :
  c_affected (fold_left (collectStep base lookup) ids c0)
  = c_affected c0 ++ filter (fun i => isSome (lookup i)) ids.
Proof.
  revert c0. induction ids as [|a ids IH]; intros c0; simpl.
  - now rewrite app_nil_r.
  - rewrite IH, step_affected, <- app_assoc.
    now destruct (isSome (lookup a)).
Qed.

Lemma fold_keys_In ids c0 k :
  In k (obj_keys (c_values (fold_left (collectStep base lookup) ids c0)))
  <-> In k (obj_keys (c_values c0)) \/ In k ids.
Proof.
  revert c0. induction ids as [|a ids IH]; intros c0; simpl; [tauto|].
  rewrite IH, step_values. unfold obj_set. rewrite obj_keys_set_In.
  split; intros H; intuition auto.
Qed.

Lemma fold_keys_NoDup ids c0 :
  NoDup (obj_keys (c_values c0)) ->
  NoDup (obj_keys (c_values (fold_left (collectStep base lookup) ids c0))).
Proof.
  revert c0. induction ids as [|a ids IH]; intros c0 Hnd; simpl; [exact Hnd|].
  apply IH. rewrite step_values. now apply obj_keys_set_NoDup.
Qed.

Lemma fold_keys_order ids c0 :
  NoDup ids ->
  (forall i, In i ids -> array_index i = None) ->
  (forall i, In i ids -> ~ In i (obj_keys (c_values c0))) ->
  obj_keys (c_values (fold_left (collectStep base lookup) ids c0))
  = obj_keys (c_values c0) ++ ids.
Proof.
  revert c0. induction ids as [|a ids IH]; intros c0 Hnd Hidx Hnew; simpl.
  - now rewrite app_nil_r.
  - inversion Hnd as [|? ? Ha Hnd']; subst.
    assert (Hset : c_values (collectStep base lookup c0 a)
                   = c_values c0 ++ [(a, entryOf (lookup a))]).
    { rewrite step_values. apply prop_set_append.
      - apply prop_lookup_None_keys. apply Hnew. now left.
      - apply Hidx. now left. }
    rewrite IH; [| exact Hnd' | intros; apply Hidx; now right |].
    + rewrite Hset. unfold obj_keys. rewrite map_app, <- app_assoc.
      reflexivity.
    + intros i Hi. rewrite Hset. unfold obj_keys. rewrite map_app, in_app_iff.
      simpl. intros [H|[<-|[]]].
      * apply (Hnew i); [now right | exact H].
      * contradiction.
Qed.

Lemma fold_base ids c0 :
  c_hasBaseValue (fold_left (collectStep base lookup) ids c0)
  = isSome (baseFound ids base lookup) || c_hasBaseValue c0
  /\ c_baseValue (fold_left (collectStep base lookup) ids c0)
     = match baseFound ids base lookup with
       | Some v => v
       | None => c_baseValue c0
       end.
Proof.
  revert c0. induction ids as [|a ids IH]; intros c0; simpl.
  - unfold baseFound. destruct base as [b|]; simpl; [|auto].
    rewrite andb_false_r. auto.
  - destruct (IH (collectStep base lookup c0 a)) as [IH1 IH2]. rewrite IH1, IH2. clear IH IH1 IH2.
    unfold baseFound, collectStep, hasBase, isBase.
    destruct base as [b|]; simpl.
    + destruct (truthy_string b); simpl.
      * rewrite (String.eqb_sym b a).
        destruct (String.eqb_spec a b) as [->|Hne]; simpl.
        -- destruct (lookup b) as [v|] eqn:Hb; simpl.
           ++ destruct (existsb (String.eqb b) ids); simpl; auto.
           ++ destruct (existsb (String.eqb b) ids); simpl; auto.
        -- destruct (lookup a); simpl; auto.
      * destruct (lookup a); simpl; auto.
    + destruct (lookup a); simpl; auto.
Qed.
End Collecting.

End UnitFacts.

(** ** Facts on the rows of a unit *)

Module RowFacts.
Import JS Engine JSFacts UnitFacts.

Lemma fold_flag {A : Type} (P Q R : A -> bool) (l : list A) (h : bool) :
  fold_left
    (fun hd x => if P x then (if Q x then true else if R x then true else hd)
                 else hd) l h
  = h || existsb (fun x => P x && (Q x || R x)) l.
Proof.
  revert h. induction l as [|a l IH]; intros h; simpl.
  - now rewrite orb_false_r.
  - rewrite IH. destruct (P a), (Q a), (R a), h; simpl; reflexivity.
Qed.

Lemma filter_split_length {A : Type} (f : A -> bool) (l : list A) :
  List.length (filter f l) + List.length (filter (fun x => negb (f x)) l)
  = List.length l.
Proof.
  induction l as [|a l IH]; simpl; [reflexivity|].
  destruct (f a); simpl; lia.
Qed.

Lemma filter_nonempty {A : Type} (f : A -> bool) (l : list A) (x : A) :
  In x l -> f x = true -> 0 < List.length (filter f l).
Proof.
  intros Hin Hf.
  assert (H : In x (filter f l)) by (apply filter_In; auto).
  destruct (filter f l); [contradiction | simpl; lia].
Qed.

Lemma fold_left_ext_in {A B : Type} (f g : A -> B -> A) (l : list B) (a : A) :
  (forall x y, In y l -> f x y = g x y) ->
  fold_left f l a = fold_left g l a.
Proof.
  revert a. induction l as [|b l IH]; intros a H; simpl; [reflexivity|].
  rewrite H by now left. apply IH. intros x y Hy. apply H. now right.
Qed.

Section Rows.
Variable ids : list string.
Variable base : option string.
Variable lookup : string -> option value.
Context {K : Type}.
Variable key : value -> K.
Variable key_eqb : K -> K -> bool.
Variable reportPartial : bool.
Variable sentences : Sentences.

Lemma collect_get i :
  In i ids ->
  obj_get (c_values (collect ids base lookup)) i = entryOf (lookup i).
Proof.
  intros Hi. unfold collect. rewrite fold_values_get.
  replace (existsb (String.eqb i) ids) with true; [reflexivity|].
  symmetry. apply existsb_exists. exists i. split; [exact Hi|].
  apply String.eqb_refl.
Qed.

Lemma collect_affected :
  c_affected (collect ids base lookup)
  = filter (fun i => isSome (lookup i)) ids.
Proof. unfold collect. now rewrite fold_affected. Qed.

Lemma collect_keys_In k :
  In k (obj_keys (c_values (collect ids base lookup))) <-> In k ids.
Proof. unfold collect. rewrite fold_keys_In. simpl. tauto. Qed.

Lemma collect_keys_NoDup :
  NoDup (obj_keys (c_values (collect ids base lookup))).
Proof. unfold collect. apply fold_keys_NoDup. constructor. Qed.

Lemma collect_keys_Permutation :
  NoDup ids ->
  Permutation (obj_keys (c_values (collect ids base lookup))) ids.
Proof.
  intros Hnd. apply NoDup_Permutation.
  - apply collect_keys_NoDup.
  - exact Hnd.
  - apply collect_keys_In.
Qed.

Lemma collect_keys_order :
  NoDup ids -> (forall i, In i ids -> array_index i = None) ->
  obj_keys (c_values (collect ids base lookup)) = ids.
Proof.
  intros Hnd Hidx. unfold collect.
  rewrite fold_keys_order; auto.
Qed.

Lemma collect_entries k v :
  In (k, v) (c_values (collect ids base lookup)) ->
  In k ids /\ v = entryOf (lookup k).
Proof.
  intros Hin.
  assert (Hk : In k ids).
  { apply collect_keys_In. change (In (fst (k, v)) (map fst (c_values (collect ids base lookup)))).
    now apply in_map. }
  split; [exact Hk|].
  pose proof (In_prop_lookup _ _ _ collect_keys_NoDup Hin) as Hl.
  pose proof (collect_get k Hk) as Hg. unfold obj_get in Hg.
  rewrite Hl in Hg. exact Hg.
Qed.

Lemma collect_values_In i :
  In i ids ->
  In (entryOf (lookup i)) (obj_values (c_values (collect ids base lookup))).
Proof.
  intros Hi.
  assert (Hk : In i (obj_keys (c_values (collect ids base lookup))))
    by now apply collect_keys_In.
  destruct (prop_lookup (c_values (collect ids base lookup)) i) as [v|] eqn:Hl.
  - pose proof (collect_get i Hi) as Hg. unfold obj_get in Hg.
    rewrite Hl in Hg. subst v.
    apply prop_lookup_In in Hl.
    change (In (snd (i, entryOf (lookup i)))
               (map snd (c_values (collect ids base lookup)))).
    now apply in_map.
  - apply prop_lookup_None_keys in Hl. contradiction.
Qed.

Lemma collect_base :
  c_hasBaseValue (collect ids base lookup) = isSome (baseFound ids base lookup)
  /\ c_baseValue (collect ids base lookup)
     = match baseFound ids base lookup with
       | Some v => v
       | None => VUndef
       end.
Proof.
  unfold collect.
  destruct (fold_base base lookup ids (mkCollected [] [] false VUndef)) as [H1 H2].
  rewrite H1, H2. simpl. now rewrite orb_false_r.
Qed.

Lemma baseFound_hasBase v :
  baseFound ids base lookup = Some v -> hasBase base = true.
Proof.
  unfold baseFound, hasBase. destruct base as [b|]; [|discriminate].
  destruct (truthy_string b); [reflexivity | discriminate].
Qed.

Lemma collect_ext (lookup' : string -> option value) :
  (forall i, In i ids -> lookup i = lookup' i) ->
  collect ids base lookup = collect ids base lookup'.
Proof.
  intros H. unfold collect. apply fold_left_ext_in.
  intros c i Hi. unfold collectStep. now rewrite (H i Hi).
Qed.

Lemma compareUnit_ext (lookup' : string -> option value) unit :
  (forall i, In i ids -> lookup i = lookup' i) ->
  compareUnit ids base lookup key key_eqb reportPartial sentences unit
  = compareUnit ids base lookup' key key_eqb reportPartial sentences unit.
Proof.
  intros H. unfold compareUnit. now rewrite (collect_ext lookup' H).
Qed.

(** The condition under which a row is pushed. *)
Lemma compareUnit_cases unit :
  let c := collect ids base lookup in
  let cl := classify ids base key key_eqb sentences c in
  compareUnit ids base lookup key key_eqb reportPartial sentences unit
  = if hasDifference ids base key key_eqb c
       || (reportPartial
           && negb (List.length (c_affected c) =? List.length ids)%nat)
    then [mkResult unit (fst cl) (c_values c) (c_affected c) (snd cl)]
    else [].
Proof.
  simpl. unfold compareUnit.
  destruct (classify ids base key key_eqb sentences (collect ids base lookup)).
  reflexivity.
Qed.

Lemma compareUnit_In r unit :
  In r (compareUnit ids base lookup key key_eqb reportPartial sentences unit) ->
  let c := collect ids base lookup in
  path r = unit
  /\ values r = c_values c
  /\ affectedInstances r = c_affected c
  /\ type r = fst (classify ids base key key_eqb sentences c)
  /\ hasDifference ids base key key_eqb c
     || (reportPartial
         && negb (List.length (c_affected c) =? List.length ids)%nat) = true.
Proof.
  rewrite compareUnit_cases. simpl.
  destruct (hasDifference ids base key key_eqb (collect ids base lookup)
            || _); simpl; [|tauto].
  intros [<-|[]]. simpl. auto.
Qed.

Lemma classify_not_unchanged c :
  fst (classify ids base key key_eqb sentences c) <> unchanged.
Proof.
  unfold classify.
  repeat match goal with
         | |- context [if ?b then _ else _] => destruct b
         end; simpl; discriminate.
Qed.

Lemma classify_partial_nobase c :
  hasBase base = false ->
  0 < List.length (missingInstances ids (c_values c)) ->
  0 < List.length (presentInstances ids (c_values c)) ->
  fst (classify ids base key key_eqb sentences c)
  = if (List.length (missingInstances ids (c_values c))
        <? List.length (presentInstances ids (c_values c)))%nat
    then added else deleted.
Proof.
  intros Hb Hm Hp. unfold classify. rewrite Hb.
  apply Nat.ltb_lt in Hm, Hp. rewrite Hm, Hp. simpl.
  now destruct (Nat.ltb (List.length (missingInstances ids (c_values c))) _).
Qed.

Lemma classify_partial_base c :
  hasBase base = true ->
  0 < List.length (missingInstances ids (c_values c)) ->
  0 < List.length (presentInstances ids (c_values c)) ->
  fst (classify ids base key key_eqb sentences c)
  = if is_MISSING (valueOfBase base (c_values c)) then added else deleted.
Proof.
  intros Hb Hm Hp. unfold classify. rewrite Hb.
  apply Nat.ltb_lt in Hm, Hp. rewrite Hm, Hp. simpl.
  now destruct (is_MISSING _).
Qed.

Lemma hasDifference_base c :
  hasBase base && c_hasBaseValue c = true ->
  hasDifference ids base key key_eqb c
  = existsb
      (fun i => negb (isBase base i)
                && ((differs key key_eqb (obj_get (c_values c) i) (c_baseValue c)
                     && negb (is_MISSING (obj_get (c_values c) i)))
                    || is_MISSING (obj_get (c_values c) i)))
      ids.
Proof.
  intros Hb. unfold hasDifference. rewrite Hb.
  rewrite (fold_flag (fun i => negb (isBase base i))
             (fun i => differs key key_eqb (obj_get (c_values c) i) (c_baseValue c)
                       && negb (is_MISSING (obj_get (c_values c) i)))
             (fun i => is_MISSING (obj_get (c_values c) i))).
  reflexivity.
Qed.

Lemma hasDifference_symmetric c :
  hasBase base && c_hasBaseValue c = false ->
  hasDifference ids base key key_eqb c
  = (1 <? List.length (set_of_list key_eqb (map key (obj_values (c_values c)))))%nat.
Proof.
  intros Hb. unfold hasDifference. now rewrite Hb.
Qed.
End Rows.

End RowFacts.

(** ** Facts on the decision and the classification of a unit *)

Module DecisionFacts.
Import JS Engine JSFacts UnitFacts RowFacts.

Lemma is_MISSING_MISSING : is_MISSING MISSING = true.
Proof. reflexivity. Qed.

Lemma isBase_Some b i : isBase (Some b) i = (i =? b).
Proof. reflexivity. Qed.

Section Deciding.
Variable ids : list string.
Variable base : option string.
Variable lookup : string -> option value.
Context {K : Type}.
Variable key : value -> K.
Variable key_eqb : K -> K -> bool.
Variable reportPartial : bool.
Variable sentences : Sentences.

Lemma baseFound_Some b vb :
  base = Some b -> truthy_string b = true -> In b ids -> lookup b = Some vb ->
  baseFound ids base lookup = Some vb.
Proof.
  intros -> Ht Hin Hl. unfold baseFound. rewrite Ht. simpl.
  replace (existsb (String.eqb b) ids) with true; [exact Hl|].
  symmetry. apply existsb_exists. exists b. split; [exact Hin|].
  apply String.eqb_refl.
Qed.

Lemma baseFound_inv vb :
  baseFound ids base lookup = Some vb ->
  exists b, base = Some b /\ truthy_string b = true /\ In b ids
            /\ lookup b = Some vb.
Proof.
  unfold baseFound. destruct base as [b|]; [|discriminate].
  destruct (truthy_string b) eqn:Ht; simpl; [|discriminate].
  destruct (existsb (String.eqb b) ids) eqn:He; [|discriminate].
  intros Hl. exists b. repeat split; auto.
  apply existsb_exists in He. destruct He as (x & Hx & He).
  apply String.eqb_eq in He. now subst.
Qed.

Lemma missing_In i :
  In i ids -> lookup i = None ->
  In i (missingInstances ids (c_values (collect ids base lookup))).
Proof.
  intros Hi Hl. apply filter_In. split; [exact Hi|].
  now rewrite collect_get, Hl.
Qed.

Lemma present_In i v :
  In i ids -> lookup i = Some v -> is_MISSING v = false ->
  In i (presentInstances ids (c_values (collect ids base lookup))).
Proof.
  intros Hi Hl Hv. apply filter_In. split; [exact Hi|].
  rewrite collect_get, Hl by exact Hi. simpl. now rewrite Hv.
Qed.

Lemma In_length_pos {A : Type} (x : A) (l : list A) :
  In x l -> 0 < List.length l.
Proof. destruct l; simpl; [tauto | lia]. Qed.

(** An instance that lacks the unit, under a base that has it: the unit
    differs. *)
Lemma hasDifference_missing_under_base b vb i :
  base = Some b -> truthy_string b = true -> In b ids -> lookup b = Some vb ->
  In i ids -> lookup i = None ->
  hasDifference ids base key key_eqb (collect ids base lookup) = true.
Proof.
  intros Hb Ht Hin Hl Hi Hli.
  pose proof (baseFound_Some b vb Hb Ht Hin Hl) as Hf.
  destruct (collect_base ids base lookup) as [Hhas _].
  rewrite Hf in Hhas. simpl in Hhas.
  rewrite hasDifference_base.
  - apply existsb_exists. exists i. split; [exact Hi|].
    rewrite collect_get, Hli by exact Hi. simpl.
    rewrite orb_true_r, andb_true_r. subst base. rewrite isBase_Some.
    destruct (String.eqb_spec i b) as [->|]; [congruence | reflexivity].
  - rewrite Hhas. subst base. unfold hasBase. now rewrite Ht.
Qed.

Lemma unit_deleted_under_base b vb i unit :
  base = Some b -> truthy_string b = true -> In b ids -> lookup b = Some vb ->
  is_MISSING vb = false ->
  In i ids -> lookup i = None ->
  exists r,
    compareUnit ids base lookup key key_eqb reportPartial sentences unit = [r]
    /\ path r = unit /\ type r = deleted.
Proof.
  intros Hb Ht Hin Hl Hvb Hi Hli.
  rewrite compareUnit_cases. simpl.
  rewrite (hasDifference_missing_under_base b vb i Hb Ht Hin Hl Hi Hli).
  simpl. eexists. split; [reflexivity|]. simpl. split; [reflexivity|].
  rewrite classify_partial_base.
  - subst base. simpl. rewrite collect_get, Hl by exact Hin. simpl.
    now rewrite Hvb.
  - subst base. unfold hasBase. exact Ht.
  - apply (In_length_pos i). now apply missing_In.
  - apply (In_length_pos b). now apply (present_In b vb).
Qed.
End Deciding.

End DecisionFacts.

(** ** Facts on the symmetric decision *)

Module SymmetricFacts.
Import JS Engine JSFacts UnitFacts RowFacts DecisionFacts.

Lemma option_string_eqb_spec (a b : option string) :
  option_string_eqb a b = true <-> a = b.
Proof.
  destruct a as [x|], b as [y|]; simpl; try (split; congruence).
  rewrite String.eqb_eq. split; congruence.
Qed.

Lemma filter_all {A : Type} (f : A -> bool) (l : list A) :
  (forall x, In x l -> f x = true) -> filter f l = l.
Proof.
  induction l as [|a l IH]; intros H; simpl; [reflexivity|].
  rewrite (H a) by now left. f_equal. apply IH. intros x Hx. apply H. now right.
Qed.

Lemma filter_length_all {A : Type} (f : A -> bool) (l : list A) :
  List.length (filter f l) = List.length l ->
  forall x, In x l -> f x = true.
Proof.
  induction l as [|a l IH]; simpl; [tauto|].
  pose proof (filter_length_le f l) as Hle.
  destruct (f a) eqn:Hfa; simpl; intros Hlen x [<-|Hx]; auto; try lia.
Qed.

Section Symmetric.
Variable ids : list string.
Variable base : option string.
Variable lookup : string -> option value.
Context {K : Type}.
Variable key : value -> K.
Variable key_eqb : K -> K -> bool.
Variable reportPartial : bool.
Variable sentences : Sentences.

Hypothesis key_eqb_spec :
  forall i j, In i ids -> In j ids ->
              (key_eqb (keyOf lookup key i) (keyOf lookup key j) = true
               <-> keyOf lookup key i = keyOf lookup key j).

Lemma keys_of_values x :
  In x (map key (obj_values (c_values (collect ids base lookup))))
  <-> exists i, In i ids /\ x = keyOf lookup key i.
Proof.
  unfold obj_values. rewrite in_map_iff. split.
  - intros (v & <- & Hv). apply in_map_iff in Hv.
    destruct Hv as ([k w] & <- & Hkw). simpl.
    apply collect_entries in Hkw. destruct Hkw as [Hk ->]. now exists k.
  - intros (i & Hi & ->). exists (entryOf (lookup i)). split; [reflexivity|].
    now apply collect_values_In.
Qed.

Lemma set_size_spec :
  (1 <? List.length
          (set_of_list key_eqb
             (map key (obj_values (c_values (collect ids base lookup))))))%nat
  = true
  <-> exists i j, In i ids /\ In j ids
                  /\ keyOf lookup key i <> keyOf lookup key j.
Proof.
  rewrite set_of_list_size.
  - split.
    + intros (x & y & Hx & Hy & Hne).
      apply keys_of_values in Hx, Hy.
      destruct Hx as (i & Hi & ->), Hy as (j & Hj & ->). now exists i, j.
    + intros (i & j & Hi & Hj & Hne).
      exists (keyOf lookup key i), (keyOf lookup key j).
      repeat split; [| | exact Hne]; apply keys_of_values; eauto.
  - intros a b Ha Hb. apply keys_of_values in Ha, Hb.
    destruct Ha as (i & Hi & ->), Hb as (j & Hj & ->). now apply key_eqb_spec.
Qed.

(** Every instance has the unit and what is compared is the same
    everywhere: no row. *)
Lemma unit_silent unit :
  hasBase base = false ->
  (forall i, In i ids -> isSome (lookup i) = true) ->
  (forall i j, In i ids -> In j ids ->
               keyOf lookup key i = keyOf lookup key j) ->
  compareUnit ids base lookup key key_eqb reportPartial sentences unit = [].
Proof.
  intros Hb Hall Hsame. rewrite compareUnit_cases. simpl.
  rewrite hasDifference_symmetric by now rewrite Hb.
  rewrite collect_affected, (filter_all _ _ Hall), Nat.eqb_refl. simpl.
  rewrite andb_false_r, orb_false_r.
  destruct (1 <? _)%nat eqn:Hs; [|reflexivity].
  apply set_size_spec in Hs. destruct Hs as (i & j & Hi & Hj & Hne).
  exfalso. apply Hne. now apply Hsame.
Qed.

End Symmetric.

Section TwoInstances.
Variable a b : string.
Variable base : option string.
Variable lookup : string -> option value.
Context {K : Type}.
Variable key : value -> K.
Variable key_eqb : K -> K -> bool.
Variable reportPartial : bool.
Variable sentences : Sentences.
Variable va vb : value.

Hypothesis distinct : a <> b.
Hypothesis value_a : lookup a = Some va.
Hypothesis value_b : lookup b = Some vb.
Hypothesis plain_a : is_MISSING va = false.
Hypothesis plain_b : is_MISSING vb = false.
Hypothesis key_eqb_spec :
  forall x y, (x = va \/ x = vb) -> (y = va \/ y = vb) ->
              (key_eqb (key x) (key y) = true <-> key x = key y).

End TwoInstances.

End SymmetricFacts.

(** ** Facts on the four comparisons *)

Module CompareFacts.
Import JS Engine JSFacts UnitFacts RowFacts.

Lemma existsb_eqb_In (i : string) (ids : list string) :
  existsb (String.eqb i) ids = true <-> In i ids.
Proof.
  rewrite existsb_exists. split.
  - intros (x & Hx & He). apply String.eqb_eq in He. now subst.
  - intros H. exists i. split; [exact H | apply String.eqb_refl].
Qed.

(** The map that a loop over the instances builds with [set]. *)
Lemma fold_map_set_get {S V : Type} (g : string -> V) (h : S -> string -> S)
    (ids : list string) (st : S * list (string * V)) (i : string) :
  map_get (snd (fold_left
                  (fun st id => (h (fst st) id, map_set (snd st) id (g id)))
                  ids st)) i
  = if existsb (String.eqb i) ids then Some (g i) else map_get (snd st) i.
Proof.
  revert st. induction ids as [|a ids IH]; intros st; simpl; [reflexivity|].
  rewrite IH. simpl. rewrite map_get_set.
  destruct (existsb (String.eqb i) ids); [now rewrite orb_true_r|].
  rewrite orb_false_r, (String.eqb_sym a i).
  destruct (String.eqb_spec i a) as [->|]; reflexivity.
Qed.

Lemma featureMaps_get data ids i :
  In i ids ->
  map_get (snd (buildFeatureMaps data ids)) i
  = Some (featureMapOf (or_empty (prop_lookup data i))).
Proof.
  intros Hi. unfold buildFeatureMaps.
  rewrite (fold_map_set_get
             (fun id => featureMapOf (or_empty (prop_lookup data id)))
             (fun names id =>
                fold_left (fun names f => set_add String.eqb names (FeatureName f))
                          (or_empty (prop_lookup data id)) names)).
  apply existsb_eqb_In in Hi. now rewrite Hi.
Qed.

Lemma addItem_fold_snd f items s s' m :
  snd (fold_left (addItem f) items (s, m))
  = snd (fold_left (addItem f) items (s', m)).
Proof.
  revert s s' m. induction items as [|item items IH]; intros s s' m; simpl.
  - reflexivity.
  - unfold addItem at 2 4. simpl.
    destruct (truthy_string (to_String (obj_get item f))); apply IH.
Qed.

Lemma itemMaps_get data ids f i :
  In i ids ->
  map_get (snd (buildItemMaps data ids f)) i
  = Some (itemMapOf f (or_empty (prop_lookup data i))).
Proof.
  intros Hi. unfold buildItemMaps.
  rewrite (fold_left_ext_in _
             (fun st id =>
                (fst (fold_left (addItem f) (or_empty (prop_lookup data id))
                                (fst st, [])),
                 map_set (snd st) id
                         (itemMapOf f (or_empty (prop_lookup data id)))))).
  - rewrite (fold_map_set_get
               (fun id => itemMapOf f (or_empty (prop_lookup data id)))
               (fun s id =>
                  fst (fold_left (addItem f) (or_empty (prop_lookup data id))
                                 (s, [])))).
    apply existsb_eqb_In in Hi. now rewrite Hi.
  - intros st id _. unfold itemMapOf.
    rewrite (addItem_fold_snd f _ [] (fst st) []).
    now destruct (fold_left (addItem f) (or_empty (prop_lookup data id))
                            (fst st, [])).
Qed.

Lemma set_add_In (s : list string) (x u : string) :
  In u (set_add String.eqb s x) <-> In u s \/ u = x.
Proof.
  unfold set_add, set_has.
  destruct (existsb (String.eqb x) s) eqn:He.
  - apply existsb_eqb_In in He. split; [tauto|]. intros [H| ->]; auto.
  - rewrite in_app_iff. simpl. intuition auto.
Qed.

(** An identifier of the union is a key of the map of the instance whose
    array brought it. *)
Lemma addItem_fold_In f items s m u :
  In u (fst (fold_left (addItem f) items (s, m))) ->
  In u s \/ isSome (map_get (snd (fold_left (addItem f) items (s, m))) u) = true.
Proof.
  revert s m. induction items as [|item items IH]; intros s m; simpl.
  - auto.
  - unfold addItem at 2 4. simpl.
    destruct (truthy_string (to_String (obj_get item f))) eqn:Ht.
    + intros H. apply IH in H. destruct H as [H|H]; [|now right].
      apply set_add_In in H. destruct H as [H| ->]; [now left|].
      right. clear IH.
      assert (Hmono : forall its s0 m0,
                 isSome (map_get m0 (to_String (obj_get item f))) = true ->
                 isSome (map_get (snd (fold_left (addItem f) its (s0, m0)))
                                 (to_String (obj_get item f))) = true).
      { induction its as [|it its IHi]; intros s0 m0 Hm0; simpl; [exact Hm0|].
        unfold addItem at 2. simpl.
        destruct (truthy_string (to_String (obj_get it f))); apply IHi;
          [|exact Hm0].
        rewrite map_get_set. now destruct (_ =? _). }
      apply Hmono. rewrite map_get_set, String.eqb_refl. reflexivity.
    + apply IH.
Qed.

Lemma itemIds_In data ids f u :
  In u (fst (buildItemMaps data ids f)) ->
  exists i, In i ids
            /\ isSome (map_get (itemMapOf f (or_empty (prop_lookup data i))) u)
               = true.
Proof.
  unfold buildItemMaps.
  set (L := fun (st : list string * list (string * list (string * object)))
                (instanceId : string) => _).
  assert (Hgen : forall st,
             In u (fst (fold_left L ids st)) ->
             In u (fst st)
             \/ exists i, In i ids
                  /\ isSome (map_get (itemMapOf f (or_empty (prop_lookup data i))) u)
                     = true).
  { induction ids as [|a ids IH]; intros st; simpl; [auto|].
    intros H. apply IH in H. destruct H as [H|(i & Hi & Hs)].
    - subst L. simpl in H.
      destruct (fold_left (addItem f) (or_empty (prop_lookup data a)) (fst st, []))
        as [s' m'] eqn:Hf.
      simpl in H.
      assert (H' : In u (fst (fold_left (addItem f)
                                (or_empty (prop_lookup data a)) (fst st, [])))).
      { now rewrite Hf. }
      apply addItem_fold_In in H'. destruct H' as [H'|H']; [now left|].
      right. exists a. split; [now left|].
      unfold itemMapOf.
      now rewrite (addItem_fold_snd f _ [] (fst st) []).
    - right. exists i. split; [now right | exact Hs]. }
  intros H. apply Hgen in H. destruct H as [[]|H]. exact H.
Qed.

(** A comparison goes through its units and pushes the rows of each. *)
Lemma compare_flat c ids base :
  compare c ids base = flat_map (unitRows c ids base) (units c ids).
Proof.
  destruct c as [data|data|data t|data t]; simpl.
  - unfold compareFeatureToggles.
    pose proof (featureMaps_get data ids) as Hget.
    destruct (buildFeatureMaps data ids) as [names maps]. simpl in *.
    apply flat_map_ext. intros u. apply compareUnit_ext.
    intros i Hi. unfold toggleLookup. now rewrite (Hget i Hi).
  - reflexivity.
  - unfold compareCustomArrayData, identifierOf.
    destruct (identifierField t) as [f|] eqn:Hf; [|reflexivity].
    destruct (truthy_string f) eqn:Htr; simpl; [|reflexivity].
    pose proof (itemMaps_get data ids f) as Hget.
    destruct (buildItemMaps data ids f) as [names maps]. simpl in *.
    apply flat_map_ext. intros u. apply compareUnit_ext.
    intros i Hi. unfold valueAt, itemLookup, identifierOf.
    now rewrite (Hget i Hi), Hf, Htr.
  - reflexivity.
Qed.

Lemma compare_In c ids base r :
  In r (compare c ids base)
  <-> exists u, In u (units c ids) /\ In r (unitRows c ids base u).
Proof. rewrite compare_flat. apply in_flat_map. Qed.

(** What a row of a unit holds, whatever the kind of the comparison. *)
Lemma unitRows_In c ids base u r :
  In r (unitRows c ids base u) ->
  path r = u
  /\ values r = c_values (collect ids base (valueAt c u))
  /\ affectedInstances r = filter (fun i => isSome (valueAt c u i)) ids
  /\ type r <> unchanged.
Proof.
  intros H.
  destruct c as [data|data|data t|data t]; simpl in H;
    apply compareUnit_In in H; simpl in H;
    destruct H as (Hp & Hv & Ha & Ht & _);
    (repeat split; [exact Hp | exact Hv
                   | rewrite Ha; apply collect_affected
                   | rewrite Ht; apply classify_not_unchanged]).
Qed.

Lemma selectData_Some {B : Type} (cast : value -> option B)
    (instanceData : object) (ids : list string) :
  (forall i, In i ids -> truthy (obj_get instanceData i) = true ->
             cast (obj_get instanceData i) <> None) ->
  exists d, selectData cast instanceData ids = Some d.
Proof.
  unfold selectData. generalize (@nil (string * B)).
  induction ids as [|a ids IH]; intros acc H; simpl; [eauto|].
  destruct (truthy (obj_get instanceData a)) eqn:Ht.
  - destruct (cast (obj_get instanceData a)) as [d|] eqn:Hc.
    + apply IH. intros i Hi. apply H. now right.
    + exfalso. apply (H a); auto. now left.
  - apply IH. intros i Hi. apply H. now right.
Qed.

Lemma runComparison_compare state rq rs :
  runComparison state rq = Returns rs ->
  exists c, rs = compare c (rq_instanceIds rq)
                         (baseOrUndefined (baseInstanceId state)).
Proof.
  unfold runComparison, customTypeOf.
  destruct (anyThrows _ _ _); [discriminate|].
  destruct (comparisonType state =? "featureToggle").
  - destruct (selectData _ _ _) as [d|]; [|discriminate].
    intros [= <-]. now exists (ToggleComparison d).
  - destruct (find _ (customTypes state)) as [t|].
    + destruct (match identifierField t with
                | Some f => truthy_string f | None => false end).
      * destruct (selectData _ _ _) as [d|]; [|discriminate].
        intros [= <-]. now exists (ArrayComparison d t).
      * destruct (0 <? List.length (comparisonFields t))%nat.
        -- destruct (selectData _ _ _) as [d|]; [|discriminate].
           intros [= <-]. now exists (ObjectComparison d t).
        -- destruct (selectData _ _ _) as [d|]; [|discriminate].
           intros [= <-]. now exists (GenericComparison d).
    + destruct (selectData _ _ _) as [d|]; [|discriminate].
      intros [= <-]. now exists (GenericComparison d).
Qed.

Lemma traverseOption_all {A B : Type} (f : A -> option B) (l : list A) :
  traverseOption f l <> None -> forall x, In x l -> f x <> None.
Proof.
  induction l as [|a l IH]; simpl; [tauto|].
  intros H x [<-|Hx].
  - destruct (f a); [discriminate | exfalso; now apply H].
  - apply IH; [|exact Hx].
    destruct (f a); [|exfalso; now apply H].
    destruct (traverseOption f l); [discriminate | exfalso; now apply H].
Qed.

(** A payload that reads as an array of feature toggles is walked
    without a throw. *)
Lemma toggles_walked (v : value) :
  asArrayOf asFeatureToggle v <> None -> featuresThrow v = false.
Proof.
  destruct v as [| |b|n|s|l|o]; simpl; try (intros H; now exfalso).
  intros H. destruct (existsb nullish l) eqn:He; [|reflexivity].
  apply existsb_exists in He. destruct He as (x & Hx & Hn).
  pose proof (traverseOption_all _ _ H x Hx) as Hc.
  destruct x; simpl in Hn; try discriminate; simpl in Hc; now exfalso.
Qed.

Lemma anyThrows_false (throws : value -> bool) (data : object)
    (ids : list string) :
  (forall i, In i ids -> truthy (obj_get data i) = true ->
             throws (obj_get data i) = false) ->
  anyThrows throws data ids = false.
Proof.
  intros H. unfold anyThrows.
  destruct (existsb _ ids) eqn:He; [|reflexivity].
  apply existsb_exists in He. destruct He as (i & Hi & Hb).
  apply andb_true_iff in Hb. destruct Hb as [Ht Hth].
  now rewrite (H i Hi Ht) in Hth.
Qed.

Lemma anyThrows_true (throws : value -> bool) (data : object)
    (ids : list string) (i : string) :
  In i ids -> truthy (obj_get data i) = true ->
  throws (obj_get data i) = true ->
  anyThrows throws data ids = true.
Proof.
  intros Hi Ht Hth. apply existsb_exists. exists i.
  split; [exact Hi|]. now rewrite Ht, Hth.
Qed.

(** No payload of a request of the asserted shape makes the comparison
    throw. *)
Lemma wellShaped_walked state rq :
  wellShaped state rq ->
  anyThrows (throwsOn state) (rq_instanceData rq) (rq_instanceIds rq) = false.
Proof.
  unfold wellShaped, throwsOn, identifierOf. intros H.
  apply anyThrows_false. intros i Hi Ht.
  destruct (comparisonType state =? "featureToggle").
  - apply toggles_walked. now apply H.
  - destruct (customTypeOf state) as [t|]; [|reflexivity].
    destruct (identifierField t) as [f|]; [|reflexivity].
    destruct (truthy_string f); [|reflexivity].
    now apply H.
Qed.

Lemma runComparison_Returns state rq :
  wellShaped state rq -> exists rs, runComparison state rq = Returns rs.
Proof.
  intros Hshape. pose proof (wellShaped_walked state rq Hshape) as Hwalk.
  revert Hshape.
  unfold wellShaped, runComparison, identifierOf. rewrite Hwalk.
  assert (Hany : forall i, In i (rq_instanceIds rq) ->
                   truthy (obj_get (rq_instanceData rq) i) = true ->
                   Some (obj_get (rq_instanceData rq) i) <> None)
    by (intros; discriminate).
  destruct (comparisonType state =? "featureToggle").
  - intros H. destruct (selectData_Some _ _ _ H) as [d ->]. eauto.
  - destruct (customTypeOf state) as [t|].
    + destruct (identifierField t) as [f|].
      * destruct (truthy_string f).
        -- intros H.
           assert (H' : forall i, In i (rq_instanceIds rq) ->
                          truthy (obj_get (rq_instanceData rq) i) = true ->
                          asArrayOf asRecord (obj_get (rq_instanceData rq) i)
                          <> None)
             by (intros i Hi Ht; now apply H).
           destruct (selectData_Some _ _ _ H') as [d ->]. eauto.
        -- intros _. destruct (selectData_Some Some _ _ Hany) as [d ->].
           destruct (0 <? _)%nat; eauto.
      * intros _. destruct (selectData_Some Some _ _ Hany) as [d ->].
        destruct (0 <? _)%nat; eauto.
    + intros _. destruct (selectData_Some Some _ _ Hany) as [d ->]. eauto.
Qed.

Lemma runComparison_Throws state rq i :
  In i (rq_instanceIds rq) ->
  truthy (obj_get (rq_instanceData rq) i) = true ->
  throwsOn state (obj_get (rq_instanceData rq) i) = true ->
  runComparison state rq = Throws.
Proof.
  intros Hi Ht Hth. unfold runComparison.
  now rewrite (anyThrows_true _ _ _ i Hi Ht Hth).
Qed.

End CompareFacts.

(** ** Facts on the values of the units *)

Module ValueFacts.
Import JS Engine JSFacts UnitFacts RowFacts DecisionFacts SymmetricFacts
       CompareFacts.

Lemma toggle_value data u i v :
  valueAt (ToggleComparison data) u i = Some v -> exists b, v = VBool b.
Proof.
  simpl. destruct (map_get _ u) as [f|]; [|discriminate].
  intros [= <-]. eauto.
Qed.

Lemma stringify_VBool_inj x y :
  stringify (VBool x) = stringify (VBool y) -> x = y.
Proof. destruct x, y; simpl; congruence. Qed.

Lemma strict_eq_VBool x y :
  strict_eq (VBool x) (VBool y) = true <-> VBool x = VBool y.
Proof.
  simpl. rewrite Bool.eqb_true_iff. split; congruence.
Qed.


Lemma filter_length_neq {A : Type} (f : A -> bool) (l : list A) :
  List.length (filter f l) <> List.length l ->
  exists x, In x l /\ f x = false.
Proof.
  induction l as [|a l IH]; simpl; [congruence|].
  destruct (f a) eqn:Hfa; simpl.
  - intros H. destruct IH as (x & Hx & Hf); [lia|]. exists x. auto.
  - intros _. exists a. auto.
Qed.

(** The rows whose path is a unit are the rows pushed for that unit. *)
Lemma rows_of_unit c ids base u :
  In u (units c ids) ->
  (exists r, In r (compare c ids base) /\ path r = u)
  <-> unitRows c ids base u <> [].
Proof.
  intros Hu. split.
  - intros (r & Hr & Hp). apply compare_In in Hr.
    destruct Hr as (u' & _ & Hr).
    assert (u' = u).
    { apply unitRows_In in Hr. destruct Hr as (Hpu & _). congruence. }
    subst u'. intros E. rewrite E in Hr. contradiction.
  - intros Hne. destruct (unitRows c ids base u) as [|r rest] eqn:Hrows;
      [contradiction|].
    exists r. split.
    + apply compare_In. exists u. split; [exact Hu|]. rewrite Hrows. now left.
    + assert (Hr : In r (unitRows c ids base u)) by (rewrite Hrows; now left).
      now apply unitRows_In in Hr.
Qed.

Lemma rows_of_other_unit c ids base u r :
  In r (compare c ids base) -> path r = u -> In r (unitRows c ids base u).
Proof.
  intros Hr Hp. apply compare_In in Hr. destruct Hr as (u' & _ & Hr).
  assert (u' = u).
  { apply unitRows_In in Hr. destruct Hr as (Hpu & _). congruence. }
  now subst u'.
Qed.

End ValueFacts.

(** ** Facts on the identity maps *)

Module IdentityFacts.
Import JS Engine JSFacts UnitFacts RowFacts CompareFacts.

Lemma string_of_Z_nonempty (n : Z) : truthy_string (string_of_Z n) = true.
Proof.
  unfold string_of_Z, NilZero.string_of_int.
  destruct (Z.to_int n) as [d|d]; [|reflexivity].
  destruct d; reflexivity.
Qed.

Lemma truthy_string_nonempty (s : string) :
  truthy_string s = true -> (s =? "") = false.
Proof. unfold truthy_string. now destruct (s =? ""). Qed.

Lemma addItem_kept f st item :
  truthy_string (to_String (obj_get item f)) = true ->
  In (to_String (obj_get item f)) (fst (addItem f st item))
  /\ map_get (snd (addItem f st item)) (to_String (obj_get item f)) = Some item.
Proof.
  intros Ht. unfold addItem. rewrite Ht. simpl. split.
  - apply set_add_In. now right.
  - now rewrite map_get_set, String.eqb_refl.
Qed.

Lemma addItem_fold_empty f items s m :
  map_get m "" = None ->
  map_get (snd (fold_left (addItem f) items (s, m))) "" = None.
Proof.
  revert s m. induction items as [|item items IH]; intros s m Hm; simpl.
  - exact Hm.
  - unfold addItem at 2. simpl.
    destruct (truthy_string (to_String (obj_get item f))) eqn:Ht.
    + apply IH. rewrite map_get_set.
      now rewrite (truthy_string_nonempty _ Ht).
    + now apply IH.
Qed.

Lemma itemMapOf_empty f items : map_get (itemMapOf f items) "" = None.
Proof. unfold itemMapOf. now apply addItem_fold_empty. Qed.

End IdentityFacts.

(** ** The worked scenarios of the specification *)

Module Scenarios.
Import JS Engine Samples.

(** Two objects that differ at [y], no base: one row, of type [edited]. *)
Example scenario_generic_no_base :
  map rowView (compareGenericData editedData ["p"; "q"] None)
  = [("y", edited, [("p", VNum 2); ("q", VNum 3)], ["p"; "q"])].
Proof. reflexivity. Qed.

(** The same objects under the base [p]: the same row. *)
Example scenario_generic_with_base :
  map rowView (compareGenericData editedData ["p"; "q"] (Some "p"))
  = [("y", edited, [("p", VNum 2); ("q", VNum 3)], ["p"; "q"])].
Proof. reflexivity. Qed.

(** [{x: 1}] and [{}], no base: one missing, one present, the tie is
    [deleted]. *)
Example scenario_partial_presence :
  map rowView (compareGenericData partialData ["p"; "q"] None)
  = [("x", deleted, [("p", VNum 1); ("q", MISSING)], ["p"])].
Proof. reflexivity. Qed.

(** Arrays of records identified by [id] and compared on [v]. *)
Example scenario_array_by_identifier :
  map rowView (compareCustomArrayData flagsData ["p"; "q"] arrayType None)
  = [("f1", edited,
      [("p", VObj [("v", VBool true)]); ("q", VObj [("v", VBool false)])],
      ["p"; "q"]);
     ("f2", deleted,
      [("p", MISSING); ("q", VObj [("v", VBool true)])], ["q"])].
Proof. reflexivity. Qed.

(** Feature toggles under the base [q]: [dark] agrees and gets no row,
    [beta] is missing from [p]. *)
Example scenario_feature_toggles :
  map rowView (compareFeatureToggles togglesData ["p"; "q"] (Some "q"))
  = [("beta", deleted, [("p", MISSING); ("q", VBool false)], ["q"])].
Proof. reflexivity. Qed.

(** The text of a row, and the text that [JSON.stringify] gives. *)
Example scenario_description :
  map description (compareGenericData partialData ["p"; "q"] None)
  = ["Setting at " ++ dquote ++ "x" ++ dquote
     ++ " deleted in 1 instance(s), present in 1"]%string.
Proof. reflexivity. Qed.

Example scenario_stringify :
  stringify (VObj [("a", VNum 1); ("b", VArr [VStr "x"; VNull]); ("c", VUndef)])
  = Some ("{" ++ quote "a" ++ ":1," ++ quote "b" ++ ":[" ++ quote "x"
          ++ ",null]}")%string.
Proof. reflexivity. Qed.

(** The comparison of feature toggles throws on a payload that is an
    object and not an array. *)
Example scenario_cast :
  runComparison
    (mkState [] None [] None "" "" "featureToggle" [] [] false None)
    nestedRequest
  = Throws.
Proof. reflexivity. Qed.

End Scenarios.

(** ** The summary and the session list *)

Module SessionFacts.
Import JS Engine JSFacts UnitFacts RowFacts CompareFacts.

Lemma count_partition (rs : list ComparisonResult) :
  Forall (fun r => type r <> unchanged) rs ->
  List.length rs
  = countType added rs + countType deleted rs + countType edited rs.
Proof.
  unfold countType. induction 1 as [|r rs Hr _ IH]; simpl; [reflexivity|].
  destruct (type r); simpl; try lia. contradiction.
Qed.

Lemma compare_not_unchanged c ids base :
  Forall (fun r => type r <> unchanged) (compare c ids base).
Proof.
  apply Forall_forall. intros r Hr.
  apply compare_In in Hr. destruct Hr as (u & _ & Hr).
  now apply unitRows_In in Hr.
Qed.

End SessionFacts.

(** * The claims *)

Import JS Engine JSFacts UnitFacts RowFacts DecisionFacts SymmetricFacts
       CompareFacts ValueFacts IdentityFacts SessionFacts.

(** C1. Every session that [createComparisonSession] records, whatever the
    comparison type, the instances and the base instance, has a summary
    whose total is the sum of its three counts; each count is the number
    of rows of that type, and no row has the type [unchanged]. *)
Theorem summary_invariant
    (now isoNow : string) (state : ComparisonState) (rq : SessionRequest)
    (state' : ComparisonState) (effects : list Effect) :
  2 <= List.length (rq_instanceIds rq) ->
  createComparisonSession now isoNow state rq = Returns (state', effects) ->
  exists session,
    sessions state' = sessions state ++ [session]
    /\ totalDifferences (summary session)
       = sum_added (summary session) + sum_deleted (summary session)
         + sum_edited (summary session)
    /\ sum_added (summary session)
       = List.length (filter (fun r => DiffType_eqb (type r) added)
                             (results session))
    /\ sum_deleted (summary session)
       = List.length (filter (fun r => DiffType_eqb (type r) deleted)
                             (results session))
    /\ sum_edited (summary session)
       = List.length (filter (fun r => DiffType_eqb (type r) edited)
                             (results session))
    /\ Forall (fun r => type r <> unchanged) (results session).
Proof.
  intros Hlen Hrun. unfold createComparisonSession in Hrun.
  apply Nat.ltb_ge in Hlen. rewrite Hlen in Hrun.
  destruct (runComparison state rq) as [rs| |] eqn:Hrs; try discriminate.
  injection Hrun as <- _.
  destruct (runComparison_compare _ _ _ Hrs) as [c ->].
  eexists. split; [reflexivity|]. simpl.
  pose proof (compare_not_unchanged c (rq_instanceIds rq)
                (baseOrUndefined (baseInstanceId state))) as Hty.
  repeat split; try reflexivity; [|exact Hty].
  now apply count_partition.
Qed.

Lemma summary_invariant_witness :
  2 <= List.length (rq_instanceIds Samples.nestedRequest)
  /\ exists session,
       sessions (fst (Samples.outcomeOf Samples.emptyState Samples.nestedRequest))
       = sessions Samples.emptyState ++ [session]
       /\ totalDifferences (summary session)
          = sum_added (summary session) + sum_deleted (summary session)
            + sum_edited (summary session)
       /\ sum_added (summary session)
          = List.length (filter (fun r => DiffType_eqb (type r) added)
                                (results session))
       /\ sum_deleted (summary session)
          = List.length (filter (fun r => DiffType_eqb (type r) deleted)
                                (results session))
       /\ sum_edited (summary session)
          = List.length (filter (fun r => DiffType_eqb (type r) edited)
                                (results session))
       /\ Forall (fun r => type r <> unchanged) (results session).
Proof.
  split; [simpl; lia|].
  apply (summary_invariant "1700000000000" "2023-11-14T22:13:20.000Z"
           Samples.emptyState Samples.nestedRequest
           (fst (Samples.outcomeOf Samples.emptyState Samples.nestedRequest))
           (snd (Samples.outcomeOf Samples.emptyState Samples.nestedRequest)));
    [simpl; lia | reflexivity].
Defined.

(** C6, as the code has it.  With fewer than two instance ids the
    reducer only reports the error: the error of the store is the
    message, no session is made, nothing is saved, and the session list
    and the active session are as before.  With two or more, and
    payloads of the shape of the comparison type, one session is appended
    to the list and becomes the active one.  With two or more, and a
    truthy payload on which the comparison throws, the reducer throws:
    the store keeps its state. *)
Theorem minimum_instance_guard
    (now isoNow : string) (state : ComparisonState) (rq : SessionRequest) :
  (List.length (rq_instanceIds rq) < 2 ->
   let rejected :=
     setError state (Some "At least 2 instances are required for comparison") in
   createComparisonSession now isoNow state rq = Returns (rejected, [])
   /\ error rejected
      = Some "At least 2 instances are required for comparison"
   /\ sessions rejected = sessions state
   /\ activeSessionId rejected = activeSessionId state)
  /\ (2 <= List.length (rq_instanceIds rq) -> wellShaped state rq ->
      exists state' session,
        createComparisonSession now isoNow state rq
        = Returns (state', [SaveSessions (sessions state')])
        /\ sessions state' = sessions state ++ [session]
        /\ activeSessionId state' = Some (id session)
        /\ id session = now
        /\ instanceIds session = rq_instanceIds rq
        /\ error state' = error state)
  /\ (2 <= List.length (rq_instanceIds rq) ->
      forall i,
        In i (rq_instanceIds rq) ->
        truthy (obj_get (rq_instanceData rq) i) = true ->
        throwsOn state (obj_get (rq_instanceData rq) i) = true ->
        createComparisonSession now isoNow state rq = Throws).
Proof.
  split; [|split].
  - intros Hlen. apply Nat.ltb_lt in Hlen.
    unfold createComparisonSession. rewrite Hlen. simpl. auto.
  - intros Hlen Hshape. apply Nat.ltb_ge in Hlen.
    unfold createComparisonSession. rewrite Hlen.
    destruct (runComparison_Returns state rq Hshape) as [rs ->].
    do 2 eexists. split; [reflexivity|]. simpl. auto.
  - intros Hlen i Hi Ht Hth. apply Nat.ltb_ge in Hlen.
    unfold createComparisonSession. rewrite Hlen.
    now rewrite (runComparison_Throws state rq i Hi Ht Hth).
Qed.

Lemma minimum_instance_guard_witness :
  (List.length (rq_instanceIds Samples.singleRequest) < 2
   /\ let rejected :=
        setError Samples.emptyState
          (Some "At least 2 instances are required for comparison") in
      createComparisonSession "1700000000000" "2023-11-14T22:13:20.000Z"
        Samples.emptyState Samples.singleRequest = Returns (rejected, [])
      /\ error rejected
         = Some "At least 2 instances are required for comparison"
      /\ sessions rejected = sessions Samples.emptyState
      /\ activeSessionId rejected = activeSessionId Samples.emptyState)
  /\ (2 <= List.length (rq_instanceIds Samples.nestedRequest)
      /\ wellShaped Samples.emptyState Samples.nestedRequest
      /\ exists state' session,
          createComparisonSession "1700000000000" "2023-11-14T22:13:20.000Z"
            Samples.emptyState Samples.nestedRequest
          = Returns (state', [SaveSessions (sessions state')])
          /\ sessions state' = sessions Samples.emptyState ++ [session]
          /\ activeSessionId state' = Some (id session)
          /\ id session = "1700000000000"
          /\ instanceIds session = rq_instanceIds Samples.nestedRequest
          /\ error state' = error Samples.emptyState)
  /\ (2 <= List.length (rq_instanceIds Samples.nestedRequest)
      /\ In "p" (rq_instanceIds Samples.nestedRequest)
      /\ truthy (obj_get (rq_instanceData Samples.nestedRequest) "p") = true
      /\ throwsOn Samples.toggleState
                  (obj_get (rq_instanceData Samples.nestedRequest) "p") = true
      /\ createComparisonSession "1700000000000" "2023-11-14T22:13:20.000Z"
           Samples.toggleState Samples.nestedRequest = Throws).
Proof.
  split; [|split].
  - split; [simpl; lia|].
    apply (proj1 (minimum_instance_guard "1700000000000"
                    "2023-11-14T22:13:20.000Z"
                    Samples.emptyState Samples.singleRequest)).
    simpl; lia.
  - split; [simpl; lia|]. split; [exact I|].
    apply (proj1 (proj2 (minimum_instance_guard "1700000000000"
                           "2023-11-14T22:13:20.000Z"
                           Samples.emptyState Samples.nestedRequest)));
      [simpl; lia | exact I].
  - assert (Hin : In "p" (rq_instanceIds Samples.nestedRequest))
      by (simpl; auto).
    split; [simpl; lia|]. split; [exact Hin|].
    split; [reflexivity|]. split; [reflexivity|].
    apply (proj2 (proj2 (minimum_instance_guard "1700000000000"
                           "2023-11-14T22:13:20.000Z"
                           Samples.toggleState Samples.nestedRequest))
             ltac:(simpl; lia) "p" Hin eq_refl eq_refl).
Defined.

(** C6 fails as stated: in the comparison of feature toggles, with the
    two instance ids [p] and [q] whose payloads are the objects
    [{a: {x: 1}}] and [{a: {x: 2}}], the reducer throws; no session is
    appended and none becomes active. *)
Lemma object_payload_counterexample :
  2 <= List.length (rq_instanceIds Samples.nestedRequest)
  /\ createComparisonSession "1700000000000" "2023-11-14T22:13:20.000Z"
       Samples.toggleState Samples.nestedRequest
     = Throws
  /\ ~ (exists state' effects,
          createComparisonSession "1700000000000" "2023-11-14T22:13:20.000Z"
            Samples.toggleState Samples.nestedRequest
          = Returns (state', effects)).
Proof.
  split; [simpl; lia|]. split; [reflexivity|].
  intros (state' & effects & H). discriminate H.
Qed.

(** C10. In the comparison of objects every path to a nested object is a
    unit of its own: for [{a: {x: 1}}] and [{a: {x: 2}}], which differ at
    the one leaf [a.x], a row is pushed for [a.x] and one for its ancestor
    [a], so that the total of the summary exceeds the number of differing
    leaves. *)
Theorem nested_leaf_reports_ancestors :
  exists (d1 d2 : value) (ids : list string),
    let rs := compareGenericData [("p", d1); ("q", d2)] ids None in
    List.length ids = 2
    /\ differingLeaves d1 d2 = ["a.x"]
    /\ map path rs = ["a"; "a.x"]
    /\ Forall (fun r => type r = edited) rs
    /\ totalDifferences (summarize rs) = 2
    /\ List.length (differingLeaves d1 d2) < totalDifferences (summarize rs).
Proof.
  exists Samples.nestedLeft, Samples.nestedRight, ["p"; "q"].
  vm_compute. repeat split; try reflexivity; try lia.
  repeat constructor.
Qed.

(** C5. Without a base instance, a row whose unit is missing from some
    instances and present in others has the type [added] exactly when the
    missing instances are fewer than the present ones, and the type
    [deleted] otherwise; in a tie the type is [deleted]. *)
Theorem partial_presence_type
    (c : Comparison) (ids : list string) (base : option string)
    (r : ComparisonResult) :
  hasBase base = false ->
  In r (compare c ids base) ->
  0 < List.length (missingInstances ids (values r)) ->
  0 < List.length (presentInstances ids (values r)) ->
  (type r = added
   <-> List.length (missingInstances ids (values r))
       < List.length (presentInstances ids (values r)))
  /\ (type r = deleted
      <-> List.length (presentInstances ids (values r))
          <= List.length (missingInstances ids (values r)))
  /\ (List.length (missingInstances ids (values r))
      = List.length (presentInstances ids (values r)) -> type r = deleted).
Proof.
  intros Hb Hr Hm Hp.
  apply compare_In in Hr. destruct Hr as (u & _ & Hr).
  assert (Hty : type r
                = if (List.length (missingInstances ids (values r))
                      <? List.length (presentInstances ids (values r)))%nat
                  then added else deleted).
  { destruct c as [data|data|data t|data t]; simpl in Hr;
      apply compareUnit_In in Hr; simpl in Hr;
      destruct Hr as (_ & Hv & _ & Ht & _);
      rewrite Hv in *; rewrite Ht;
      now apply classify_partial_nobase. }
  rewrite Hty.
  destruct (Nat.ltb_spec (List.length (missingInstances ids (values r)))
                         (List.length (presentInstances ids (values r))))
    as [Hlt|Hge].
  - repeat split; intros; try discriminate; try lia; auto.
  - repeat split; intros; try discriminate; try lia; auto.
Qed.

Lemma partial_presence_type_witness :
  let ids := ["p"; "q"] in
  let r := nth 0 (compareGenericData Samples.partialData ids None)
               (mkResult "" unchanged [] [] "") in
  hasBase None = false
  /\ In r (compare (GenericComparison Samples.partialData) ids None)
  /\ 0 < List.length (missingInstances ids (values r))
  /\ 0 < List.length (presentInstances ids (values r))
  /\ ((type r = added
       <-> List.length (missingInstances ids (values r))
           < List.length (presentInstances ids (values r)))
      /\ (type r = deleted
          <-> List.length (presentInstances ids (values r))
              <= List.length (missingInstances ids (values r)))
      /\ (List.length (missingInstances ids (values r))
          = List.length (presentInstances ids (values r)) -> type r = deleted)).
Proof.
  assert (Hin : In (nth 0 (compareGenericData Samples.partialData ["p"; "q"] None)
                        (mkResult "" unchanged [] [] ""))
                   (compare (GenericComparison Samples.partialData)
                            ["p"; "q"] None)).
  { vm_compute. left. reflexivity. }
  split; [reflexivity|]. split; [exact Hin|].
  split; [vm_compute; lia|]. split; [vm_compute; lia|].
  apply (partial_presence_type (GenericComparison Samples.partialData)
           ["p"; "q"] None _ eq_refl Hin); vm_compute; lia.
Defined.

(** C3, as the code has it.  Under a base instance whose value for the
    unit is present and is not the text of the sentinel, a unit that some
    other instance lacks gets a row, and every row of the unit has the
    type [deleted].  The unit is one that the comparison reads by own
    properties: under a name that an object inherits, an instance that
    lacks the unit has the inherited member for its value.  The
    identifiers of the records have a text: the comparison does not
    throw. *)
Theorem missing_under_base_is_deleted
    (c : Comparison) (ids : list string) (b : string) (vb : value)
    (i unit : string) :
  readsOwn c unit = true ->
  identifiersConvert c ids = true ->
  truthy_string b = true ->
  In b ids -> valueAt c unit b = Some vb -> is_MISSING vb = false ->
  In i ids -> i <> b -> valueAt c unit i = None ->
  In unit (units c ids) ->
  (exists r, In r (compare c ids (Some b)) /\ path r = unit)
  /\ (forall r, In r (compare c ids (Some b)) -> path r = unit ->
                type r = deleted).
Proof.
  intros _ _ Ht Hb Hvb Hnm Hi _ Hvi Hu.
  assert (Hrow : exists r, unitRows c ids (Some b) unit = [r]
                           /\ path r = unit /\ type r = deleted).
  { destruct c as [data|data|data t|data t]; simpl;
      apply (unit_deleted_under_base ids (Some b) _ _ _ _ _ b vb i);
      auto. }
  destruct Hrow as (r & Hrows & Hp & Hty). split.
  - exists r. split; [|exact Hp]. apply compare_In. exists unit.
    split; [exact Hu|]. rewrite Hrows. now left.
  - intros r' Hr' Hp'. apply compare_In in Hr'.
    destruct Hr' as (u' & _ & Hr').
    assert (u' = unit).
    { apply unitRows_In in Hr'. destruct Hr' as (Hpu & _). congruence. }
    subst u'. rewrite Hrows in Hr'. destruct Hr' as [<-|[]]. exact Hty.
Qed.

Lemma missing_under_base_is_deleted_witness :
  let c := GenericComparison Samples.partialData in
  readsOwn c "x" = true
  /\ identifiersConvert c ["p"; "q"] = true
  /\ truthy_string "p" = true
  /\ In "p" ["p"; "q"] /\ valueAt c "x" "p" = Some (VNum 1)
  /\ is_MISSING (VNum 1) = false
  /\ In "q" ["p"; "q"] /\ "q" <> "p" /\ valueAt c "x" "q" = None
  /\ In "x" (units c ["p"; "q"])
  /\ ((exists r, In r (compare c ["p"; "q"] (Some "p")) /\ path r = "x")
      /\ (forall r, In r (compare c ["p"; "q"] (Some "p")) -> path r = "x" ->
                    type r = deleted)).
Proof.
  assert (H1 : In "p" ["p"; "q"]) by (simpl; auto).
  assert (H2 : In "q" ["p"; "q"]) by (simpl; auto).
  assert (H3 : "q" <> "p") by discriminate.
  assert (H4 : In "x" (units (GenericComparison Samples.partialData) ["p"; "q"]))
    by (vm_compute; auto).
  repeat (split; [first [reflexivity | assumption]|]).
  apply (missing_under_base_is_deleted
           (GenericComparison Samples.partialData) ["p"; "q"] "p" (VNum 1)
           "q" "x" eq_refl eq_refl eq_refl H1 eq_refl eq_refl H2 H3 eq_refl
           H4).
Defined.

(** C3 fails as stated: the base [p] has the present value ["MISSING"] for
    the path [x], the instance [q] lacks the path, and the row of [x] has
    the type [edited]. *)
Lemma missing_under_base_sentinel_counterexample :
  let c := GenericComparison Samples.sentinelBaseData in
  hasBase (Some "p") = true
  /\ valueAt c "x" "p" = Some (VStr "MISSING")
  /\ valueAt c "x" "q" = None
  /\ In "x" (units c ["p"; "q"])
  /\ map (fun r => (path r, type r)) (compare c ["p"; "q"] (Some "p"))
     = [("x", edited)].
Proof. vm_compute. auto 10. Qed.

(** C4, as the code has it.  Without a base instance, a unit that every
    instance has, with one and the same [JSON.stringify] text, gets no
    row, in whatever order the instances are listed. *)
Theorem identical_values_no_row
    (c : Comparison) (ids ids' : list string) (base : option string)
    (unit text : string) :
  hasBase base = false ->
  Permutation ids ids' ->
  (forall i, In i ids ->
             exists v, valueAt c unit i = Some v /\ stringify v = Some text) ->
  forall r, In r (compare c ids' base) -> path r <> unit.
Proof.
  intros Hb Hperm Hall r Hr Hp.
  assert (Hall' : forall i, In i ids' ->
                    exists v, valueAt c unit i = Some v
                              /\ stringify v = Some text).
  { intros i Hi. apply Hall. apply (Permutation_in _ (Permutation_sym Hperm) Hi). }
  apply (rows_of_other_unit c ids' base unit r Hr) in Hp.
  assert (Hsome : forall i, In i ids' -> isSome (valueAt c unit i) = true).
  { intros i Hi. destruct (Hall' i Hi) as (v & -> & _). reflexivity. }
  assert (Hnone : unitRows c ids' base unit = []).
  { destruct c as [data|data|data t|data t]; simpl.
    - apply unit_silent; auto.
      + intros i j Hi Hj. unfold keyOf.
        destruct (Hall' i Hi) as (vi & Hvi & Hsi).
        destruct (Hall' j Hj) as (vj & Hvj & Hsj).
        rewrite Hvi, Hvj. simpl.
        destruct (toggle_value _ _ _ _ Hvi) as [x ->].
        destruct (toggle_value _ _ _ _ Hvj) as [y ->].
        apply strict_eq_VBool.
      + intros i j Hi Hj. unfold keyOf.
        destruct (Hall' i Hi) as (vi & Hvi & Hsi).
        destruct (Hall' j Hj) as (vj & Hvj & Hsj).
        rewrite Hvi, Hvj. simpl.
        destruct (toggle_value _ _ _ _ Hvi) as [x ->].
        destruct (toggle_value _ _ _ _ Hvj) as [y ->].
        f_equal. apply stringify_VBool_inj. congruence.
    - apply unit_silent; auto.
      + intros i j _ _. apply option_string_eqb_spec.
      + intros i j Hi Hj. unfold keyOf, key_stringify.
        destruct (Hall' i Hi) as (vi & -> & Hsi).
        destruct (Hall' j Hj) as (vj & -> & Hsj). simpl. congruence.
    - apply unit_silent; auto.
      + intros i j _ _. apply option_string_eqb_spec.
      + intros i j Hi Hj. unfold keyOf, key_stringify.
        destruct (Hall' i Hi) as (vi & -> & Hsi).
        destruct (Hall' j Hj) as (vj & -> & Hsj). simpl. congruence.
    - apply unit_silent; auto.
      + intros i j _ _. apply option_string_eqb_spec.
      + intros i j Hi Hj. unfold keyOf, key_stringify.
        destruct (Hall' i Hi) as (vi & -> & Hsi).
        destruct (Hall' j Hj) as (vj & -> & Hsj). simpl. congruence. }
  rewrite Hnone in Hp. contradiction.
Qed.

Lemma identical_values_no_row_witness :
  let c := GenericComparison Samples.sameData in
  hasBase None = false
  /\ Permutation ["p"; "q"] ["q"; "p"]
  /\ (forall i, In i ["p"; "q"] ->
                exists v, valueAt c "x" i = Some v /\ stringify v = Some "1")
  /\ (forall r, In r (compare c ["q"; "p"] None) -> path r <> "x").
Proof.
  assert (Hall : forall i, In i ["p"; "q"] ->
                   exists v, valueAt (GenericComparison Samples.sameData) "x" i
                             = Some v
                             /\ stringify v = Some "1").
  { intros i [<-|[<-|[]]]; exists (VNum 1); split; reflexivity. }
  split; [reflexivity|]. split; [apply perm_swap|]. split; [exact Hall|].
  apply (identical_values_no_row (GenericComparison Samples.sameData)
           ["p"; "q"] ["q"; "p"] None "x" "1" eq_refl
           (perm_swap "q" "p" []) Hall).
Defined.

(** C4 fails as stated.  In the first run only [p] has the path [x], so
    that all the present values have the same text, and a row is pushed
    for [x].  In the second run both instances have the path [k], their
    values are the same up to the order of the keys, and a row is pushed
    for [k]. *)
Lemma identical_present_values_counterexample :
  let c := GenericComparison Samples.partialData in
  let ids := ["p"; "q"] in
  (2 <= List.length ids
   /\ (forall i j vi vj,
         In i ids -> In j ids ->
         valueAt c "x" i = Some vi -> valueAt c "x" j = Some vj ->
         stringify vi = stringify vj)
   /\ map (fun r => (path r, type r)) (compare c ids None) = [("x", deleted)])
  /\ (sameUpToKeyOrder Samples.keysAB Samples.keysBA
      /\ valueAt (GenericComparison Samples.keyOrderData) "k" "p"
         = Some Samples.keysAB
      /\ valueAt (GenericComparison Samples.keyOrderData) "k" "q"
         = Some Samples.keysBA
      /\ map (fun r => (path r, type r))
             (compare (GenericComparison Samples.keyOrderData) ids None)
         = [("k", edited)]).
Proof.
  split.
  - split; [simpl; lia|]. split; [|reflexivity].
    intros i j vi vj [<-|[<-|[]]] [<-|[<-|[]]]; vm_compute; congruence.
  - split; [|repeat split]. apply same_keys. apply perm_swap.
Qed.






(** C2, as the code has it.  For a row of any comparison over distinct
    instance ids, none of which is [__proto__], and for a unit that the
    comparison reads by own properties: [values] has one entry for each
    instance id, listed in the order of the ids when none of them is an
    array index; the entry of an instance is its value of the unit, or
    the text of the sentinel when it has none; [affectedInstances] lists,
    in the order of the ids, the instances that have a value, and these
    are the instances whose entry is not the text of the sentinel exactly
    when no value is that text. *)
Theorem values_and_affected
    (c : Comparison) (ids : list string) (base : option string)
    (r : ComparisonResult) :
  NoDup ids ->
  ~ In "__proto__" ids ->
  In r (compare c ids base) ->
  readsOwn c (path r) = true ->
  Permutation (obj_keys (values r)) ids
  /\ List.length (values r) = List.length ids
  /\ ((forall i, In i ids -> array_index i = None) ->
      obj_keys (values r) = ids)
  /\ (forall i, In i ids ->
                obj_get (values r) i = entryOf (valueAt c (path r) i))
  /\ affectedInstances r
     = filter (fun i => isSome (valueAt c (path r) i)) ids
  /\ (affectedInstances r
      = filter (fun i => negb (is_MISSING (obj_get (values r) i))) ids
      <-> forall i v, In i ids -> valueAt c (path r) i = Some v ->
                      is_MISSING v = false).
Proof.
  intros Hnd _ Hr _. apply compare_In in Hr. destruct Hr as (u & _ & Hr).
  apply unitRows_In in Hr. destruct Hr as (Hp & Hv & Ha & _).
  rewrite Hp, Hv, Ha.
  assert (Hget : forall i, In i ids ->
                   obj_get (c_values (collect ids base (valueAt c u))) i
                   = entryOf (valueAt c u i))
    by (intros; now apply collect_get).
  pose proof (collect_keys_Permutation ids base (valueAt c u) Hnd) as Hperm.
  split; [exact Hperm|]. split.
  { apply Permutation_length in Hperm. unfold obj_keys in Hperm.
    now rewrite length_map in Hperm. }
  split; [now apply collect_keys_order|].
  split; [exact Hget|]. split; [reflexivity|].
  split.
  - intros Heq i v Hi Hvi.
    assert (Hin : In i (filter (fun i => isSome (valueAt c u i)) ids))
      by (apply filter_In; split; [exact Hi | now rewrite Hvi]).
    rewrite Heq in Hin. apply filter_In in Hin. destruct Hin as [_ Hm].
    rewrite (Hget i Hi), Hvi in Hm. simpl in Hm.
    now apply negb_true_iff in Hm.
  - intros Hplain. apply filter_ext_in. intros i Hi. rewrite (Hget i Hi).
    destruct (valueAt c u i) as [v|] eqn:Hvi; simpl.
    + now rewrite (Hplain i v Hi Hvi).
    + reflexivity.
Qed.

Lemma values_and_affected_witness :
  let c := GenericComparison Samples.partialData in
  let ids := ["p"; "q"] in
  let r := nth 0 (compareGenericData Samples.partialData ids None)
               (mkResult "" unchanged [] [] "") in
  NoDup ids
  /\ ~ In "__proto__" ids
  /\ In r (compare c ids None)
  /\ readsOwn c (path r) = true
  /\ (Permutation (obj_keys (values r)) ids
      /\ List.length (values r) = List.length ids
      /\ ((forall i, In i ids -> array_index i = None) ->
          obj_keys (values r) = ids)
      /\ (forall i, In i ids ->
                    obj_get (values r) i = entryOf (valueAt c (path r) i))
      /\ affectedInstances r
         = filter (fun i => isSome (valueAt c (path r) i)) ids
      /\ (affectedInstances r
          = filter (fun i => negb (is_MISSING (obj_get (values r) i))) ids
          <-> forall i v, In i ids -> valueAt c (path r) i = Some v ->
                          is_MISSING v = false)).
Proof.
  assert (Hnd : NoDup ["p"; "q"]).
  { repeat constructor; simpl; intuition discriminate. }
  assert (Hproto : ~ In "__proto__" ["p"; "q"]).
  { simpl. intuition discriminate. }
  assert (Hin : In (nth 0 (compareGenericData Samples.partialData ["p"; "q"] None)
                        (mkResult "" unchanged [] [] ""))
                   (compare (GenericComparison Samples.partialData)
                            ["p"; "q"] None)).
  { vm_compute. left. reflexivity. }
  split; [exact Hnd|]. split; [exact Hproto|]. split; [exact Hin|].
  split; [reflexivity|].
  apply (values_and_affected (GenericComparison Samples.partialData)
           ["p"; "q"] None _ Hnd Hproto Hin eq_refl).
Defined.

(** C2 fails as stated.  In the first run the value of [p] is the string
    ["MISSING"]: [p] is listed in [affectedInstances], and its entry in
    [values] is the text of the sentinel.  In the second run the
    instances are named ["2"] and ["1"], in this order: the keys of
    [values] are enumerated as ["1"], ["2"]. *)
Lemma sentinel_collision_counterexample :
  map (fun r => (path r, affectedInstances r,
                 filter (fun i => negb (is_MISSING (obj_get (values r) i)))
                        ["p"; "q"]))
      (compare (GenericComparison Samples.sentinelData) ["p"; "q"] None)
  = [("x", ["p"; "q"], ["q"])]
  /\ map (fun r => (path r, obj_keys (values r)))
         (compare (GenericComparison Samples.indexData) ["2"; "1"] None)
     = [("x", ["1"; "2"])].
Proof. split; reflexivity. Qed.

(** C8, as the code has it.  A record whose identifier has the empty
    text is passed over: the union of identifiers and the identity map
    stay as they are, and the empty text is never a unit nor a key of an
    identity map.  A record whose identifier is a safe integer or a
    boolean has a text that is not empty (["0"], ["false"]): it is added
    to the union and to the map under that text. *)
Theorem unidentified_records_skipped (f : string) :
  (forall st item,
      to_String (obj_get item f) = "" -> addItem f st item = st)
  /\ (forall data ids, ~ In "" (fst (buildItemMaps data ids f)))
  /\ (forall items, map_get (itemMapOf f items) "" = None)
  /\ (forall st item n,
        obj_get item f = VNum n -> safeInteger n = true ->
        In (string_of_Z n) (fst (addItem f st item))
        /\ map_get (snd (addItem f st item)) (string_of_Z n) = Some item)
  /\ (forall st item b,
        obj_get item f = VBool b ->
        In (if b then "true" else "false") (fst (addItem f st item))
        /\ map_get (snd (addItem f st item)) (if b then "true" else "false")
           = Some item).
Proof.
  split; [|split; [|split; [|split]]].
  - intros st item H. unfold addItem. now rewrite H.
  - intros data ids Hin.
    destruct (itemIds_In data ids f "" Hin) as (i & _ & Hs).
    now rewrite itemMapOf_empty in Hs.
  - apply itemMapOf_empty.
  - intros st item n Hn _.
    pose proof (addItem_kept f st item) as H. rewrite Hn in H. simpl in H.
    apply H. apply string_of_Z_nonempty.
  - intros st item b Hb.
    pose proof (addItem_kept f st item) as H. rewrite Hb in H. simpl in H.
    apply H. now destruct b.
Qed.

Lemma unidentified_records_skipped_witness :
  let blank : object := [("id", VStr ""); ("v", VBool true)] in
  let zero : object := [("id", VNum 0); ("v", VBool true)] in
  addItem "id" (["f1"], []) blank = (["f1"], [])
  /\ ~ In "" (fst (buildItemMaps [("p", [blank; zero])] ["p"] "id"))
  /\ In "0" (fst (addItem "id" (["f1"], []) zero))
  /\ map_get (snd (addItem "id" (["f1"], []) zero)) "0" = Some zero.
Proof.
  split; [|split].
  - apply (proj1 (unidentified_records_skipped "id")). reflexivity.
  - apply (proj1 (proj2 (unidentified_records_skipped "id"))).
  - apply (proj1 (proj2 (proj2 (proj2 (unidentified_records_skipped "id"))))
             (["f1"], []) [("id", VNum 0); ("v", VBool true)] 0%Z);
      reflexivity.
Defined.

(** C8 fails as stated: the record [{id: 0, v: true}] has the identifier
    zero, whose text is ["0"]; it is a unit of the comparison and gets a
    row. *)
Lemma zero_identifier_counterexample :
  let c := ArrayComparison Samples.zeroIdData Samples.arrayType in
  to_String (VNum 0) = "0"
  /\ units c ["p"; "q"] = ["0"]
  /\ valueAt c "0" "p" = Some (VObj [("v", VBool true)])
  /\ map (fun r => (path r, type r)) (compare c ["p"; "q"] None)
     = [("0", deleted)].
Proof. repeat split. Qed.

(** * Further properties of the engine *)

(** ** Facts on paths *)

Module PathFacts.
Import JS Engine Shapes JSFacts CompareFacts.

Lemma str_app_nil_r (s : string) : (s ++ "")%string = s.
Proof. induction s as [|c s IH]; simpl; [reflexivity | now rewrite IH]. Qed.

Lemma str_app_assoc (a b c : string) :
  ((a ++ b) ++ c)%string = (a ++ (b ++ c))%string.
Proof. induction a as [|x a IH]; simpl; [reflexivity | now rewrite IH]. Qed.

Lemma split_dot_aux_app p q cur :
  split_dot_aux (p ++ "." ++ q)%string cur
  = split_dot_aux p cur ++ split_dot_aux q "".
Proof.
  revert cur. induction p as [|c p IH]; intros cur; simpl.
  - reflexivity.
  - destruct (Ascii.eqb c "."%char); simpl; now rewrite IH.
Qed.

Lemma split_dot_app p q :
  split_dot (p ++ "." ++ q)%string = split_dot p ++ split_dot q.
Proof. apply split_dot_aux_app. Qed.

Lemma split_dot_aux_plain k cur :
  hasDot k = false -> split_dot_aux k cur = [(cur ++ k)%string].
Proof.
  revert cur. induction k as [|c k IH]; intros cur; simpl.
  - intros _. now rewrite str_app_nil_r.
  - destruct (Ascii.eqb c "."%char); simpl; [discriminate|].
    intros H. rewrite (IH _ H), str_app_assoc. reflexivity.
Qed.

Lemma split_dot_plain k : hasDot k = false -> split_dot k = [k].
Proof. intros H. unfold split_dot. now rewrite split_dot_aux_plain. Qed.

Lemma split_dot_aux_cons s cur :
  exists x rest, split_dot_aux s cur = x :: rest.
Proof.
  revert cur. induction s as [|c s IH]; intros cur; simpl; [eauto|].
  destruct (Ascii.eqb c "."%char); [eauto | apply IH].
Qed.

(** One step of [getValueAtPath]. *)
Lemma getValueAtPath_unfold obj path :
  getValueAtPath obj path
  = fold_left
      (fun current key =>
         if isContainer current then get_member current key else VUndef)
      (split_dot path) obj.
Proof. reflexivity. Qed.

Lemma fold_undefined (keys : list string) :
  fold_left
    (fun current key =>
       if isContainer current then get_member current key else VUndef)
    keys VUndef
  = VUndef.
Proof. induction keys as [|k keys IH]; simpl; [reflexivity | exact IH]. Qed.

Lemma getValueAtPath_app obj p q :
  getValueAtPath obj (p ++ "." ++ q)%string
  = getValueAtPath (getValueAtPath obj p) q.
Proof.
  rewrite !getValueAtPath_unfold, split_dot_app. apply fold_left_app.
Qed.

Lemma getValueAtPath_leaf v q :
  isContainer v = false -> getValueAtPath v q = VUndef.
Proof.
  intros H. rewrite getValueAtPath_unfold. unfold split_dot.
  destruct (split_dot_aux_cons q "") as (x & rest & ->). simpl.
  rewrite H. apply fold_undefined.
Qed.

Lemma getValueAtPath_key o k :
  hasDot k = false -> getValueAtPath (VObj o) k = obj_get o k.
Proof.
  intros H. rewrite getValueAtPath_unfold, (split_dot_plain k H). reflexivity.
Qed.

(** Induction on a value, with the values inside for the arrays and the
    objects. *)
Lemma value_induction (P : value -> Prop) :
  P VUndef -> P VNull -> (forall b, P (VBool b)) -> (forall n, P (VNum n)) ->
  (forall s, P (VStr s)) ->
  (forall l, Forall P l -> P (VArr l)) ->
  (forall o, Forall (fun kv => P (snd kv)) o -> P (VObj o)) ->
  forall v, P v.
Proof.
  intros Hu Hn Hb Hz Hs Ha Ho. fix IH 1. intros [| |b|n|s|l|o].
  - exact Hu.
  - exact Hn.
  - apply Hb.
  - apply Hz.
  - apply Hs.
  - apply Ha. induction l as [|x l IHl]; constructor; [apply IH | exact IHl].
  - apply Ho. induction o as [|[k x] o IHo]; constructor;
      [apply IH | exact IHo].
Qed.

Lemma traverse_cons k c rest cp acc :
  traverse (VObj ((k, c) :: rest)) cp acc
  = traverse (VObj rest) cp
      (traverse c (joinPath cp k) (set_add String.eqb acc (joinPath cp k))).
Proof. reflexivity. Qed.

Lemma set_add_NoDup (s : list string) (x : string) :
  NoDup s -> NoDup (set_add String.eqb s x).
Proof.
  intros Hnd. unfold set_add, set_has.
  destruct (existsb (String.eqb x) s) eqn:He; [exact Hnd|].
  apply NoDup_app; [exact Hnd | repeat constructor; auto |].
  intros y Hy [E|[]]. subst y.
  assert (existsb (String.eqb x) s = true) by now apply existsb_eqb_In.
  congruence.
Qed.

(** The paths that a traversal adds do not depend on the set it adds
    them to, and the set stays without repetition. *)
Lemma traverse_acc v :
  forall cp acc,
    (forall p, In p (traverse v cp acc)
               <-> In p acc \/ In p (traverse v cp []))
    /\ (NoDup acc -> NoDup (traverse v cp acc)).
Proof.
  induction v as [| |b|n|s|l _|o IH] using value_induction;
    try (intros cp acc; simpl; split; [tauto | auto]).
  induction o as [|[k c] rest IHrest]; intros cp acc.
  - simpl. split; [tauto | auto].
  - inversion IH as [|? ? Hc Hrest]; subst. simpl in Hc.
    specialize (IHrest Hrest).
    rewrite !traverse_cons. split.
    + intros p.
      rewrite (proj1 (IHrest cp _) p).
      rewrite (proj1 (Hc (joinPath cp k) _) p).
      rewrite (proj1 (IHrest cp (traverse c (joinPath cp k)
                                   (set_add String.eqb [] (joinPath cp k)))) p).
      rewrite (proj1 (Hc (joinPath cp k)
                         (set_add String.eqb [] (joinPath cp k))) p).
      rewrite !set_add_In. simpl. tauto.
    + intros Hnd. apply IHrest. apply Hc. now apply set_add_NoDup.
Qed.

Lemma traverse_In_cons k c rest cp p :
  In p (traverse (VObj ((k, c) :: rest)) cp [])
  <-> p = joinPath cp k \/ In p (traverse c (joinPath cp k) [])
      \/ In p (traverse (VObj rest) cp []).
Proof.
  rewrite traverse_cons.
  rewrite (proj1 (traverse_acc (VObj rest) cp _) p).
  rewrite (proj1 (traverse_acc c (joinPath cp k) _) p).
  rewrite set_add_In. simpl. tauto.
Qed.

Lemma collectPaths_fold objs acc :
  (forall p, In p (fold_left (fun paths obj => traverse obj "" paths) objs acc)
             <-> In p acc \/ exists obj, In obj objs /\ In p (traverse obj "" []))
  /\ (NoDup acc ->
      NoDup (fold_left (fun paths obj => traverse obj "" paths) objs acc)).
Proof.
  revert acc. induction objs as [|obj objs IH]; intros acc; simpl.
  - split; [|auto]. intros p. split; [auto|].
    intros [H|(o & [] & _)]. exact H.
  - split.
    + intros p. rewrite (proj1 (IH _) p).
      rewrite (proj1 (traverse_acc obj "" acc) p). split.
      * intros [[H|H]|(o & Ho & Hp)]; eauto 6.
      * intros [H|(o & [<-|Ho] & Hp)]; eauto 6.
    + intros Hnd. apply IH. now apply traverse_acc.
Qed.

Lemma distinct_NoDup (l : list string) : distinct l = true -> NoDup l.
Proof.
  induction l as [|x l IH]; simpl; [constructor|].
  intros H. apply andb_true_iff in H. destruct H as [Hx Hl].
  constructor; [|now apply IH].
  intros Hin. apply existsb_eqb_In in Hin. rewrite Hin in Hx. discriminate.
Qed.

Lemma prop_lookup_middle {A : Type} (pre : list (string * A)) k (c : A) rest :
  ~ In k (map fst pre) ->
  prop_lookup (pre ++ (k, c) :: rest) k = Some c.
Proof.
  induction pre as [|[k0 w] pre IH]; simpl; intros Hout.
  - now rewrite String.eqb_refl.
  - destruct (String.eqb_spec k0 k) as [->|_]; [exfalso; auto|].
    apply IH. tauto.
Qed.

Lemma joinPath_truthy cp k :
  truthy_string k = true -> truthy_string (joinPath cp k) = true.
Proof.
  intros Hk. unfold joinPath. destruct (truthy_string cp) eqn:Hc; [|exact Hk].
  destruct cp; [discriminate | reflexivity].
Qed.

Lemma joinPath_assoc cp k q :
  truthy_string k = true ->
  joinPath (joinPath cp k) q = joinPath cp (k ++ "." ++ q)%string.
Proof.
  intros Hk. unfold joinPath at 1. rewrite (joinPath_truthy cp k Hk).
  unfold joinPath. destruct (truthy_string cp); [|reflexivity].
  now rewrite !str_app_assoc.
Qed.

(** In a plain object every path that the traversal adds leads to a
    value. *)
Lemma traverse_resolves v :
  plainObject v = true ->
  forall cp p, In p (traverse v cp []) ->
    exists q, p = joinPath cp q /\ getValueAtPath v q <> VUndef.
Proof.
  induction v as [| |b|n|s|l _|o IH] using value_induction;
    try (intros _ cp p []).
  intros Hplain cp p Hp. simpl in Hplain.
  apply andb_true_iff in Hplain. destruct Hplain as [Hdist Hall].
  apply distinct_NoDup in Hdist.
  assert (Hgen : forall pre rest,
             o = pre ++ rest ->
             In p (traverse (VObj rest) cp []) ->
             exists q, p = joinPath cp q /\ getValueAtPath (VObj o) q <> VUndef).
  { intros pre rest. revert pre.
    induction rest as [|[k c] rest IHrest]; intros pre Ho Hin.
    - destruct Hin.
    - assert (Hkc : In (k, c) o) by (rewrite Ho; apply in_elt).
      rewrite forallb_forall in Hall. pose proof (Hall _ Hkc) as Hk.
      simpl in Hk. apply andb_true_iff in Hk. destruct Hk as [Hk Hcplain].
      apply andb_true_iff in Hk. destruct Hk as [Hkey Hdef].
      unfold plainKey in Hkey. apply andb_true_iff in Hkey.
      destruct Hkey as [Htr Hnodot]. apply negb_true_iff in Hnodot.
      assert (Hget : obj_get o k = c).
      { unfold obj_get. rewrite Ho, prop_lookup_middle; [reflexivity|].
        rewrite Ho, map_app in Hdist. simpl in Hdist.
        apply NoDup_remove_2 in Hdist. intros H. apply Hdist.
        apply in_or_app. now left. }
      apply traverse_In_cons in Hin. destruct Hin as [-> | [Hin | Hin]].
      + exists k. split; [reflexivity|].
        rewrite (getValueAtPath_key o k Hnodot), Hget.
        destruct c; simpl in Hdef; congruence.
      + rewrite Forall_forall in IH. pose proof (IH _ Hkc) as IHc. simpl in IHc.
        destruct (IHc Hcplain _ _ Hin) as (q & -> & Hq).
        exists (k ++ "." ++ q)%string. split.
        * now apply joinPath_assoc.
        * rewrite getValueAtPath_app, (getValueAtPath_key o k Hnodot), Hget.
          exact Hq.
      + apply (IHrest (pre ++ [(k, c)])); [|exact Hin].
        rewrite Ho, <- app_assoc. reflexivity. }
  apply (Hgen [] o eq_refl Hp).
Qed.

End PathFacts.

(** ** Facts on the units and on the order of the rows *)

Module OrderFacts.
Import JS Engine Shapes JSFacts UnitFacts RowFacts DecisionFacts
       SymmetricFacts CompareFacts ValueFacts IdentityFacts PathFacts.

Lemma map_flat_map {A B C : Type} (f : B -> C) (g : A -> list B) (l : list A) :
  map f (flat_map g l) = flat_map (fun x => map f (g x)) l.
Proof.
  induction l as [|a l IH]; simpl; [reflexivity|].
  now rewrite map_app, IH.
Qed.

(** A unit gets one row, whose path is the unit, or none. *)
Lemma unitRows_shape c ids base u :
  unitRows c ids base u = []
  \/ exists r, unitRows c ids base u = [r] /\ path r = u.
Proof.
  destruct c as [data|data|data t|data t]; simpl;
    rewrite compareUnit_cases; simpl;
    match goal with
    | |- context [if ?b then _ else _] => destruct b
    end; eauto.
Qed.

Lemma paths_of_rows c ids base :
  map path (compare c ids base) = filter (emits c ids base) (units c ids).
Proof.
  rewrite compare_flat. induction (units c ids) as [|u us IH]; simpl.
  - reflexivity.
  - rewrite map_app, IH. unfold emits at 2.
    destruct (unitRows_shape c ids base u) as [-> | (r & -> & Hp)]; simpl.
    + reflexivity.
    + now rewrite Hp.
Qed.

Lemma names_fold_NoDup (features : list FeatureToggle) (names : list string) :
  NoDup names ->
  NoDup (fold_left (fun names f => set_add String.eqb names (FeatureName f))
                   features names).
Proof.
  revert names. induction features as [|f features IH]; intros names H; simpl.
  - exact H.
  - apply IH. now apply set_add_NoDup.
Qed.

Lemma featureNames_NoDup data ids : NoDup (fst (buildFeatureMaps data ids)).
Proof.
  unfold buildFeatureMaps.
  set (L := fun (st : list string * list (string * list (string * FeatureToggle)))
                (instanceId : string) => _).
  assert (H : forall st, NoDup (fst st) -> NoDup (fst (fold_left L ids st))).
  { induction ids as [|a ids IH]; intros st Hst; simpl; [exact Hst|].
    apply IH. subst L. simpl. now apply names_fold_NoDup. }
  apply H. constructor.
Qed.

Lemma addItem_fold_NoDup f items st :
  NoDup (fst st) -> NoDup (fst (fold_left (addItem f) items st)).
Proof.
  revert st. induction items as [|item items IH]; intros st H; simpl.
  - exact H.
  - apply IH. unfold addItem.
    destruct (truthy_string (to_String (obj_get item f))); [|exact H].
    simpl. now apply set_add_NoDup.
Qed.

Lemma itemIds_NoDup data ids f : NoDup (fst (buildItemMaps data ids f)).
Proof.
  unfold buildItemMaps.
  set (L := fun (st : list string * list (string * list (string * object)))
                (instanceId : string) => _).
  assert (H : forall st, NoDup (fst st) -> NoDup (fst (fold_left L ids st))).
  { induction ids as [|a ids IH]; intros st Hst; simpl; [exact Hst|].
    apply IH. subst L. simpl.
    pose proof (addItem_fold_NoDup f (or_empty (prop_lookup data a))
                  (fst st, []) Hst) as Hnd.
    destruct (fold_left (addItem f) (or_empty (prop_lookup data a)) (fst st, [])).
    exact Hnd. }
  apply H. constructor.
Qed.

Lemma units_NoDup c ids : discoversUnits c = true -> NoDup (units c ids).
Proof.
  destruct c as [data|data|data t|data t]; simpl; try discriminate; intros _.
  - apply featureNames_NoDup.
  - apply collectPaths_fold. constructor.
  - destruct (identifierOf t); [apply itemIds_NoDup | constructor].
Qed.

(** The names of the features: a name of the union is a key of the map
    of the instance that brought it. *)
Lemma names_fold_In (features : list FeatureToggle) names u :
  In u (fold_left (fun names f => set_add String.eqb names (FeatureName f))
                  features names)
  <-> In u names \/ exists f, In f features /\ FeatureName f = u.
Proof.
  revert names. induction features as [|f features IH]; intros names; simpl.
  - split; [auto | intros [H|(f & [] & _)]; exact H].
  - rewrite IH, set_add_In. split.
    + intros [[H|H]|(g & Hg & Hn)]; eauto 6.
    + intros [H|(g & [<-|Hg] & Hn)]; eauto 6.
Qed.

Lemma featureMapOf_get features u :
  (exists f, In f features /\ FeatureName f = u) ->
  isSome (map_get (featureMapOf features) u) = true.
Proof.
  unfold featureMapOf.
  assert (H : forall m,
             isSome (map_get m u) = true
             \/ (exists f, In f features /\ FeatureName f = u) ->
             isSome (map_get (fold_left (fun m f => map_set m (FeatureName f) f)
                                        features m) u) = true).
  { induction features as [|f features IH]; intros m; simpl.
    - intros [H|(f & [] & _)]. exact H.
    - intros H. apply IH. rewrite map_get_set.
      destruct (String.eqb_spec (FeatureName f) u) as [E|E].
      + left. reflexivity.
      + destruct H as [H|(g & [E'|Hg] & Hn)];
          [now left | subst g; contradiction | right; eauto]. }
  intros Hex. apply H. now right.
Qed.

Lemma featureNames_In data ids u :
  In u (fst (buildFeatureMaps data ids)) ->
  exists i, In i ids /\ isSome (valueAt (ToggleComparison data) u i) = true.
Proof.
  unfold buildFeatureMaps.
  set (L := fun (st : list string * list (string * list (string * FeatureToggle)))
                (instanceId : string) => _).
  assert (H : forall st,
             In u (fst (fold_left L ids st)) ->
             In u (fst st)
             \/ exists i, In i ids
                  /\ isSome (valueAt (ToggleComparison data) u i) = true).
  { induction ids as [|a ids IH]; intros st; simpl; [auto|].
    intros Hin. apply IH in Hin. destruct Hin as [Hin|(i & Hi & Hs)].
    - subst L. simpl in Hin. apply names_fold_In in Hin.
      destruct Hin as [Hin|Hex]; [now left|].
      right. exists a. split; [now left|].
      pose proof (featureMapOf_get _ _ Hex) as Hget.
      destruct (map_get (featureMapOf (or_empty (prop_lookup data a))) u);
        [reflexivity | discriminate].
    - right. exists i. split; [now right | exact Hs]. }
  intros Hin. apply H in Hin. destruct Hin as [[]|Hin]. exact Hin.
Qed.

(** A unit is present in one of the compared instances, in the
    comparisons of arrays. *)
Lemma identity_unit_present c ids u :
  byIdentity c = true -> In u (units c ids) ->
  exists i, In i ids /\ isSome (valueAt c u i) = true.
Proof.
  destruct c as [data|data|data t|data t]; simpl; try discriminate; intros _.
  - apply featureNames_In.
  - destruct (identifierOf t) as [f|] eqn:Hf; [|intros []].
    intros Hu. destruct (itemIds_In data ids f u Hu) as (i & Hi & Hs).
    exists i. split; [exact Hi|].
    destruct (map_get _ u); [reflexivity | discriminate].
Qed.

End OrderFacts.

(** ** Facts on the rule that pushes a row *)

Module EmissionFacts.
Import JS Engine Shapes JSFacts UnitFacts RowFacts DecisionFacts
       SymmetricFacts CompareFacts ValueFacts IdentityFacts PathFacts
       OrderFacts.

Lemma baseFound_outside ids b lookup :
  ~ In b ids -> baseFound ids (Some b) lookup = None.
Proof.
  intros Hout. unfold baseFound.
  destruct (existsb (String.eqb b) ids) eqn:He.
  - apply existsb_eqb_In in He. contradiction.
  - now rewrite andb_false_r.
Qed.

(** The entries and the affected instances do not depend on the base. *)
Lemma collect_base_free ids base base' lookup :
  c_values (collect ids base lookup) = c_values (collect ids base' lookup)
  /\ c_affected (collect ids base lookup) = c_affected (collect ids base' lookup).
Proof.
  assert (H : forall c0 c1,
             c_values c1 = c_values c0 -> c_affected c1 = c_affected c0 ->
             c_values (fold_left (collectStep base lookup) ids c1)
             = c_values (fold_left (collectStep base' lookup) ids c0)
             /\ c_affected (fold_left (collectStep base lookup) ids c1)
                = c_affected (fold_left (collectStep base' lookup) ids c0)).
  { induction ids as [|a ids IH]; intros c0 c1 Hv Ha; simpl; [auto|].
    apply IH.
    - now rewrite !step_values, Hv.
    - now rewrite !step_affected, Ha. }
  unfold collect. apply H; reflexivity.
Qed.

Section Emitting.
Variable ids : list string.
Variable base : option string.
Variable lookup : string -> option value.
Context {K : Type}.
Variable key : value -> K.
Variable key_eqb : K -> K -> bool.
Variable reportPartial : bool.
Variable sentences : Sentences.

(** The text of the entry of an instance. *)
Let text (i : string) : option string := stringify (entryOf (lookup i)).

Hypothesis key_eqb_spec :
  forall i j, In i ids -> In j ids ->
              (key_eqb (keyOf lookup key i) (keyOf lookup key j) = true
               <-> keyOf lookup key i = keyOf lookup key j).
Hypothesis key_text :
  forall i j, In i ids -> In j ids ->
              (keyOf lookup key i = keyOf lookup key j <-> text i = text j).
Hypothesis partial_present :
  reportPartial = true -> exists j, In j ids /\ isSome (lookup j) = true.
Hypothesis partial_text :
  reportPartial = true ->
  forall j v, lookup j = Some v -> stringify v <> stringify MISSING.

Lemma partial_missing :
  negb (List.length (c_affected (collect ids base lookup)) =? List.length ids)%nat
  = true ->
  exists i, In i ids /\ lookup i = None.
Proof.
  rewrite collect_affected, negb_true_iff, Nat.eqb_neq. intros H.
  destruct (filter_length_neq _ _ H) as (i & Hi & Hn).
  exists i. split; [exact Hi|]. now destruct (lookup i).
Qed.

Lemma unit_emits_symmetric unit :
  baseFound ids base lookup = None ->
  compareUnit ids base lookup key key_eqb reportPartial sentences unit <> []
  <-> exists i j, In i ids /\ In j ids /\ text i <> text j.
Proof.
  intros Hf. rewrite compareUnit_cases. simpl.
  destruct (collect_base ids base lookup) as [Hhas _].
  rewrite Hf in Hhas. simpl in Hhas.
  rewrite hasDifference_symmetric by (rewrite Hhas; apply andb_false_r).
  split.
  - intros Hne.
    destruct (1 <? _)%nat eqn:Hs.
    + apply (set_size_spec ids base lookup key key_eqb key_eqb_spec) in Hs.
      destruct Hs as (i & j & Hi & Hj & Hk). exists i, j.
      repeat split; auto. intros E. apply Hk. now apply key_text.
    + simpl in Hne. destruct reportPartial eqn:Hrp; simpl in Hne;
        [|contradiction].
      destruct (negb _) eqn:Hp; [|contradiction].
      destruct (partial_missing Hp) as (i & Hi & Hn).
      destruct (partial_present eq_refl) as (j & Hj & Hs').
      exists j, i. repeat split; auto.
      unfold text. rewrite Hn. destruct (lookup j) as [v|] eqn:Hv;
        [|discriminate].
      simpl. now apply (partial_text eq_refl j).
  - intros (i & j & Hi & Hj & Ht).
    assert (Hs : (1 <? List.length
                     (set_of_list key_eqb
                        (map key (obj_values (c_values (collect ids base lookup))))))%nat
                 = true).
    { apply (set_size_spec ids base lookup key key_eqb key_eqb_spec).
      exists i, j. repeat split; auto. intros E. apply Ht.
      now apply key_text. }
    rewrite Hs. simpl. discriminate.
Qed.

Lemma unit_emits_base vb unit :
  baseFound ids base lookup = Some vb ->
  compareUnit ids base lookup key key_eqb reportPartial sentences unit <> []
  <-> exists i, In i ids /\ isBase base i = false
                /\ (is_MISSING (entryOf (lookup i)) = true
                    \/ text i <> stringify vb).
Proof.
  intros Hf.
  destruct (baseFound_inv ids base lookup vb Hf) as (b & Hb & Ht & Hin & Hl).
  destruct (collect_base ids base lookup) as [Hhas Hval].
  rewrite Hf in Hhas, Hval. simpl in Hhas.
  assert (Hkb : keyOf lookup key b = key vb) by (unfold keyOf; now rewrite Hl).
  assert (Htb : text b = stringify vb) by (unfold text; now rewrite Hl).
  assert (Hdiff : forall i, In i ids ->
             differs key key_eqb (entryOf (lookup i)) vb = true
             <-> text i <> stringify vb).
  { intros i Hi. unfold differs. rewrite negb_true_iff, <- Hkb, <- Htb.
    change (key (entryOf (lookup i))) with (keyOf lookup key i).
    rewrite <- (key_text i b Hi Hin), <- (key_eqb_spec i b Hi Hin).
    destruct (key_eqb _ _); split; congruence. }
  rewrite compareUnit_cases. simpl.
  rewrite hasDifference_base
    by (rewrite Hhas; subst base; unfold hasBase; now rewrite Ht).
  rewrite Hval. split.
  - intros Hne.
    destruct (existsb _ ids) eqn:He.
    + apply existsb_exists in He. destruct He as (i & Hi & Hfi).
      rewrite (collect_get ids base lookup i Hi) in Hfi.
      apply andb_true_iff in Hfi. destruct Hfi as [Hnb Hfi].
      apply negb_true_iff in Hnb.
      exists i. repeat split; auto.
      apply orb_true_iff in Hfi. destruct Hfi as [Hfi|Hfi]; [|now left].
      apply andb_true_iff in Hfi. destruct Hfi as [Hd _].
      right. now apply Hdiff.
    + simpl in Hne. destruct reportPartial eqn:Hrp; simpl in Hne;
        [|contradiction].
      destruct (negb _) eqn:Hp; [|contradiction].
      destruct (partial_missing Hp) as (i & Hi & Hn).
      exists i. repeat split; auto.
      * subst base. rewrite isBase_Some.
        destruct (String.eqb_spec i b) as [->|]; [congruence | reflexivity].
      * left. now rewrite Hn.
  - intros (i & Hi & Hnb & Hcase).
    assert (He : existsb
                   (fun i0 =>
                      negb (isBase base i0)
                      && (differs key key_eqb
                            (obj_get (c_values (collect ids base lookup)) i0) vb
                          && negb (is_MISSING
                                     (obj_get (c_values (collect ids base lookup)) i0))
                          || is_MISSING
                               (obj_get (c_values (collect ids base lookup)) i0)))
                   ids = true).
    { apply existsb_exists. exists i. split; [exact Hi|].
      rewrite (collect_get ids base lookup i Hi), Hnb. simpl.
      destruct (is_MISSING (entryOf (lookup i))) eqn:Hm.
      - now rewrite orb_true_r.
      - destruct Hcase as [Hc|Hc]; [discriminate|].
        apply (Hdiff i Hi) in Hc. now rewrite Hc. }
    rewrite He. simpl. discriminate.
Qed.

(** A unit that gets a row is present in one of the instances. *)
Lemma unit_emits_present unit :
  compareUnit ids base lookup key key_eqb reportPartial sentences unit <> [] ->
  exists j, In j ids /\ isSome (lookup j) = true.
Proof.
  intros Hne. destruct (baseFound ids base lookup) as [vb|] eqn:Hf.
  - destruct (baseFound_inv ids base lookup vb Hf) as (b & _ & _ & Hin & Hl).
    exists b. split; [exact Hin|]. now rewrite Hl.
  - apply (unit_emits_symmetric unit Hf) in Hne.
    destruct Hne as (i & j & Hi & Hj & Ht).
    destruct (lookup i) as [v|] eqn:Hvi.
    + exists i. split; [exact Hi|]. now rewrite Hvi.
    + destruct (lookup j) as [w|] eqn:Hvj.
      * exists j. split; [exact Hj|]. now rewrite Hvj.
      * exfalso. apply Ht. unfold text. now rewrite Hvi, Hvj.
Qed.
End Emitting.

(** The entries of a comparison of feature toggles. *)
Lemma toggle_entry data u i :
  (exists b, entryOf (valueAt (ToggleComparison data) u i) = VBool b)
  \/ entryOf (valueAt (ToggleComparison data) u i) = MISSING.
Proof.
  destruct (valueAt (ToggleComparison data) u i) as [v|] eqn:Hv; simpl.
  - left. destruct (toggle_value _ _ _ _ Hv) as [b ->]. eauto.
  - now right.
Qed.

Lemma toggle_key_spec data u i j :
  strict_eq (entryOf (valueAt (ToggleComparison data) u i))
            (entryOf (valueAt (ToggleComparison data) u j)) = true
  <-> entryOf (valueAt (ToggleComparison data) u i)
      = entryOf (valueAt (ToggleComparison data) u j).
Proof.
  destruct (toggle_entry data u i) as [[x ->]| ->],
           (toggle_entry data u j) as [[y ->]| ->]; simpl;
    try (split; [discriminate | intros [=]]).
  - rewrite Bool.eqb_true_iff. split; congruence.
  - split; reflexivity.
Qed.

Lemma toggle_key_text data u i j :
  entryOf (valueAt (ToggleComparison data) u i)
  = entryOf (valueAt (ToggleComparison data) u j)
  <-> stringify (entryOf (valueAt (ToggleComparison data) u i))
      = stringify (entryOf (valueAt (ToggleComparison data) u j)).
Proof.
  destruct (toggle_entry data u i) as [[x ->]| ->],
           (toggle_entry data u j) as [[y ->]| ->]; simpl;
    try (destruct x); try (destruct y);
    split; intros H; try reflexivity; try discriminate H.
Qed.

Lemma toggle_partial_text data u j v :
  valueAt (ToggleComparison data) u j = Some v ->
  stringify v <> stringify MISSING.
Proof.
  intros Hv. destruct (toggle_value _ _ _ _ Hv) as [b ->].
  destruct b; discriminate.
Qed.

Lemma emits_rows c ids base u :
  emits c ids base u = true <-> unitRows c ids base u <> [].
Proof.
  unfold emits. destruct (unitRows c ids base u); split;
    congruence || discriminate || auto.
Qed.

Lemma emits_symmetric c ids base u :
  In u (units c ids) ->
  baseFound ids base (valueAt c u) = None ->
  emits c ids base u = true
  <-> exists i j, In i ids /\ In j ids /\ textOf c u i <> textOf c u j.
Proof.
  intros Hu Hf. rewrite emits_rows.
  destruct c as [data|data|data t|data t]; simpl unitRows.
  - apply unit_emits_symmetric; auto.
    all: first [ intros i j _ _; apply toggle_key_spec
               | intros i j _ _; apply toggle_key_text
               | intros _; now apply (identity_unit_present
                                        (ToggleComparison data))
               | intros _ j v; apply toggle_partial_text ].
  - apply unit_emits_symmetric; auto; try discriminate.
    all: first [ intros i j _ _; apply option_string_eqb_spec
               | intros i j _ _; reflexivity ].
  - apply unit_emits_symmetric; auto; try discriminate.
    all: first [ intros i j _ _; apply option_string_eqb_spec
               | intros i j _ _; reflexivity ].
  - apply unit_emits_symmetric; auto; try discriminate.
    all: first [ intros i j _ _; apply option_string_eqb_spec
               | intros i j _ _; reflexivity ].
Qed.

Lemma emits_under_base c ids base u vb :
  In u (units c ids) ->
  baseFound ids base (valueAt c u) = Some vb ->
  emits c ids base u = true
  <-> exists i, In i ids /\ isBase base i = false
                /\ (is_MISSING (entryOf (valueAt c u i)) = true
                    \/ textOf c u i <> stringify vb).
Proof.
  intros Hu Hf. rewrite emits_rows.
  destruct c as [data|data|data t|data t]; simpl unitRows.
  - apply unit_emits_base; auto.
    all: first [ intros i j _ _; apply toggle_key_spec
               | intros i j _ _; apply toggle_key_text
               | intros _; now apply (identity_unit_present
                                        (ToggleComparison data))
               | intros _ j v; apply toggle_partial_text ].
  - apply unit_emits_base; auto; try discriminate.
    all: first [ intros i j _ _; apply option_string_eqb_spec
               | intros i j _ _; reflexivity ].
  - apply unit_emits_base; auto; try discriminate.
    all: first [ intros i j _ _; apply option_string_eqb_spec
               | intros i j _ _; reflexivity ].
  - apply unit_emits_base; auto; try discriminate.
    all: first [ intros i j _ _; apply option_string_eqb_spec
               | intros i j _ _; reflexivity ].
Qed.

Lemma emits_present c ids base u :
  In u (units c ids) -> emits c ids base u = true ->
  exists j, In j ids /\ isSome (valueAt c u j) = true.
Proof.
  intros Hu. rewrite emits_rows.
  destruct c as [data|data|data t|data t]; simpl unitRows.
  - apply unit_emits_present.
    all: first [ intros i j _ _; apply toggle_key_spec
               | intros i j _ _; apply toggle_key_text
               | intros _; now apply (identity_unit_present
                                        (ToggleComparison data))
               | intros _ j v; apply toggle_partial_text ].
  - apply unit_emits_present; try discriminate.
    all: first [ intros i j _ _; apply option_string_eqb_spec
               | intros i j _ _; reflexivity ].
  - apply unit_emits_present; try discriminate.
    all: first [ intros i j _ _; apply option_string_eqb_spec
               | intros i j _ _; reflexivity ].
  - apply unit_emits_present; try discriminate.
    all: first [ intros i j _ _; apply option_string_eqb_spec
               | intros i j _ _; reflexivity ].
Qed.

(** A base that is not one of the instances: the rows hold what they hold
    without a base. *)
Lemma unit_base_outside ids b lookup {K : Type} (key : value -> K)
    (key_eqb : K -> K -> bool) rp sentences unit :
  ~ In b ids ->
  map rowContent
      (compareUnit ids (Some b) lookup key key_eqb rp sentences unit)
  = map rowContent
        (compareUnit ids None lookup key key_eqb rp sentences unit).
Proof.
  intros Hout. rewrite !compareUnit_cases. simpl.
  destruct (collect_base_free ids (Some b) None lookup) as [Hv Ha].
  destruct (collect_base ids (Some b) lookup) as [Hhas _].
  rewrite (baseFound_outside ids b lookup Hout) in Hhas. simpl in Hhas.
  rewrite (hasDifference_symmetric ids (Some b))
    by (rewrite Hhas; apply andb_false_r).
  rewrite (hasDifference_symmetric ids None) by reflexivity.
  rewrite Hv, Ha.
  destruct (_ || _); [|reflexivity].
  reflexivity.
Qed.

Lemma noData_valueAt c i u : noData c i = true -> valueAt c u i = None.
Proof.
  destruct c as [data|data|data t|data t]; simpl.
  - destruct (or_empty (prop_lookup data i)); [reflexivity | discriminate].
  - unfold pathLookup. intros H. apply negb_true_iff in H. now rewrite H.
  - destruct (or_empty (prop_lookup data i)); [|discriminate].
    intros _. destruct (identifierOf t); reflexivity.
  - unfold pathLookup. intros H. apply negb_true_iff in H. now rewrite H.
Qed.

End EmissionFacts.

(** ** Facts on the reducers, the pages and the helpers *)

Module StoreFacts.
Import JS Engine Shapes Store Pages JsonHelpers JSFacts UnitFacts RowFacts
       CompareFacts SessionFacts PathFacts.

Lemma selectData_ext {B : Type} (cast : value -> option B)
    (data data' : object) (ids : list string) :
  (forall i, In i ids -> obj_get data i = obj_get data' i) ->
  selectData cast data ids = selectData cast data' ids.
Proof.
  intros H. unfold selectData. apply fold_left_ext_in.
  intros acc i Hi. now rewrite (H i Hi).
Qed.

Lemma anyThrows_ext (throws : value -> bool) (data data' : object)
    (ids : list string) :
  (forall i, In i ids -> obj_get data i = obj_get data' i) ->
  anyThrows throws data ids = anyThrows throws data' ids.
Proof.
  unfold anyThrows. induction ids as [|a ids IH]; intros H; simpl;
    [reflexivity|].
  rewrite (H a) by now left. f_equal. apply IH.
  intros i Hi. apply H. now right.
Qed.

Lemma filter_fresh {A : Type} (f : A -> bool) (l : list A) (x : A) :
  (forall y, In y l -> f y = true) -> f x = false ->
  filter f (l ++ [x]) = l.
Proof.
  intros Hl Hx. rewrite filter_app. simpl. rewrite Hx, app_nil_r.
  induction l as [|a l IH]; simpl; [reflexivity|].
  rewrite (Hl a) by now left. f_equal. apply IH. intros y Hy. apply Hl.
  now right.
Qed.

Lemma find_none_all {A : Type} (f : A -> bool) (l : list A) :
  find f l = None -> forall y, In y l -> f y = false.
Proof. intros H y Hy. exact (find_none f l H y Hy). Qed.

Lemma find_app_some {A : Type} (f : A -> bool) (l l' : list A) (x : A) :
  find f l = Some x -> find f (l ++ l') = Some x.
Proof.
  induction l as [|a l IH]; simpl; [discriminate|].
  destruct (f a); [auto | exact IH].
Qed.

Lemma find_app_none {A : Type} (f : A -> bool) (l l' : list A) :
  find f l = None -> find f (l ++ l') = find f l'.
Proof.
  induction l as [|a l IH]; simpl; [reflexivity|].
  destruct (f a); [discriminate | exact IH].
Qed.

Lemma find_filter_other {A : Type} (f g : A -> bool) (l : list A) :
  (forall y, f y = true -> g y = true) ->
  find f (filter g l) = find f l.
Proof.
  intros H. induction l as [|a l IH]; simpl; [reflexivity|].
  destruct (g a) eqn:Hg; simpl.
  - destruct (f a); [reflexivity | exact IH].
  - destruct (f a) eqn:Hf; [|exact IH].
    apply H in Hf. congruence.
Qed.

Lemma find_filter_self {A : Type} (f : A -> bool) (l : list A) :
  find f (filter (fun y => negb (f y)) l) = None.
Proof.
  induction l as [|a l IH]; simpl; [reflexivity|].
  destruct (f a) eqn:Hf; simpl; [exact IH|]. now rewrite Hf.
Qed.

(** [replaceFirst] and [find] by id. *)
Lemma replaceFirst_spec types payload :
  match replaceFirst types payload with
  | Some types' =>
      map ct_id types' = map ct_id types
      /\ find (fun t => ct_id t =? ct_id payload) types <> None
      /\ (forall i, find (fun t => ct_id t =? i) types'
                    = if i =? ct_id payload then Some payload
                      else find (fun t => ct_id t =? i) types)
  | None => find (fun t => ct_id t =? ct_id payload) types = None
  end.
Proof.
  induction types as [|t rest IH]; simpl; [reflexivity|].
  destruct (String.eqb_spec (ct_id t) (ct_id payload)) as [E|E].
  - simpl. split; [now rewrite E|]. split; [discriminate|].
    intros i.
    rewrite (String.eqb_sym i (ct_id payload)).
    destruct (String.eqb_spec (ct_id payload) i) as [<-|Hi].
    + reflexivity.
    + destruct (String.eqb_spec (ct_id t) i) as [Et|_]; [congruence|].
      reflexivity.
  - destruct (replaceFirst rest payload) as [rest'|].
    + destruct IH as (Hids & Hfound & Hfind). simpl.
      split; [now rewrite Hids|]. split; [exact Hfound|].
      intros i. destruct (String.eqb_spec (ct_id t) i) as [Et|Et].
      * destruct (String.eqb_spec i (ct_id payload)); [congruence|reflexivity].
      * apply Hfind.
    + exact IH.
Qed.

Lemma state_eta (s : ComparisonState) :
  mkState (sessions s) (activeSessionId s) (selectedInstances s)
          (baseInstanceId s) (currentFetchEndpoint s) (currentSaveEndpoint s)
          (comparisonType s) (customTypes s) (builtInEndpoints s)
          (loading s) (error s) = s.
Proof. now destruct s. Qed.

(** The data that the compare page hands over. *)
Lemma selected_data_get (cache : list (string * InstanceData))
    (selected : list string) (acc : object) (i : string) :
  obj_get
    (fold_left
       (fun sel instId =>
          match prop_lookup cache instId with
          | Some d => obj_set sel instId (data d)
          | None => sel
          end)
       selected acc) i
  = if existsb (String.eqb i) selected then
      match prop_lookup cache i with
      | Some d => data d
      | None => obj_get acc i
      end
    else obj_get acc i.
Proof.
  revert acc. induction selected as [|a selected IH]; intros acc; simpl.
  - reflexivity.
  - rewrite IH. destruct (String.eqb_spec i a) as [->|Hne]; simpl.
    + destruct (prop_lookup cache a) as [d|] eqn:Hc.
      * rewrite obj_get_set, String.eqb_refl.
        now destruct (existsb (String.eqb a) selected).
      * now destruct (existsb (String.eqb a) selected).
    + destruct (prop_lookup cache a) as [d|] eqn:Hc; [|reflexivity].
      rewrite obj_get_set.
      destruct (String.eqb_spec a i) as [E|_]; [now symmetry in E|].
      reflexivity.
Qed.

Lemma forallb_filter_all {A : Type} (f : A -> bool) (l : list A) :
  forallb f l = true -> filter f l = l.
Proof.
  intros H. apply SymmetricFacts.filter_all. now apply forallb_forall.
Qed.

Lemma includes_In (selected : list string) (p : string) :
  includes selected p = true <-> In p selected.
Proof. apply existsb_eqb_In. Qed.

Lemma str_length_app (a b : string) :
  String.length (a ++ b)%string = String.length a + String.length b.
Proof. induction a as [|c a IH]; simpl; [reflexivity | now rewrite IH]. Qed.

Lemma substring_0_length (m : nat) (s : string) :
  String.length (substring 0 m s) = Nat.min m (String.length s).
Proof.
  revert s. induction m as [|m IH]; intros s.
  - now destruct s.
  - destruct s as [|c s]; simpl; [reflexivity | now rewrite IH].
Qed.

Lemma join_split_aux (s cur : string) :
  join arrow (split_dot_aux s cur) = (cur ++ formatJsonPath s)%string.
Proof.
  revert cur. induction s as [|c s IH]; intros cur; simpl.
  - now rewrite str_app_nil_r.
  - destruct (Ascii.eqb c "."%char).
    + destruct (split_dot_aux_cons s "") as (x & rest & Hx).
      pose proof (IH ""%string) as IH0. rewrite Hx in *.
      change (join arrow (cur :: x :: rest))
        with (cur ++ arrow ++ join arrow (x :: rest))%string.
      now rewrite IH0.
    + rewrite IH, str_app_assoc. reflexivity.
Qed.

Lemma hasDot_app (a b : string) :
  hasDot (a ++ b)%string = hasDot a || hasDot b.
Proof.
  induction a as [|c a IH]; simpl; [reflexivity|].
  now rewrite IH, orb_assoc.
Qed.

Lemma setComparisonType_idempotent (state : ComparisonState) (ty : string) :
  setComparisonType (setComparisonType state ty) ty = setComparisonType state ty.
Proof.
  unfold setComparisonType, findCustomType. simpl.
  destruct (find (fun t => ct_id t =? ty) (customTypes state)) as [t|] eqn:Hf;
    simpl.
  - now rewrite Hf.
  - destruct (prop_lookup (builtInEndpoints state) ty) as [config|] eqn:Hc;
      simpl; rewrite Hf, Hc; reflexivity.
Qed.

(** The current endpoints of a store that [setComparisonType] leaves as
    it is. *)
Lemma in_step_endpoints (state : ComparisonState) :
  setComparisonType state (comparisonType state) = state ->
  match findCustomType state (comparisonType state) with
  | Some t =>
      currentFetchEndpoint state = fetchEndpoint t
      /\ currentSaveEndpoint state = saveEndpoint t
  | None =>
      match prop_lookup (builtInEndpoints state) (comparisonType state) with
      | Some config =>
          currentFetchEndpoint state = ec_fetchEndpoint config
          /\ currentSaveEndpoint state = ec_saveEndpoint config
      | None => True
      end
  end.
Proof.
  unfold setComparisonType, findCustomType. simpl. intros H.
  destruct (find _ (customTypes state)) as [t|].
  - split; [apply (f_equal currentFetchEndpoint) in H
           | apply (f_equal currentSaveEndpoint) in H]; simpl in H; now symmetry.
  - destruct (prop_lookup (builtInEndpoints state) (comparisonType state))
      as [config|]; [|exact I].
    split; [apply (f_equal currentFetchEndpoint) in H
           | apply (f_equal currentSaveEndpoint) in H]; simpl in H; now symmetry.
Qed.

Lemma update_keeps_in_step (state : ComparisonState)
    (payload : CustomComparisonType) :
  setComparisonType state (comparisonType state) = state ->
  setComparisonType (fst (updateCustomComparisonType state payload))
    (comparisonType (fst (updateCustomComparisonType state payload)))
  = fst (updateCustomComparisonType state payload).
Proof.
  intros Hsync. pose proof (in_step_endpoints state Hsync) as Hend.
  unfold updateCustomComparisonType.
  pose proof (replaceFirst_spec (customTypes state) payload) as H.
  destruct (replaceFirst (customTypes state) payload) as [types|];
    [|exact Hsync].
  destruct H as (_ & _ & Hfind). simpl.
  unfold findCustomType in Hend.
  destruct (String.eqb_spec (comparisonType state) (ct_id payload)) as [E|Hne];
    simpl; unfold setComparisonType, findCustomType; simpl; rewrite Hfind;
    destruct (String.eqb_spec (comparisonType state) (ct_id payload))
      as [E'|Hne']; try contradiction.
  - reflexivity.
  - destruct (find (fun t => ct_id t =? comparisonType state)
                   (customTypes state)) as [t|].
    + destruct Hend as [<- <-]. reflexivity.
    + destruct (prop_lookup (builtInEndpoints state) (comparisonType state))
        as [config|]; [|reflexivity].
      destruct Hend as [<- <-]. reflexivity.
Qed.

End StoreFacts.

(** ** The type of a row *)

Module TypeFacts.
Import JS Engine Shapes JSFacts UnitFacts RowFacts DecisionFacts CompareFacts
       ValueFacts EmissionFacts.

Lemma is_MISSING_eq (v : value) : is_MISSING v = true -> v = MISSING.
Proof.
  destruct v; try discriminate. unfold is_MISSING. simpl.
  intros H. apply String.eqb_eq in H. now subst.
Qed.

Lemma filter_nil_none {A : Type} (f : A -> bool) (l : list A) :
  (forall x, In x l -> f x = false) -> filter f l = [].
Proof.
  induction l as [|a l IH]; simpl; intros H; [reflexivity|].
  rewrite (H a) by now left. apply IH. intros x Hx. apply H. now right.
Qed.

Section Typing.
Variable ids : list string.
Variable base : option string.
Context {K : Type}.
Variable key : value -> K.
Variable key_eqb : K -> K -> bool.
Variable sentences : Sentences.

(** With no sentinel among the entries the type is [edited]. *)
Lemma classify_no_missing (c : Collected) :
  (forall i, In i ids -> is_MISSING (obj_get (c_values c) i) = false) ->
  fst (classify ids base key key_eqb sentences c) = edited.
Proof.
  intros H. unfold classify, missingInstances. cbv zeta.
  rewrite (filter_nil_none _ ids H). simpl.
  repeat match goal with
         | |- context [if ?b then _ else _] => destruct b
         end; reflexivity.
Qed.

End Typing.

(** The type of a row is the one that [classify] gives for the entries
    collected for its unit; the key of the comparison has no part in
    it. *)
Lemma unitRows_type c ids base u r :
  In r (unitRows c ids base u) ->
  type r
  = fst (classify ids base (fun v => v) strict_eq (toggleSentences u)
           (collect ids base (valueAt c u))).
Proof.
  assert (Hindep : forall (K K' : Type) (key : value -> K) (eqb : K -> K -> bool)
             (key' : value -> K') (eqb' : K' -> K' -> bool) s s' col,
             fst (classify ids base key eqb s col)
             = fst (classify ids base key' eqb' s' col)).
  { intros. unfold classify.
    repeat match goal with
           | |- context [if ?b then _ else _] => destruct b
           end; reflexivity. }
  intros H.
  destruct c as [data|data|data t|data t]; simpl in H;
    apply compareUnit_In in H; simpl in H;
    destruct H as (_ & _ & _ & Ht & _); rewrite Ht; apply Hindep.
Qed.

(** A unit that gets a row although the first loop finds no value of a
    base has an instance whose entry is not the sentinel. *)
Lemma emitted_has_present c ids base u :
  In u (units c ids) ->
  baseFound ids base (valueAt c u) = None ->
  emits c ids base u = true ->
  exists i, In i ids /\ is_MISSING (entryOf (valueAt c u i)) = false.
Proof.
  intros Hu Hf He. apply (emits_symmetric c ids base u Hu Hf) in He.
  destruct He as (i & j & Hi & Hj & Hne).
  destruct (is_MISSING (entryOf (valueAt c u i))) eqn:Ei;
    [|exists i; auto].
  destruct (is_MISSING (entryOf (valueAt c u j))) eqn:Ej;
    [|exists j; auto].
  exfalso. apply Hne. unfold textOf.
  now rewrite (is_MISSING_eq _ Ei), (is_MISSING_eq _ Ej).
Qed.

End TypeFacts.

(** * Further properties *)

Import Shapes Store Pages JsonHelpers PathFacts OrderFacts EmissionFacts
       StoreFacts.

(** X1. Resolving a path made of two parts joined by a dot is resolving
    the second part in the value of the first. *)
Theorem path_resolution_composes (obj : value) (p q : string) :
  getValueAtPath obj (p ++ "." ++ q)%string
  = getValueAtPath (getValueAtPath obj p) q.
Proof. apply getValueAtPath_app. Qed.

(** X2. Below a path whose value is absent, null or a primitive, every
    longer path is [undefined]: the resolver never fails. *)
Theorem absent_prefix_is_absent (obj : value) (p q : string) :
  isContainer (getValueAtPath obj p) = false ->
  getValueAtPath obj (p ++ "." ++ q)%string = VUndef.
Proof.
  intros H. rewrite getValueAtPath_app. now apply getValueAtPath_leaf.
Qed.

Lemma absent_prefix_is_absent_witness :
  isContainer (getValueAtPath Samples.nestedLeft "a.x") = false
  /\ getValueAtPath Samples.nestedLeft ("a.x" ++ "." ++ "y")%string = VUndef.
Proof.
  split; [reflexivity|].
  apply (absent_prefix_is_absent Samples.nestedLeft "a.x" "y"). reflexivity.
Defined.

(** X3. In an object whose keys are distinct, not empty and without a
    dot, and that holds no [undefined], every collected path leads to a
    value. *)
Theorem collected_paths_resolve (obj : value) (p : string) :
  plainObject obj = true ->
  In p (collectPaths [obj]) ->
  getValueAtPath obj p <> VUndef.
Proof.
  intros Hplain Hp. unfold collectPaths in Hp. simpl in Hp.
  destruct (traverse_resolves obj Hplain "" p Hp) as (q & -> & Hq).
  exact Hq.
Qed.

Lemma collected_paths_resolve_witness :
  plainObject Samples.nestedLeft = true
  /\ In "a.x" (collectPaths [Samples.nestedLeft])
  /\ getValueAtPath Samples.nestedLeft "a.x" <> VUndef.
Proof.
  assert (H : In "a.x" (collectPaths [Samples.nestedLeft]))
    by (vm_compute; auto).
  split; [reflexivity|]. split; [exact H|].
  apply (collected_paths_resolve Samples.nestedLeft "a.x" eq_refl H).
Defined.

(** X4. The collected paths are the union of the paths of each payload,
    each listed once. *)
Theorem collected_paths_union (objects : list value) :
  NoDup (collectPaths objects)
  /\ forall p, In p (collectPaths objects)
               <-> exists obj, In obj objects /\ In p (collectPaths [obj]).
Proof.
  unfold collectPaths. split.
  - apply collectPaths_fold. constructor.
  - intros p. rewrite (proj1 (collectPaths_fold objects []) p). simpl.
    split; [intros [[]|H]; exact H | auto].
Qed.


(** X6. The comparisons that find their units in the data never push two
    rows with the same path. *)
Theorem rows_have_distinct_paths
    (c : Comparison) (ids : list string) (base : option string) :
  discoversUnits c = true -> NoDup (map path (compare c ids base)).
Proof.
  intros H. rewrite paths_of_rows. apply NoDup_filter. now apply units_NoDup.
Qed.

Lemma rows_have_distinct_paths_witness :
  discoversUnits (GenericComparison Samples.editedData) = true
  /\ NoDup (map path (compare (GenericComparison Samples.editedData)
                              ["p"; "q"] None)).
Proof.
  split; [reflexivity|].
  apply (rows_have_distinct_paths (GenericComparison Samples.editedData)
           ["p"; "q"] None eq_refl).
Defined.

(** X7. An instance for which the data hold nothing is written as
    missing in every row and is never among the affected instances.  In
    the comparisons of arrays the data hold nothing when the instance
    has no payload or an empty array; in the comparisons of objects,
    when it has no payload or a falsy one (an empty array is truthy
    there, and has a length). *)
Theorem instance_without_data_is_missing
    (c : Comparison) (ids : list string) (base : option string)
    (i : string) (r : ComparisonResult) :
  noData c i = true -> In i ids -> In r (compare c ids base) ->
  obj_get (values r) i = MISSING /\ ~ In i (affectedInstances r).
Proof.
  intros Hno Hi Hr. apply compare_In in Hr. destruct Hr as (u & _ & Hr).
  apply unitRows_In in Hr. destruct Hr as (_ & Hv & Ha & _).
  rewrite Hv, Ha, collect_get by exact Hi.
  rewrite (noData_valueAt c i u Hno). split; [reflexivity|].
  intros Hin. apply filter_In in Hin. destruct Hin as [_ Hs].
  rewrite (noData_valueAt c i u Hno) in Hs. discriminate.
Qed.

Lemma instance_without_data_is_missing_witness :
  let c := GenericComparison MoreSamples.onlyP in
  let r := MoreSamples.firstRow (compare c ["p"; "q"] None) in
  noData c "q" = true /\ In "q" ["p"; "q"] /\ In r (compare c ["p"; "q"] None)
  /\ (obj_get (values r) "q" = MISSING /\ ~ In "q" (affectedInstances r)).
Proof.
  assert (H1 : In "q" ["p"; "q"]) by (simpl; auto).
  assert (H2 : In (MoreSamples.firstRow
                     (compare (GenericComparison MoreSamples.onlyP)
                              ["p"; "q"] None))
                  (compare (GenericComparison MoreSamples.onlyP)
                           ["p"; "q"] None))
    by (vm_compute; auto).
  split; [reflexivity|]. split; [exact H1|]. split; [exact H2|].
  apply (instance_without_data_is_missing
           (GenericComparison MoreSamples.onlyP) ["p"; "q"] None "q" _
           eq_refl H1 H2).
Defined.

(** X8. When the first loop finds no value of a base (no base is set, the
    base is not one of the instances, or it lacks the unit), a unit gets
    a row exactly when two instances have entries with different
    [JSON.stringify] texts, the entry of an instance that lacks the unit
    being the sentinel.  The unit is one that the comparison reads by
    own properties, and the identifiers of the records have a text. *)
Theorem row_exactly_when_texts_differ
    (c : Comparison) (ids : list string) (base : option string)
    (unit : string) :
  readsOwn c unit = true ->
  identifiersConvert c ids = true ->
  In unit (units c ids) ->
  baseFound ids base (valueAt c unit) = None ->
  (exists r, In r (compare c ids base) /\ path r = unit)
  <-> exists i j, In i ids /\ In j ids /\ textOf c unit i <> textOf c unit j.
Proof.
  intros _ _ Hu Hf.
  rewrite (rows_of_unit c ids base unit Hu), <- emits_rows.
  now apply emits_symmetric.
Qed.

Lemma row_exactly_when_texts_differ_witness :
  let c := GenericComparison Samples.partialData in
  readsOwn c "x" = true
  /\ identifiersConvert c ["p"; "q"] = true
  /\ In "x" (units c ["p"; "q"])
  /\ baseFound ["p"; "q"] None (valueAt c "x") = None
  /\ ((exists r, In r (compare c ["p"; "q"] None) /\ path r = "x")
      <-> exists i j, In i ["p"; "q"] /\ In j ["p"; "q"]
                      /\ textOf c "x" i <> textOf c "x" j).
Proof.
  assert (H : In "x" (units (GenericComparison Samples.partialData) ["p"; "q"]))
    by (vm_compute; auto).
  split; [reflexivity|]. split; [reflexivity|].
  split; [exact H|]. split; [reflexivity|].
  apply (row_exactly_when_texts_differ (GenericComparison Samples.partialData)
           ["p"; "q"] None "x" eq_refl eq_refl H eq_refl).
Defined.

(** X9. When the base is one of the instances and has the unit, the unit
    gets a row exactly when some other instance lacks the unit, has the
    text of the sentinel as its value, or has a value whose
    [JSON.stringify] text is not that of the value of the base.  The
    unit is one that the comparison reads by own properties, and the
    identifiers of the records have a text. *)
Theorem row_under_base_exactly_when_other_differs
    (c : Comparison) (ids : list string) (b : string) (vb : value)
    (unit : string) :
  readsOwn c unit = true ->
  identifiersConvert c ids = true ->
  truthy_string b = true -> In b ids -> valueAt c unit b = Some vb ->
  In unit (units c ids) ->
  (exists r, In r (compare c ids (Some b)) /\ path r = unit)
  <-> exists i, In i ids /\ i <> b
                /\ (is_MISSING (entryOf (valueAt c unit i)) = true
                    \/ textOf c unit i <> stringify vb).
Proof.
  intros _ _ Ht Hb Hvb Hu.
  rewrite (rows_of_unit c ids (Some b) unit Hu), <- emits_rows.
  rewrite (emits_under_base c ids (Some b) unit vb Hu
             (baseFound_Some ids (Some b) (valueAt c unit) b vb
                eq_refl Ht Hb Hvb)).
  split; intros (i & Hi & Hnb & Hc); exists i; repeat split; auto.
  - rewrite isBase_Some in Hnb. now apply String.eqb_neq.
  - rewrite isBase_Some. now apply String.eqb_neq.
Qed.

Lemma row_under_base_exactly_when_other_differs_witness :
  let c := GenericComparison Samples.editedData in
  readsOwn c "y" = true
  /\ identifiersConvert c ["p"; "q"] = true
  /\ truthy_string "p" = true /\ In "p" ["p"; "q"]
  /\ valueAt c "y" "p" = Some (VNum 2)
  /\ In "y" (units c ["p"; "q"])
  /\ ((exists r, In r (compare c ["p"; "q"] (Some "p")) /\ path r = "y")
      <-> exists i, In i ["p"; "q"] /\ i <> "p"
                    /\ (is_MISSING (entryOf (valueAt c "y" i)) = true
                        \/ textOf c "y" i <> stringify (VNum 2))).
Proof.
  assert (H1 : In "p" ["p"; "q"]) by (simpl; auto).
  assert (H2 : In "y" (units (GenericComparison Samples.editedData) ["p"; "q"]))
    by (vm_compute; auto).
  split; [reflexivity|]. split; [reflexivity|].
  split; [reflexivity|]. split; [exact H1|]. split; [reflexivity|].
  split; [exact H2|].
  apply (row_under_base_exactly_when_other_differs
           (GenericComparison Samples.editedData) ["p"; "q"] "p" (VNum 2) "y"
           eq_refl eq_refl eq_refl H1 eq_refl H2).
Defined.

(** X10. Every row names at least one instance that has the unit. *)
Theorem rows_name_a_present_instance
    (c : Comparison) (ids : list string) (base : option string)
    (r : ComparisonResult) :
  In r (compare c ids base) -> affectedInstances r <> [].
Proof.
  intros Hr. apply compare_In in Hr. destruct Hr as (u & Hu & Hr).
  assert (He : emits c ids base u = true).
  { apply emits_rows. intros E. rewrite E in Hr. contradiction. }
  destruct (emits_present c ids base u Hu He) as (j & Hj & Hs).
  apply unitRows_In in Hr. destruct Hr as (_ & _ & Ha & _).
  rewrite Ha. intros E.
  assert (Hin : In j (filter (fun i => isSome (valueAt c u i)) ids))
    by (apply filter_In; auto).
  rewrite E in Hin. contradiction.
Qed.

Lemma rows_name_a_present_instance_witness :
  let c := GenericComparison Samples.partialData in
  let r := MoreSamples.firstRow (compare c ["p"; "q"] None) in
  In r (compare c ["p"; "q"] None) /\ affectedInstances r <> [].
Proof.
  assert (H : In (MoreSamples.firstRow
                    (compare (GenericComparison Samples.partialData)
                             ["p"; "q"] None))
                 (compare (GenericComparison Samples.partialData)
                          ["p"; "q"] None))
    by (vm_compute; auto).
  split; [exact H|].
  apply (rows_name_a_present_instance
           (GenericComparison Samples.partialData) ["p"; "q"] None _ H).
Defined.

(** X11. A base that is not one of the compared instances changes no
    path, no entry and no affected instance of the rows: the same units
    get a row as without a base. *)
Theorem base_outside_instances
    (c : Comparison) (ids : list string) (b : string) :
  ~ In b ids ->
  map rowContent (compare c ids (Some b))
  = map rowContent (compare c ids None).
Proof.
  intros Hout. rewrite !compare_flat, !map_flat_map.
  apply flat_map_ext. intros u.
  destruct c as [data|data|data t|data t]; simpl;
    now apply unit_base_outside.
Qed.

Lemma base_outside_instances_witness :
  ~ In "z" ["p"; "q"]
  /\ map rowContent (compare (GenericComparison Samples.partialData)
                             ["p"; "q"] (Some "z"))
     = map rowContent (compare (GenericComparison Samples.partialData)
                               ["p"; "q"] None).
Proof.
  assert (H : ~ In "z" ["p"; "q"]) by (simpl; intuition discriminate).
  split; [exact H|].
  apply (base_outside_instances (GenericComparison Samples.partialData)
           ["p"; "q"] "z" H).
Defined.

(** X12. The reducer reads the payloads of the compared instances only:
    two requests whose data agree on the instance ids give the same
    outcome. *)
Theorem unselected_payloads_ignored
    (now isoNow : string) (state : ComparisonState)
    (name : string) (ids : list string) (endpoint : string)
    (data data' : object) :
  (forall i, In i ids -> obj_get data i = obj_get data' i) ->
  createComparisonSession now isoNow state (mkRequest name ids endpoint data)
  = createComparisonSession now isoNow state (mkRequest name ids endpoint data').
Proof.
  intros H. unfold createComparisonSession, runComparison. simpl.
  rewrite (anyThrows_ext (throwsOn state) data data' ids H).
  now rewrite (selectData_ext (asArrayOf asFeatureToggle) data data' ids H),
    (selectData_ext (asArrayOf asRecord) data data' ids H),
    (selectData_ext Some data data' ids H).
Qed.

Lemma unselected_payloads_ignored_witness :
  (forall i, In i ["p"; "q"] ->
             obj_get MoreSamples.onlyP i = obj_get MoreSamples.onlyPAndOther i)
  /\ createComparisonSession "1700000000000" "2023-11-14T22:13:20.000Z"
       Samples.emptyState
       (mkRequest "run" ["p"; "q"] "/api/settings" MoreSamples.onlyP)
     = createComparisonSession "1700000000000" "2023-11-14T22:13:20.000Z"
         Samples.emptyState
         (mkRequest "run" ["p"; "q"] "/api/settings" MoreSamples.onlyPAndOther).
Proof.
  assert (H : forall i, In i ["p"; "q"] ->
                obj_get MoreSamples.onlyP i
                = obj_get MoreSamples.onlyPAndOther i).
  { intros i [<-|[<-|[]]]; reflexivity. }
  split; [exact H|].
  apply (unselected_payloads_ignored "1700000000000"
           "2023-11-14T22:13:20.000Z" Samples.emptyState "run" ["p"; "q"]
           "/api/settings" MoreSamples.onlyP MoreSamples.onlyPAndOther H).
Defined.

(** ** The reducers of the store *)

(** X13. Deleting the session that [createComparisonSession] has just
    recorded removes every session with its id and leaves no session
    active; when no older session has that id, the sessions are those
    from before the comparison. *)
Theorem delete_undoes_create
    (now isoNow : string) (state : ComparisonState) (rq : SessionRequest)
    (state' : ComparisonState) (effects : list Effect) :
  (2 <= List.length (rq_instanceIds rq))%nat ->
  createComparisonSession now isoNow state rq = Returns (state', effects) ->
  sessions (deleteSession state' now)
  = filter (fun s => negb (id s =? now)) (sessions state)
  /\ activeSessionId (deleteSession state' now) = None
  /\ ((forall s, In s (sessions state) -> id s <> now) ->
      sessions (deleteSession state' now) = sessions state).
Proof.
  intros Hlen H. unfold createComparisonSession in H.
  destruct (Nat.ltb_spec (List.length (rq_instanceIds rq)) 2) as [Hlt|_];
    [lia|].
  destruct (runComparison state rq) as [rs| |]; try discriminate.
  injection H as <- _. simpl.
  rewrite filter_app. simpl. rewrite !String.eqb_refl. simpl.
  rewrite app_nil_r.
  split; [reflexivity|]. split; [reflexivity|].
  intros Hfresh. apply forallb_filter_all, forallb_forall.
  intros s Hs. apply negb_true_iff, String.eqb_neq. now apply Hfresh.
Qed.

Lemma delete_undoes_create_witness :
  let out := Samples.outcomeOf Samples.emptyState Samples.nestedRequest in
  (2 <= List.length (rq_instanceIds Samples.nestedRequest))%nat
  /\ sessions (deleteSession (fst out) "1700000000000")
     = filter (fun s => negb (id s =? "1700000000000"))
              (sessions Samples.emptyState)
  /\ activeSessionId (deleteSession (fst out) "1700000000000") = None
  /\ ((forall s, In s (sessions Samples.emptyState) ->
                 id s <> "1700000000000") ->
      sessions (deleteSession (fst out) "1700000000000")
      = sessions Samples.emptyState).
Proof.
  assert (H : (2 <= List.length (rq_instanceIds Samples.nestedRequest))%nat)
    by (simpl; lia).
  split; [exact H|].
  apply (delete_undoes_create "1700000000000" "2023-11-14T22:13:20.000Z"
           Samples.emptyState Samples.nestedRequest
           (fst (Samples.outcomeOf Samples.emptyState Samples.nestedRequest))
           (snd (Samples.outcomeOf Samples.emptyState Samples.nestedRequest))
           H eq_refl).
Defined.

(** X14. After [setSelectedInstances] the base that a comparison would
    use is a base that was set before and that is one of the selected
    instances: a base outside the selection is reset. *)
Theorem selection_keeps_base_inside
    (state : ComparisonState) (payload : list string) (b : string) :
  baseOrUndefined (baseInstanceId (setSelectedInstances state payload))
  = Some b
  <-> baseOrUndefined (baseInstanceId state) = Some b /\ In b payload.
Proof.
  unfold setSelectedInstances, baseOrUndefined. simpl.
  destruct (baseInstanceId state) as [b0|]; [|intuition discriminate].
  destruct (truthy_string b0) eqn:Ht; simpl.
  - destruct (existsb (String.eqb b0) payload) eqn:He; simpl.
    + rewrite Ht. apply existsb_exists in He. destruct He as (x & Hx & E).
      apply String.eqb_eq in E. subst x.
      split; [intros [= <-]; auto | intros [H _]; exact H].
    + split; [discriminate|]. intros [[= <-] Hin]. exfalso.
      assert (Hex : existsb (String.eqb b0) payload = true)
        by (apply existsb_exists; exists b0; split;
            [exact Hin | apply String.eqb_refl]).
      rewrite Hex in He. discriminate.
  - rewrite Ht. intuition discriminate.
Qed.

(** X15. [updateCustomComparisonType] replaces the first type that has
    the id of the payload and saves the types; the ids and their order
    stay, and the other ids look up what they did.  When no type has the
    id, nothing changes and nothing is saved. *)
Theorem update_replaces_first_match
    (state : ComparisonState) (payload : CustomComparisonType) :
  let state' := fst (updateCustomComparisonType state payload) in
  let writes := snd (updateCustomComparisonType state payload) in
  map ct_id (customTypes state') = map ct_id (customTypes state)
  /\ match findCustomType state (ct_id payload) with
     | None => state' = state /\ writes = []
     | Some _ =>
         writes = [WriteCustomTypes (customTypes state')]
         /\ forall i, findCustomType state' i
                      = if i =? ct_id payload then Some payload
                        else findCustomType state i
     end.
Proof.
  unfold updateCustomComparisonType, findCustomType.
  pose proof (replaceFirst_spec (customTypes state) payload) as H.
  destruct (replaceFirst (customTypes state) payload) as [types|].
  - destruct H as (Hids & Hfound & Hfind).
    destruct (find (fun t => ct_id t =? ct_id payload) (customTypes state));
      [|contradiction].
    destruct (comparisonType (withCustomTypes state types) =? ct_id payload);
      simpl; auto.
  - rewrite H. simpl. auto.
Qed.

(** X16. [addCustomComparisonType] saves the types and changes the lookup
    of no other id; the new id finds the new type, with the endpoints
    and fields of the payload, unless an older type has that id, which
    is then still the one found. *)
Theorem added_type_is_found
    (now isoNow : string) (state : ComparisonState)
    (payload : CustomComparisonType) :
  let state' := fst (addCustomComparisonType now isoNow state payload) in
  let newId := ("custom-" ++ now)%string in
  snd (addCustomComparisonType now isoNow state payload)
  = [WriteCustomTypes (customTypes state')]
  /\ (forall i, i <> newId -> findCustomType state' i = findCustomType state i)
  /\ match findCustomType state newId with
     | Some t => findCustomType state' newId = Some t
     | None =>
         exists t, findCustomType state' newId = Some t
                   /\ ct_id t = newId /\ createdAt t = isoNow
                   /\ fetchEndpoint t = fetchEndpoint payload
                   /\ saveEndpoint t = saveEndpoint payload
                   /\ comparisonFields t = comparisonFields payload
                   /\ identifierField t = identifierField payload
     end.
Proof.
  intros state' newId. subst state'.
  unfold addCustomComparisonType, findCustomType.
  cbn [fst snd withCustomTypes customTypes]. fold newId. clearbody newId.
  split; [reflexivity|]. split.
  - intros i Hi.
    destruct (find (fun t => ct_id t =? i) (customTypes state)) as [t|] eqn:Hf.
    + now apply find_app_some.
    + rewrite find_app_none by exact Hf. cbn [find ct_id].
      destruct (String.eqb_spec newId i) as [E|_];
        [now symmetry in E|reflexivity].
  - destruct (find (fun t => ct_id t =? newId) (customTypes state))
      as [t|] eqn:Hf.
    + now apply find_app_some.
    + rewrite find_app_none by exact Hf. cbn [find ct_id].
      rewrite String.eqb_refl.
      eexists. split; [reflexivity|]. cbn. auto 10.
Qed.

(** X17. Adding a custom type and deleting it again gives back the store,
    when the id is new and is not the comparison type. *)
Theorem add_then_delete_round_trip
    (now isoNow : string) (state : ComparisonState)
    (payload : CustomComparisonType) :
  findCustomType state ("custom-" ++ now)%string = None ->
  comparisonType state <> ("custom-" ++ now)%string ->
  deleteCustomComparisonType
    (fst (addCustomComparisonType now isoNow state payload))
    ("custom-" ++ now)%string
  = Returned state [WriteCustomTypes (customTypes state)].
Proof.
  unfold findCustomType, deleteCustomComparisonType, addCustomComparisonType.
  cbn [fst snd withCustomTypes customTypes comparisonType].
  generalize ("custom-" ++ now)%string. intros newId Hfresh Hty.
  rewrite filter_fresh.
  - destruct (String.eqb_spec (comparisonType state) newId) as [E|_];
      [contradiction|].
    unfold withCustomTypes. cbn. now rewrite state_eta.
  - intros t Ht. apply negb_true_iff.
    exact (find_none_all _ _ Hfresh t Ht).
  - cbn [ct_id]. now rewrite String.eqb_refl.
Qed.

Lemma add_then_delete_round_trip_witness :
  findCustomType MoreSamples.flagState ("custom-" ++ "2")%string = None
  /\ comparisonType MoreSamples.flagState <> ("custom-" ++ "2")%string
  /\ deleteCustomComparisonType
       (fst (addCustomComparisonType "2" "2023-11-14T22:13:20.000Z"
               MoreSamples.flagState (MoreSamples.flagType "")))
       ("custom-" ++ "2")%string
     = Returned MoreSamples.flagState
                [WriteCustomTypes (customTypes MoreSamples.flagState)].
Proof.
  assert (H : comparisonType MoreSamples.flagState <> ("custom-" ++ "2")%string)
    by discriminate.
  split; [reflexivity|]. split; [exact H|].
  apply (add_then_delete_round_trip "2" "2023-11-14T22:13:20.000Z"
           MoreSamples.flagState (MoreSamples.flagType "") eq_refl H).
Defined.

(** X18. [deleteCustomComparisonType] removes every type with the id and
    saves the remaining types; the other ids look up what they did.
    When the deleted id is the comparison type, the store goes back to
    [settings] and its endpoints; when no [settings] endpoints are
    configured the reducer throws after saving, so the store keeps the
    type that local storage has lost. *)
Theorem deleted_type_is_gone (state : ComparisonState) (payload : string) :
  match deleteCustomComparisonType state payload with
  | Returned state' writes =>
      findCustomType state' payload = None
      /\ (forall i, i <> payload ->
                    findCustomType state' i = findCustomType state i)
      /\ writes = [WriteCustomTypes (customTypes state')]
      /\ (comparisonType state = payload ->
          comparisonType state' = "settings"
          /\ exists config,
               prop_lookup (builtInEndpoints state) "settings" = Some config
               /\ currentFetchEndpoint state' = ec_fetchEndpoint config
               /\ currentSaveEndpoint state' = ec_saveEndpoint config)
      /\ (comparisonType state <> payload ->
          state' = withCustomTypes state (customTypes state'))
  | Threw writes =>
      comparisonType state = payload
      /\ prop_lookup (builtInEndpoints state) "settings" = None
      /\ writes = [WriteCustomTypes
                     (filter (fun t => negb (ct_id t =? payload))
                             (customTypes state))]
  end.
Proof.
  unfold deleteCustomComparisonType, findCustomType. simpl.
  assert (Hgone : find (fun t => ct_id t =? payload)
                       (filter (fun t => negb (ct_id t =? payload))
                               (customTypes state)) = None)
    by apply (find_filter_self (fun t => ct_id t =? payload)).
  assert (Hother : forall i, i <> payload ->
            find (fun t => ct_id t =? i)
                 (filter (fun t => negb (ct_id t =? payload))
                         (customTypes state))
            = find (fun t => ct_id t =? i) (customTypes state)).
  { intros i Hi. apply find_filter_other. intros t Ht.
    apply String.eqb_eq in Ht. apply negb_true_iff, String.eqb_neq.
    congruence. }
  destruct (String.eqb_spec (comparisonType state) payload) as [E|Hne].
  - destruct (prop_lookup (builtInEndpoints state) "settings")
      as [config|] eqn:Hc; simpl.
    + split; [exact Hgone|]. split; [exact Hother|].
      split; [reflexivity|]. split.
      * intros _. split; [reflexivity|]. exists config. auto.
      * intros Hne. contradiction.
    + auto.
  - simpl. split; [exact Hgone|]. split; [exact Hother|].
    split; [reflexivity|]. split; [intros E; contradiction|].
    intros _. reflexivity.
Qed.

(** X19. [updateBuiltInEndpoints] stores the endpoints under the type and
    saves the table; the other types keep theirs.  Choosing the type
    afterwards makes these endpoints the current ones, unless a custom
    type has that id. *)
Theorem built_in_endpoints_read_back
    (state : ComparisonState) (ty fetch save : string)
    (requestBody : option object) :
  let state' := fst (updateBuiltInEndpoints state ty fetch save requestBody) in
  prop_lookup (builtInEndpoints state') ty
  = Some (mkEndpointConfig fetch save requestBody)
  /\ (forall other, other <> ty ->
        prop_lookup (builtInEndpoints state') other
        = prop_lookup (builtInEndpoints state) other)
  /\ snd (updateBuiltInEndpoints state ty fetch save requestBody)
     = [WriteBuiltInEndpoints (builtInEndpoints state')]
  /\ (findCustomType state ty = None ->
      currentFetchEndpoint (setComparisonType state' ty) = fetch
      /\ currentSaveEndpoint (setComparisonType state' ty) = save).
Proof.
  intros state'. subst state'. unfold updateBuiltInEndpoints. cbn [fst snd].
  destruct (comparisonType _ =? ty); simpl;
    rewrite prop_lookup_set, String.eqb_refl;
    (split; [reflexivity|]); (split; [|split; [reflexivity|]]).
  1, 3: intros other Hne; rewrite prop_lookup_set;
        destruct (String.eqb_spec ty other) as [E|_];
        [now symmetry in E|reflexivity].
  all: intros Hnone; unfold setComparisonType, findCustomType in *; simpl;
       rewrite Hnone, prop_lookup_set, String.eqb_refl; simpl; auto.
Qed.

(** X20. A store whose current endpoints are those that
    [setComparisonType] gives for its comparison type keeps this when a
    custom type is updated; [setComparisonType] gives such a store. *)
Theorem endpoints_follow_type
    (state : ComparisonState) (payload : CustomComparisonType) :
  setComparisonType state (comparisonType state) = state ->
  let state' := fst (updateCustomComparisonType state payload) in
  setComparisonType state' (comparisonType state') = state'
  /\ forall ty, setComparisonType (setComparisonType state ty) ty
                = setComparisonType state ty.
Proof.
  intros Hsync. split.
  - now apply update_keeps_in_step.
  - intros ty. apply setComparisonType_idempotent.
Qed.

Lemma endpoints_follow_type_witness :
  setComparisonType MoreSamples.flagState
                    (comparisonType MoreSamples.flagState)
  = MoreSamples.flagState
  /\ (let state' :=
        fst (updateCustomComparisonType MoreSamples.flagState
               (MoreSamples.flagType "custom-1")) in
      setComparisonType state' (comparisonType state') = state'
      /\ forall ty,
           setComparisonType (setComparisonType MoreSamples.flagState ty) ty
           = setComparisonType MoreSamples.flagState ty).
Proof.
  split; [reflexivity|].
  apply (endpoints_follow_type MoreSamples.flagState
           (MoreSamples.flagType "custom-1") eq_refl).
Defined.

(** ** The pages *)

(** X21. The compare page never reaches the guard of the reducer: with
    fewer than two selected instances it dispatches nothing; otherwise
    the action carries the selection, with the cached data of each
    selected instance and of no other.  On this action the reducer
    records a session, without setting the error, when the payloads have
    the shape of the comparison type; it throws, and the store keeps its
    state, when a truthy payload is one on which the comparison throws,
    as a cached object is for the comparison of feature toggles. *)
Theorem start_comparison_passes_guard
    (selected : list string) (cache : list (string * InstanceData))
    (sessionName defaultName endpoint : string) :
  match handleStartComparison selected cache sessionName defaultName
                              endpoint with
  | None => (List.length selected < 2)%nat
  | Some rq =>
      (2 <= List.length selected)%nat
      /\ rq_instanceIds rq = selected
      /\ rq_endpoint rq = endpoint
      /\ (forall i, obj_get (rq_instanceData rq) i
                    = if includes selected i then
                        match prop_lookup cache i with
                        | Some d => data d
                        | None => VUndef
                        end
                      else VUndef)
      /\ (forall now isoNow state,
            wellShaped state rq ->
            exists state' effects,
              createComparisonSession now isoNow state rq
              = Returns (state', effects)
              /\ error state' = error state
              /\ activeSessionId state' = Some now
              /\ List.length (sessions state')
                 = S (List.length (sessions state)))
      /\ (forall now isoNow state i,
            In i selected ->
            truthy (obj_get (rq_instanceData rq) i) = true ->
            throwsOn state (obj_get (rq_instanceData rq) i) = true ->
            createComparisonSession now isoNow state rq = Throws)
  end.
Proof.
  unfold handleStartComparison.
  destruct (Nat.ltb_spec (List.length selected) 2) as [Hlt|Hge];
    [exact Hlt|].
  split; [exact Hge|]. split; [reflexivity|]. split; [reflexivity|].
  split; [|split].
  - intros i. cbn [rq_instanceData]. rewrite selected_data_get.
    unfold includes. reflexivity.
  - intros now isoNow state Hshape.
    destruct (runComparison_Returns _ _ Hshape) as [rs Hrs].
    unfold createComparisonSession. rewrite Hrs. cbn [rq_instanceIds].
    destruct (Nat.ltb_spec (List.length selected) 2) as [Hlt|_]; [lia|].
    eexists. eexists. split; [reflexivity|]. simpl.
    split; [reflexivity|]. split; [reflexivity|].
    rewrite length_app. simpl. lia.
  - intros now isoNow state i Hi Ht Hth.
    match goal with
    | |- createComparisonSession _ _ _ ?r = _ =>
        pose proof (runComparison_Throws state r i Hi Ht Hth) as Hthrow
    end.
    unfold createComparisonSession. rewrite Hthrow. cbn [rq_instanceIds].
    now destruct (Nat.ltb_spec (List.length selected) 2) as [Hlt|_]; [lia|].
Qed.

(** X22. The summary page shows the session that the reducer has just
    recorded, when no older session has its id, and each filter lists as
    many rows as the summary of the session counts. *)
Theorem filters_match_summary
    (now isoNow : string) (state : ComparisonState) (rq : SessionRequest)
    (state' : ComparisonState) (effects : list Effect) :
  (2 <= List.length (rq_instanceIds rq))%nat ->
  createComparisonSession now isoNow state rq = Returns (state', effects) ->
  (forall s, In s (sessions state) -> id s <> now) ->
  exists session,
    activeSession state' = Some session
    /\ id session = now
    /\ List.length (getFilteredResults (Some session) FilterAll)
       = totalDifferences (summary session)
    /\ List.length (getFilteredResults (Some session) FilterAdded)
       = sum_added (summary session)
    /\ List.length (getFilteredResults (Some session) FilterDeleted)
       = sum_deleted (summary session)
    /\ List.length (getFilteredResults (Some session) FilterEdited)
       = sum_edited (summary session).
Proof.
  intros Hlen H Hfresh. unfold createComparisonSession in H.
  destruct (Nat.ltb_spec (List.length (rq_instanceIds rq)) 2) as [Hlt|_];
    [lia|].
  destruct (runComparison state rq) as [rs| |]; try discriminate.
  injection H as <- _. eexists. split.
  - unfold activeSession, pushSession.
    cbn [activeSessionId sessions id].
    rewrite find_app_none.
    + cbn [find id]. rewrite String.eqb_refl. reflexivity.
    + destruct (find (fun s => id s =? now) (sessions state)) as [s|] eqn:Hf;
        [|reflexivity].
      apply find_some in Hf. destruct Hf as [Hin E].
      apply String.eqb_eq in E. exfalso. exact (Hfresh s Hin E).
  - repeat split.
Qed.

Lemma filters_match_summary_witness :
  let out := Samples.outcomeOf Samples.emptyState Samples.nestedRequest in
  (2 <= List.length (rq_instanceIds Samples.nestedRequest))%nat
  /\ (forall s, In s (sessions Samples.emptyState) -> id s <> "1700000000000")
  /\ exists session,
       activeSession (fst out) = Some session
       /\ id session = "1700000000000"
       /\ List.length (getFilteredResults (Some session) FilterAll)
          = totalDifferences (summary session)
       /\ List.length (getFilteredResults (Some session) FilterAdded)
          = sum_added (summary session)
       /\ List.length (getFilteredResults (Some session) FilterDeleted)
          = sum_deleted (summary session)
       /\ List.length (getFilteredResults (Some session) FilterEdited)
          = sum_edited (summary session).
Proof.
  assert (H : (2 <= List.length (rq_instanceIds Samples.nestedRequest))%nat)
    by (simpl; lia).
  assert (Hfresh : forall s, In s (sessions Samples.emptyState) ->
                             id s <> "1700000000000")
    by (intros s []).
  split; [exact H|]. split; [exact Hfresh|].
  apply (filters_match_summary "1700000000000" "2023-11-14T22:13:20.000Z"
           Samples.emptyState Samples.nestedRequest
           (fst (Samples.outcomeOf Samples.emptyState Samples.nestedRequest))
           (snd (Samples.outcomeOf Samples.emptyState Samples.nestedRequest))
           H eq_refl Hfresh).
Defined.

(** X23. After select-all is checked every listed row is selected, so the
    box is checked exactly when rows are listed and is never
    indeterminate; after it is unchecked the box is neither.  For any
    selection the box is never both checked and indeterminate. *)
Theorem select_all_states
    (session : option ComparisonSession) (activeFilter : Filter) :
  let rows := getFilteredResults session activeFilter in
  let all := handleSelectAllMigration session activeFilter true in
  let none := handleSelectAllMigration session activeFilter false in
  isAllSelected session activeFilter all = (0 <? List.length rows)%nat
  /\ isIndeterminate session activeFilter all = false
  /\ isAllSelected session activeFilter none = false
  /\ isIndeterminate session activeFilter none = false
  /\ forall selected,
       isAllSelected session activeFilter selected
       && isIndeterminate session activeFilter selected = false.
Proof.
  intros rows all none. subst all none.
  unfold isAllSelected, isIndeterminate, handleSelectAllMigration.
  fold rows. clearbody rows.
  assert (Hall : forallb (fun r => includes (map path rows) (path r)) rows
                 = true).
  { apply forallb_forall. intros r Hr. apply includes_In.
    now apply in_map. }
  split; [now rewrite Hall, andb_true_r|]. split.
  { rewrite (forallb_filter_all _ _ Hall), Nat.ltb_irrefl.
    apply andb_false_r. }
  split.
  { destruct rows as [|r rows']; reflexivity. }
  split.
  { assert (E : filter (fun r => includes [] (path r)) rows = [])
      by (clear Hall; induction rows as [|r rows' IH]; [reflexivity|];
          cbn [filter]; unfold includes at 1; cbn [existsb]; exact IH).
    now rewrite E. }
  intros selected.
  destruct (forallb (fun r => includes selected (path r)) rows) eqn:Hf.
  - rewrite (forallb_filter_all _ _ Hf), Nat.ltb_irrefl, andb_false_r.
    apply andb_false_r.
  - now rewrite andb_false_r.
Qed.

(** X24. Checking a row adds its path to the selection; unchecking it
    removes every copy of the path and no other path, so that checking
    and unchecking a path that was not selected gives back the
    selection. *)
Theorem migration_selection_membership
    (selected : list string) (p q : string) :
  includes (handleMigrationSelection selected p true) q
  = includes selected q || (q =? p)
  /\ includes (handleMigrationSelection selected p false) q
     = includes selected q && negb (q =? p)
  /\ (includes selected p = false ->
      handleMigrationSelection (handleMigrationSelection selected p true)
                               p false
      = selected).
Proof.
  unfold includes, handleMigrationSelection. split; [|split].
  - rewrite existsb_app. simpl. now rewrite orb_false_r.
  - induction selected as [|a l IH]; simpl; [reflexivity|].
    destruct (String.eqb_spec a p) as [->|Hne]; simpl.
    + rewrite IH. destruct (String.eqb_spec q p) as [_|_]; simpl;
        [now rewrite andb_false_r | now rewrite andb_true_r].
    + rewrite IH. destruct (String.eqb_spec q a) as [->|_]; simpl;
        [|reflexivity].
      destruct (String.eqb_spec a p) as [E|_]; [contradiction|reflexivity].
  - intros Hout. apply filter_fresh.
    + intros y Hy. apply negb_true_iff, String.eqb_neq. intros ->.
      assert (Hin : existsb (String.eqb p) selected = true)
        by (apply existsb_exists; exists p; split;
            [exact Hy | apply String.eqb_refl]).
      rewrite Hin in Hout. discriminate.
    + now rewrite String.eqb_refl.
Qed.

(** ** The helpers *)

(** X25. [formatJsonPath] gives the pieces of the path between its dots,
    joined by the arrow text; no dot is left in it. *)
Theorem formatted_path_is_joined_pieces (p : string) :
  formatJsonPath p = join arrow (split_dot p)
  /\ hasDot (formatJsonPath p) = false.
Proof.
  split.
  - unfold split_dot. now rewrite join_split_aux.
  - induction p as [|c p IH]; [reflexivity|].
    cbn [formatJsonPath]. destruct (Ascii.eqb c ".") eqn:Hc.
    + rewrite hasDot_app, IH. reflexivity.
    + cbn [hasDot]. now rewrite Hc, IH.
Qed.

(** X26. [truncateValue] throws only for [undefined].  For a value
    whose text has ASCII characters only, it gives a text of at most
    [maxLength + 3] characters, and gives the text back as it is when it
    has at most [maxLength] characters. *)
Theorem truncated_value_is_bounded (v : value) (maxLength : nat) :
  (truncateValue v maxLength = None <-> v = VUndef)
  /\ forall text,
       stringValue v = Some text -> isAscii text = true ->
       exists out,
         truncateValue v maxLength = Some out
         /\ (String.length out <= maxLength + 3)%nat
         /\ ((String.length text <= maxLength)%nat -> out = text).
Proof.
  unfold truncateValue. split.
  - split.
    + destruct (stringValue v) as [text|] eqn:Htext.
      * now destruct (maxLength <? String.length text)%nat.
      * intros _. destruct v; try discriminate Htext. reflexivity.
    + intros ->. reflexivity.
  - intros text -> _.
    destruct (Nat.ltb_spec maxLength (String.length text)) as [Hlt|Hge].
    + eexists. split; [reflexivity|].
      rewrite str_length_app, substring_0_length. simpl. split; lia.
    + exists text. split; [reflexivity|]. split; [lia|reflexivity].
Qed.

Lemma truncated_value_is_bounded_witness :
  stringValue (VStr "abcdef") = Some "abcdef"
  /\ isAscii "abcdef" = true
  /\ exists out,
       truncateValue (VStr "abcdef") 4 = Some out
       /\ (String.length out <= 4 + 3)%nat
       /\ ((String.length "abcdef" <= 4)%nat -> out = "abcdef").
Proof.
  split; [reflexivity|]. split; [reflexivity|].
  apply (proj2 (truncated_value_is_bounded (VStr "abcdef") 4) "abcdef"
           eq_refl eq_refl).
Defined.

(** ** The type of a row, further *)

Import TypeFacts.

(** X27. A row in which no entry is the sentinel is [edited], with or
    without a base. *)
Theorem row_without_sentinel_is_edited
    (c : Comparison) (ids : list string) (base : option string)
    (r : ComparisonResult) :
  In r (compare c ids base) ->
  (forall i, In i ids -> is_MISSING (obj_get (values r) i) = false) ->
  type r = edited.
Proof.
  intros Hr Hall. apply compare_In in Hr. destruct Hr as (u & _ & Hr).
  rewrite (unitRows_type c ids base u r Hr).
  apply classify_no_missing.
  apply unitRows_In in Hr. destruct Hr as (_ & Hv & _).
  now rewrite <- Hv.
Qed.

Lemma row_without_sentinel_is_edited_witness :
  let c := GenericComparison Samples.editedData in
  let r := MoreSamples.firstRow (compare c ["p"; "q"] None) in
  In r (compare c ["p"; "q"] None)
  /\ (forall i, In i ["p"; "q"] -> is_MISSING (obj_get (values r) i) = false)
  /\ type r = edited.
Proof.
  assert (H : In (MoreSamples.firstRow
                    (compare (GenericComparison Samples.editedData)
                             ["p"; "q"] None))
                 (compare (GenericComparison Samples.editedData)
                          ["p"; "q"] None))
    by (vm_compute; auto).
  assert (Hall : forall i, In i ["p"; "q"] ->
            is_MISSING
              (obj_get
                 (values (MoreSamples.firstRow
                            (compare (GenericComparison Samples.editedData)
                                     ["p"; "q"] None))) i) = false).
  { intros i [<-|[<-|[]]]; reflexivity. }
  split; [exact H|]. split; [exact Hall|].
  apply (row_without_sentinel_is_edited
           (GenericComparison Samples.editedData) ["p"; "q"] None _ H Hall).
Defined.

(** X28. Under a base that is one of the instances and lacks the unit,
    every row of the unit is [added].  The unit is one that the
    comparison reads by own properties: under a name that an object
    inherits, the base has the inherited member for its value. *)
Theorem base_lacks_unit_is_added
    (c : Comparison) (ids : list string) (b : string)
    (r : ComparisonResult) :
  truthy_string b = true -> In b ids ->
  In r (compare c ids (Some b)) ->
  readsOwn c (path r) = true ->
  valueAt c (path r) b = None ->
  type r = added.
Proof.
  intros Ht Hb Hr _ Hnone. apply compare_In in Hr.
  destruct Hr as (u & Hu & Hr).
  assert (Hp : path r = u) by (now apply unitRows_In in Hr).
  rewrite Hp in Hnone.
  assert (He : emits c ids (Some b) u = true).
  { apply emits_rows. intros E. rewrite E in Hr. contradiction. }
  assert (Hf : baseFound ids (Some b) (valueAt c u) = None).
  { unfold baseFound. rewrite Hnone.
    now destruct (truthy_string b && existsb (String.eqb b) ids). }
  destruct (emitted_has_present c ids (Some b) u Hu Hf He) as (i & Hi & Hpres).
  rewrite (unitRows_type c ids (Some b) u r Hr).
  rewrite classify_partial_base.
  - simpl. rewrite collect_get, Hnone by exact Hb. reflexivity.
  - exact Ht.
  - apply (In_length_pos b). now apply missing_In.
  - apply (In_length_pos i). apply filter_In. split; [exact Hi|].
    rewrite collect_get by exact Hi. now rewrite Hpres.
Qed.

Lemma base_lacks_unit_is_added_witness :
  let c := GenericComparison Samples.partialData in
  let r := MoreSamples.firstRow (compare c ["p"; "q"] (Some "q")) in
  truthy_string "q" = true /\ In "q" ["p"; "q"]
  /\ In r (compare c ["p"; "q"] (Some "q"))
  /\ readsOwn c (path r) = true
  /\ valueAt c (path r) "q" = None
  /\ type r = added.
Proof.
  assert (H1 : In "q" ["p"; "q"]) by (simpl; auto).
  assert (H2 : In (MoreSamples.firstRow
                     (compare (GenericComparison Samples.partialData)
                              ["p"; "q"] (Some "q")))
                  (compare (GenericComparison Samples.partialData)
                           ["p"; "q"] (Some "q")))
    by (vm_compute; auto).
  split; [reflexivity|]. split; [exact H1|]. split; [exact H2|].
  split; [reflexivity|]. split; [reflexivity|].
  apply (base_lacks_unit_is_added (GenericComparison Samples.partialData)
           ["p"; "q"] "q" _ eq_refl H1 H2 eq_refl eq_refl).
Defined.
